(** * go-logger: a process-wide facade over the zap logging backend

    Shallow embedding of [logger.go] and [recover.go] (package [logger]).

    The package keeps three process-wide variables ([logger],
    [correlationIdContextKey], [correlationIdFieldKey]) and hands out
    pointers to logger structs.  The embedding threads an explicit [World]
    through every call: the three variables, the heap cells the handles
    point to, the backend's level atoms and sampling counters, the records
    written to each sink, the detached goroutines and the clock.

    A Go call either returns, panics or terminates the process; [Go A] is
    the corresponding state-and-outcome monad.  Goroutines are recorded when
    they are spawned and never interleaved with the caller. *)

From Stdlib Require Import ZArith ZifyNat Ascii String.
From stdpp Require Import base option strings pretty list gmap.

Local Open Scope string_scope.
Local Open Scope list_scope.
Local Open Scope nat_scope.

(** ** Values of type [interface{}]

    The dynamic types the package distinguishes by assertion
    ([correlationId.(string)], [.(bool)]) or formats with [%s]. *)
Inductive any : Type :=
  | VNil
  | VString (s : string)
  | VBool (b : bool)
  | VInt (z : Z)
  | VError (msg : string).

Global Instance any_eq_dec : EqDecision any.
Proof. solve_decision. Defined.

(** [v.(string)]: the comma-ok type assertion. *)
Definition as_string (v : any) : option string :=
  match v with VString s => Some s | _ => None end.

(** [v.(bool)]. *)
Definition as_bool (v : any) : option bool :=
  match v with VBool b => Some b | _ => None end.

(** Rendering of one operand under the verb [%s] of package [fmt]. *)
Definition fmt_s (v : any) : string :=
  match v with
  | VNil => "%!s(<nil>)"
  | VString s => s
  | VBool true => "%!s(bool=true)"
  | VBool false => "%!s(bool=false)"
  | VInt z => "%!s(int=" +:+ pretty z +:+ ")"
  | VError msg => msg
  end.

(** Rendering of one operand under the verb [%v]. *)
Definition fmt_v (v : any) : string :=
  match v with
  | VNil => "<nil>"
  | VString s => s
  | VBool true => "true"
  | VBool false => "false"
  | VInt z => pretty z
  | VError msg => msg
  end.

(** One operand of a variadic [...interface{}]: a value, or a whole
    [[]interface{}] passed as a single argument. *)
Inductive operand : Type :=
  | Value1 (v : any)
  | Slice (elems : list any).

(** [%v] of an operand; a slice prints its elements between brackets,
    separated by spaces. *)
Definition fmt_v_operand (o : operand) : string :=
  match o with
  | Value1 v => fmt_v v
  | Slice elems => "[" +:+ String.concat " " (map fmt_v elems) +:+ "]"
  end.

Definition is_string (o : operand) : bool :=
  match o with
  | Value1 (VString _) => true
  | _ => false
  end.

(** The loop of [fmt.Sprint]: a space goes between two operands when
    neither is a string. *)
Fixpoint doPrint (argNum : nat) (prevString : bool) (a : list operand)
  : string :=
  match a with
  | [] => ""
  | arg :: rest =>
      let isString := is_string arg in
      (if bool_decide (0 < argNum) && negb isString && negb prevString
       then " " else "")
      +:+ fmt_v_operand arg +:+ doPrint (S argNum) isString rest
  end.

Definition Sprint (a : list operand) : string := doPrint 0 false a.

(** ** The backend: package [zapcore] *)
Module zapcore.

Inductive Level : Type :=
  | DebugLevel | InfoLevel | WarnLevel | ErrorLevel
  | DPanicLevel | PanicLevel | FatalLevel.

Global Instance Level_eq_dec : EqDecision Level.
Proof. solve_decision. Defined.

(** The [int8] behind each level. *)
Definition level_int (l : Level) : Z :=
  match l with
  | DebugLevel => -1
  | InfoLevel => 0
  | WarnLevel => 1
  | ErrorLevel => 2
  | DPanicLevel => 3
  | PanicLevel => 4
  | FatalLevel => 5
  end.

(** [threshold.Enabled(lvl)]: [lvl >= threshold]. *)
Definition Enabled (threshold lvl : Level) : bool :=
  bool_decide (level_int threshold ≤ level_int lvl)%Z.

(** Payload of a [Field], by the constructor that built it. *)
Inductive FieldValue : Type :=
  | FString (s : string)
  | FBool (b : bool)
  | FInt (z : Z)
  | FError (msg : string)
  | FStrings (l : list string)
  | FReflectNil
  | FReflectField (key : string) (val : FieldValue)
  | FInvalidPairs (positions : list Z).

Record Field : Type := mkField { Key : string; Val : FieldValue }.

Global Instance FieldValue_eq_dec : EqDecision FieldValue.
Proof. solve_decision. Defined.
Global Instance Field_eq_dec : EqDecision Field.
Proof. solve_decision. Defined.

Inductive LevelEncoder := LowercaseLevelEncoder | CapitalLevelEncoder.
Inductive TimeEncoder := RFC3339TimeEncoder | EpochTimeEncoder.
Inductive DurationEncoder := MillisDurationEncoder | SecondsDurationEncoder.
Inductive CallerEncoder := FullCallerEncoder | ShortCallerEncoder.

(** [zapcore.OmitKey]. *)
Definition OmitKey : string := "".
Definition DefaultLineEnding : string := String (Ascii.ascii_of_nat 10) "".

(** The encoder functions are Go func values: [None] is the nil func. *)
Record EncoderConfig : Type := mkEncoderConfig {
  TimeKey : string;
  LevelKey : string;
  NameKey : string;
  CallerKey : string;
  FunctionKey : string;
  MessageKey : string;
  StacktraceKey : string;
  LineEnding : string;
  EncodeLevel : option LevelEncoder;
  EncodeTime : option TimeEncoder;
  EncodeDuration : option DurationEncoder;
  EncodeCaller : option CallerEncoder
}.

(** What the core received for one record: the entry and the fields,
    context first and call-site fields after. *)
Record Entry : Type := mkEntry {
  e_time : Z;
  e_level : Level;
  e_message : string;
  e_fields : list Field
}.

(** A sampling counter: the count and the instant (ns) it is reset at. *)
Record counter : Type := mkCounter { c_n : Z; c_resetAt : Z }.

Definition uint32_mod : Z := 2 ^ 32.

(** [fnv32a]: the hash that picks a record's counter from its message. *)
Fixpoint fnv32a_from (hash : Z) (s : string) : Z :=
  match s with
  | EmptyString => hash
  | String c s' =>
      fnv32a_from
        ((Z.lxor hash (Z.of_N (Ascii.N_of_ascii c)) * 16777619) mod uint32_mod)%Z
        s'
  end.

Definition fnv32a (s : string) : Z := fnv32a_from 2166136261 s.

Definition _countersPerLevel : Z := 4096.

(** Index of the counter of [(lvl, msg)] in a sampler's table. *)
Definition counter_key (lvl : Level) (msg : string) : Z * Z :=
  ((level_int lvl - level_int DebugLevel)%Z,
   (fnv32a msg mod _countersPerLevel)%Z).

(** [counter.IncCheckReset(t, tick)]. *)
Definition IncCheckReset (c : counter) (tn tick : Z) : counter :=
  if bool_decide (tn < c_resetAt c)%Z
  then mkCounter (c_n c + 1) (c_resetAt c)
  else mkCounter 1 (tn + tick).

(** The sampler's verdict on the [n]-th record of a tick. *)
Definition sampled (first thereafter n : Z) : bool :=
  negb (bool_decide (first < n)%Z
        && (bool_decide (thereafter = 0%Z)
            || negb (bool_decide ((n - first) mod thereafter = 0)%Z))).

End zapcore.

(** ** Pointers and sinks *)
Definition ptr : Type := nat.

Inductive Sink : Type := Stdout | Stderr.

Global Instance Sink_eq_dec : EqDecision Sink.
Proof. solve_decision. Defined.

(** What a terminal level does after the record is written. *)
Inductive CheckWriteAction : Type := WriteThenNoop | WriteThenPanic | WriteThenFatal.

(** A sampler wrapped around a core: its counter table and its limits. *)
Record Sampler : Type := mkSampler {
  s_counts : ptr;
  s_first : Z;
  s_thereafter : Z
}.

(** A [zap.Logger] value.  [With] clones it; nothing in it is written
    after construction. *)
Record ZapLogger : Type := mkZapLogger {
  core_level : ptr;
  core_enc : zapcore.EncoderConfig;
  core_fields : list zapcore.Field;
  core_out : list Sink;
  core_sampler : option Sampler;
  errorOutput : list Sink;
  development : bool;
  addCaller : bool;
  addStack : option zapcore.Level;
  callerSkip : Z
}.

(** A goroutine started with [go] and left running. *)
Inductive Goroutine : Type :=
  | ListenAndServe (addr : string) (route : string) (level : ptr).

(** ** The process *)
Record World : Type := mkWorld {
  logger : option ptr;
  correlationIdContextKey : string;
  correlationIdFieldKey : string;
  loggers : list ZapLogger;
  sugars : list ptr;
  atoms : list zapcore.Level;
  samplers : list (gmap (Z * Z) zapcore.counter);
  written : list (Sink * zapcore.Entry);
  goroutines : list Goroutine;
  now : Z
}.

(** The state of a process before any call into the package: Go zeroes
    the package variables. *)
Definition start (t0 : Z) : World :=
  mkWorld None "" "" [] [] [] [] [] [] t0.

Definition set_logger (v : option ptr) (w : World) : World :=
  mkWorld v (correlationIdContextKey w) (correlationIdFieldKey w) (loggers w)
    (sugars w) (atoms w) (samplers w) (written w) (goroutines w) (now w).

Definition set_correlationIdContextKey (k : string) (w : World) : World :=
  mkWorld (logger w) k (correlationIdFieldKey w) (loggers w)
    (sugars w) (atoms w) (samplers w) (written w) (goroutines w) (now w).

Definition set_correlationIdFieldKey (k : string) (w : World) : World :=
  mkWorld (logger w) (correlationIdContextKey w) k (loggers w)
    (sugars w) (atoms w) (samplers w) (written w) (goroutines w) (now w).

Definition set_loggers (h : list ZapLogger) (w : World) : World :=
  mkWorld (logger w) (correlationIdContextKey w) (correlationIdFieldKey w) h
    (sugars w) (atoms w) (samplers w) (written w) (goroutines w) (now w).

Definition set_sugars (h : list ptr) (w : World) : World :=
  mkWorld (logger w) (correlationIdContextKey w) (correlationIdFieldKey w)
    (loggers w) h (atoms w) (samplers w) (written w) (goroutines w) (now w).

Definition set_atoms (h : list zapcore.Level) (w : World) : World :=
  mkWorld (logger w) (correlationIdContextKey w) (correlationIdFieldKey w)
    (loggers w) (sugars w) h (samplers w) (written w) (goroutines w) (now w).

Definition set_samplers (h : list (gmap (Z * Z) zapcore.counter)) (w : World)
  : World :=
  mkWorld (logger w) (correlationIdContextKey w) (correlationIdFieldKey w)
    (loggers w) (sugars w) (atoms w) h (written w) (goroutines w) (now w).

Definition set_written (t : list (Sink * zapcore.Entry)) (w : World) : World :=
  mkWorld (logger w) (correlationIdContextKey w) (correlationIdFieldKey w)
    (loggers w) (sugars w) (atoms w) (samplers w) t (goroutines w) (now w).

Definition set_goroutines (g : list Goroutine) (w : World) : World :=
  mkWorld (logger w) (correlationIdContextKey w) (correlationIdFieldKey w)
    (loggers w) (sugars w) (atoms w) (samplers w) (written w) g (now w).

Definition set_now (t : Z) (w : World) : World :=
  mkWorld (logger w) (correlationIdContextKey w) (correlationIdFieldKey w)
    (loggers w) (sugars w) (atoms w) (samplers w) (written w) (goroutines w) t.

(** ** Outcomes of a call *)
Inductive Outcome (A : Type) : Type :=
  | Ret (a : A)
  | Panics (v : any)
  | Exits (code : Z).

Arguments Ret {A} a.
Arguments Panics {A} v.
Arguments Exits {A} code.

Definition Go (A : Type) : Type := World → Outcome A * World.

Definition go_ret {A} (a : A) : Go A := λ w, (Ret a, w).

Definition go_bind {A B} (c : Go A) (k : A → Go B) : Go B :=
  λ w, match c w with
       | (Ret a, w') => k a w'
       | (Panics v, w') => (Panics v, w')
       | (Exits n, w') => (Exits n, w')
       end.

Global Instance Go_ret : MRet Go := @go_ret.
Global Instance Go_bind : MBind Go := λ A B k c, go_bind c k.

(** [panic(v)] and [os.Exit(code)]. *)
Definition panic {A} (v : any) : Go A := λ w, (Panics v, w).
Definition os_Exit {A} (code : Z) : Go A := λ w, (Exits code, w).

(** The run-time panic of a nil or dangling dereference. *)
Definition nil_dereference : any :=
  VError "runtime error: invalid memory address or nil pointer dereference".

Definition get {A} (f : World → A) : Go A := λ w, (Ret (f w), w).
Definition modify (f : World → World) : Go unit := λ w, (Ret tt, f w).

(** [*p] for a pointer to a logger struct. *)
Definition deref_logger (p : ptr) : Go ZapLogger :=
  λ w, match loggers w !! p with
       | Some L => (Ret L, w)
       | None => (Panics nil_dereference, w)
       end.

Definition deref_sugar (p : ptr) : Go ptr :=
  λ w, match sugars w !! p with
       | Some b => (Ret b, w)
       | None => (Panics nil_dereference, w)
       end.

(** [&T{...}]: a fresh cell at the end of the heap. *)
Definition new_logger (L : ZapLogger) : Go ptr :=
  λ w, (Ret (length (loggers w)), set_loggers (loggers w ++ [L]) w).

Definition new_sugar (base : ptr) : Go ptr :=
  λ w, (Ret (length (sugars w)), set_sugars (sugars w ++ [base]) w).

(** ** The backend: package [zap]

    The package under verification forwards to [go.uber.org/zap].  The part
    of zap its calls reach is modelled here: field constructors, [Config]
    and [Build], [With], [Sugar], the sugared argument parser, and the path
    of a record through level check, sampler and core. *)
Module zap.
Import zapcore.

Inductive result (A : Type) : Type :=
  | Ok (a : A)
  | Err (msg : string).
Arguments Ok {A} a.
Arguments Err {A} msg.

Record SamplingConfig : Type := mkSamplingConfig {
  Initial : Z;
  Thereafter : Z
}.

(** [zap.Config].  [Level] is an [AtomicLevel]: a pointer to the shared
    threshold, [None] for the zero value. *)
Record Config : Type := mkConfig {
  Level : option ptr;
  Development : bool;
  DisableCaller : bool;
  DisableStacktrace : bool;
  Sampling : option SamplingConfig;
  Encoding : string;
  EncoderConfig : zapcore.EncoderConfig;
  OutputPaths : list string;
  ErrorOutputPaths : list string;
  InitialFields : list (string * any)
}.

(** Field constructors. *)
Definition String (key val : string) : Field := mkField key (FString val).
Definition Bool (key : string) (val : bool) : Field := mkField key (FBool val).
Definition Int (key : string) (val : Z) : Field := mkField key (FInt val).
Definition NamedError (key msg : string) : Field := mkField key (FError msg).
Definition Error (msg : string) : Field := NamedError "error" msg.
Definition Strings (key : string) (val : list string) : Field :=
  mkField key (FStrings val).
Definition nilField (key : string) : Field := mkField key FReflectNil.

(** [zap.Stringp(key, val)] with [val : *string]. *)
Definition Stringp (key : string) (val : option string) : Field :=
  match val with
  | None => nilField key
  | Some s => String key s
  end.

(** [zap.Any(key, value)] on the modelled dynamic types. *)
Definition Any (key : string) (value : any) : Field :=
  match value with
  | VNil => nilField key
  | VString s => String key s
  | VBool b => Bool key b
  | VInt z => Int key z
  | VError msg => NamedError key msg
  end.

(** [zap.NewAtomicLevelAt(l)]. *)
Definition NewAtomicLevelAt (l : zapcore.Level) : Go ptr :=
  λ w, (Ret (length (atoms w)), set_atoms (atoms w ++ [l]) w).

(** The two sink names zap opens without touching the file system.  Any
    other path is a file to open; files are outside the model, and
    opening one is reported as the error [Build] returns. *)
Definition openSink (path : string) : result Sink :=
  if decide (path = "stdout") then Ok Stdout
  else if decide (path = "stderr") then Ok Stderr
  else Err ("open sink " +:+ path).

Fixpoint Open (paths : list string) : result (list Sink) :=
  match paths with
  | [] => Ok []
  | p :: ps =>
      match openSink p with
      | Err e => Err e
      | Ok s =>
          match Open ps with
          | Err e => Err e
          | Ok ss => Ok (s :: ss)
          end
      end
  end.

(** [newEncoder(name, encoderConfig)]: only the checks. *)
Definition newEncoder (name : string) (enc : zapcore.EncoderConfig)
  : result zapcore.EncoderConfig :=
  if negb (bool_decide (TimeKey enc = ""))
     && bool_decide (EncodeTime enc = None)
  then Err "missing EncodeTime in EncoderConfig"
  else if decide (name = "") then Err "no encoder name specified"
  else if decide (name = "json") then Ok enc
  else if decide (name = "console") then Ok enc
  else Err ("no encoder registered for name " +:+ name).

Definition tick : Z := 1000000000.

(** [cfg.Build()]: build the encoder, open the sinks, require a level,
    then assemble the logger from the options [buildOptions] derives. *)
Definition Build (cfg : Config) : Go (result ptr) :=
  match newEncoder (Encoding cfg) (EncoderConfig cfg) with
  | Err e => mret (Err e)
  | Ok enc =>
      match Open (OutputPaths cfg) with
      | Err e => mret (Err e)
      | Ok sink =>
          match Open (ErrorOutputPaths cfg) with
          | Err e => mret (Err e)
          | Ok errSink =>
              match Level cfg with
              | None => mret (Err "missing Level")
              | Some atom =>
                  sampler ←
                    match Sampling cfg with
                    | None => mret None
                    | Some scfg =>
                        counts ← get (λ w, length (samplers w));
                        modify (λ w, set_samplers (samplers w ++ [∅]) w);;
                        mret (Some (mkSampler counts (Initial scfg)
                                      (Thereafter scfg)))
                    end;
                  l ← new_logger
                        {| core_level := atom;
                           core_enc := enc;
                           core_fields :=
                             map (λ kv, Any kv.1 kv.2) (InitialFields cfg);
                           core_out := sink;
                           core_sampler := sampler;
                           errorOutput := errSink;
                           development := Development cfg;
                           addCaller := negb (DisableCaller cfg);
                           addStack :=
                             if DisableStacktrace cfg then None
                             else Some (if Development cfg then WarnLevel
                                        else ErrorLevel);
                           callerSkip := 0 |};
                  mret (Ok l)
              end
          end
      end
  end.

(** [core.With(fields)] under [log.clone()]: the context grows at its
    end; the level, the sinks and the sampler's counters stay shared. *)
Definition with_fields (L : ZapLogger) (fields : list Field) : ZapLogger :=
  {| core_level := core_level L;
     core_enc := core_enc L;
     core_fields := core_fields L ++ fields;
     core_out := core_out L;
     core_sampler := core_sampler L;
     errorOutput := errorOutput L;
     development := development L;
     addCaller := addCaller L;
     addStack := addStack L;
     callerSkip := callerSkip L |}.

(** [Logger.With(fields...)] on a [*Logger]. *)
Definition Logger_With (log : ptr) (fields : list Field) : Go ptr :=
  match fields with
  | [] => mret log
  | _ => L ← deref_logger log; new_logger (with_fields L fields)
  end.

Definition add_callerSkip (L : ZapLogger) (n : Z) : ZapLogger :=
  {| core_level := core_level L;
     core_enc := core_enc L;
     core_fields := core_fields L;
     core_out := core_out L;
     core_sampler := core_sampler L;
     errorOutput := errorOutput L;
     development := development L;
     addCaller := addCaller L;
     addStack := addStack L;
     callerSkip := (callerSkip L + n)%Z |}.

(** [Logger.Sugar()]: a [*SugaredLogger] over a clone of the logger. *)
Definition Sugar (log : ptr) : Go ptr :=
  L ← deref_logger log;
  core ← new_logger (add_callerSkip L 2);
  new_sugar core.

(** [core.Enabled(lvl)]: read the shared threshold. *)
Definition core_Enabled (L : ZapLogger) (lvl : zapcore.Level) : Go bool :=
  λ w, match atoms w !! core_level L with
       | Some threshold => (Ret (Enabled threshold lvl), w)
       | None => (Panics nil_dereference, w)
       end.

(** [sampler.Check] once the level is enabled: bump the counter of the
    record's level and message, and let the record through or drop it. *)
Definition sampler_Check (s : Sampler) (lvl : zapcore.Level) (msg : string)
  : Go bool :=
  λ w, match samplers w !! s_counts s with
       | None => (Panics nil_dereference, w)
       | Some counts =>
           let k := counter_key lvl msg in
           let c := IncCheckReset (default (mkCounter 0 0) (counts !! k))
                      (now w) tick in
           (Ret (sampled (s_first s) (s_thereafter s) (c_n c)),
            set_samplers (<[s_counts s := <[k := c]> counts]> (samplers w)) w)
       end.

(** [core.Check]: does a core take the record? *)
Definition core_Check (L : ZapLogger) (lvl : zapcore.Level) (msg : string)
  : Go bool :=
  enabled ← core_Enabled L lvl;
  if (enabled : bool)
  then match core_sampler L with
       | None => mret true
       | Some s => sampler_Check s lvl msg
       end
  else mret false.

(** [core.Write]: one copy of the record to every output sink. *)
Definition core_Write (L : ZapLogger) (e : Entry) : Go unit :=
  modify (λ w, set_written (written w ++ map (λ s, (s, e)) (core_out L)) w).

(** The action [Logger.check] attaches to the terminal levels. *)
Definition terminal (L : ZapLogger) (lvl : zapcore.Level) : CheckWriteAction :=
  match lvl with
  | PanicLevel => WriteThenPanic
  | FatalLevel => WriteThenFatal
  | DPanicLevel => if development L then WriteThenPanic else WriteThenNoop
  | _ => WriteThenNoop
  end.

(** [log.check(lvl, msg)] followed by [ce.Write(fields...)]: the body
    shared by [Debug], [Info], ..., [Fatal]. *)
Definition Logger_log (L : ZapLogger) (lvl : zapcore.Level) (msg : string)
    (fields : list Field) : Go unit :=
  enabled ← core_Enabled L lvl;
  if bool_decide (level_int lvl < level_int DPanicLevel)%Z && negb (enabled : bool)
  then mret tt
  else
    t ← get now;
    willWrite ← core_Check L lvl msg;
    (if (willWrite : bool)
     then core_Write L (mkEntry t lvl msg (core_fields L ++ fields))
     else mret tt);;
    match terminal L lvl with
    | WriteThenNoop => mret tt
    | WriteThenPanic => panic (VString msg)
    | WriteThenFatal => os_Exit 1
    end.

(** A method of [*Logger] called through a pointer. *)
Definition log (p : ptr) (lvl : zapcore.Level) (msg : string)
    (fields : list Field) : Go unit :=
  L ← deref_logger p; Logger_log L lvl msg fields.

Definition Info (p : ptr) (msg : string) (fields : list Field) : Go unit :=
  log p InfoLevel msg fields.

(** *** The sugared logger *)

(** One element of a sugared [args ...interface{}]: a strongly typed
    [Field], or any other value. *)
Inductive arg : Type :=
  | AField (f : Field)
  | AValue (v : any).

(** [Any(key, a)] for an element in value position; a [Field] there is
    reflected. *)
Definition Any_arg (key : string) (a : arg) : Field :=
  match a with
  | AValue v => Any key v
  | AField f => mkField key (FReflectField (Key f) (Val f))
  end.

Definition _oddNumberErrMsg : string := "Ignored key without a value.".
Definition _nonStringKeyErrMsg : string :=
  "Ignored key-value pairs with non-string keys.".
Definition _multipleErrMsg : string := "Multiple errors without a key.".

(** What one pass of [sweetenFields] over [args] yields: the fields, the
    positions of the pairs whose key is not a string, and the complaints
    raised on the way (message and fields), in order. *)
Record Sweetened : Type := mkSweetened {
  sw_fields : list Field;
  sw_invalid : list Z;
  sw_complaints : list (string * list Field)
}.

(** The loop of [sweetenFields], from position [i]: a [Field] is taken
    as it is; an [error] becomes the field ["error"] once and a complaint
    after that; a last element left alone is dropped with a complaint;
    otherwise two elements are a key and a value. *)
Fixpoint sweeten (i : Z) (seenError : bool) (args : list arg) : Sweetened :=
  match args with
  | [] => mkSweetened [] [] []
  | AField f :: rest =>
      let r := sweeten (i + 1) seenError rest in
      mkSweetened (f :: sw_fields r) (sw_invalid r) (sw_complaints r)
  | AValue (VError e) :: rest =>
      let r := sweeten (i + 1) true rest in
      if seenError
      then mkSweetened (sw_fields r) (sw_invalid r)
             ((_multipleErrMsg, [Error e]) :: sw_complaints r)
      else mkSweetened (Error e :: sw_fields r) (sw_invalid r)
             (sw_complaints r)
  | [AValue v] => mkSweetened [] [] [(_oddNumberErrMsg, [Any "ignored" v])]
  | AValue key :: val :: rest =>
      let r := sweeten (i + 2) seenError rest in
      match as_string key with
      | Some keyStr =>
          mkSweetened (Any_arg keyStr val :: sw_fields r) (sw_invalid r)
            (sw_complaints r)
      | None =>
          mkSweetened (sw_fields r) (i :: sw_invalid r) (sw_complaints r)
      end
  end.

(** [s.sweetenFields(args)]: the fields of [args]; every complaint is
    logged at Error level through the base logger. *)
Definition sweetenFields (base : ptr) (args : list arg) : Go (list Field) :=
  let r := sweeten 0 false args in
  foldr (λ c k, log base ErrorLevel c.1 c.2;; k) (mret tt)
    (sw_complaints r
     ++ match sw_invalid r with
        | [] => []
        | inv => [(_nonStringKeyErrMsg, [mkField "invalid" (FInvalidPairs inv)])]
        end);;
  mret (sw_fields r).

(** [SugaredLogger.With(args...)]. *)
Definition Sugared_With (s : ptr) (args : list arg) : Go ptr :=
  base ← deref_sugar s;
  fields ← sweetenFields base args;
  base' ← Logger_With base fields;
  new_sugar base'.

(** [fmt.Sprintf] for templates in which every [%] starts the verb [%s],
    given no more arguments than the template has verbs. *)
Fixpoint Sprintf (template : string) (args : list any) : string :=
  match template with
  | EmptyString => ""
  | String.String "%"%char (String.String "s"%char rest) =>
      match args with
      | a :: args' => fmt_s a +:+ Sprintf rest args'
      | [] => "%!s(MISSING)" +:+ Sprintf rest []
      end
  | String.String c rest => String.String c (Sprintf rest args)
  end.

(** [getMessage("", fmtArgs)]: the message of the methods without a
    template.  No operand gives the empty message, a single string is the
    message, and anything else goes through [fmt.Sprint]. *)
Definition getMessage (fmtArgs : list operand) : string :=
  match fmtArgs with
  | [] => ""
  | [Value1 (VString str)] => str
  | _ => Sprint fmtArgs
  end.

(** [getMessage(template, fmtArgs)] as the formatting methods call it:
    without arguments the template is the message as it stands; with
    arguments they are formatted into the template, unless the template is
    empty, and then the message is that of the methods without one. *)
Definition getMessagef (template : string) (fmtArgs : list any) : string :=
  match fmtArgs with
  | [] => template
  | _ =>
      if decide (template = "") then getMessage (map Value1 fmtArgs)
      else Sprintf template fmtArgs
  end.

(** [s.log(lvl, template, fmtArgs, nil)]: the body of the formatting
    methods [Debugf], ..., [Fatalf]. *)
Definition Sugared_logf (s : ptr) (lvl : zapcore.Level) (template : string)
    (args : list any) : Go unit :=
  base ← deref_sugar s;
  log base lvl (getMessagef template args) [].

Definition Debugf (s : ptr) (template : string) (args : list any) : Go unit :=
  Sugared_logf s DebugLevel template args.

Definition Fatalf (s : ptr) (template : string) (args : list any) : Go unit :=
  Sugared_logf s FatalLevel template args.

(** [s.log(lvl, "", args, nil)]: the body of [Debug], ..., [Fatal]. *)
Definition Sugared_log (s : ptr) (lvl : zapcore.Level) (args : list operand)
  : Go unit :=
  base ← deref_sugar s;
  log base lvl (getMessage args) [].

Definition Debug (s : ptr) (args : list operand) : Go unit :=
  Sugared_log s DebugLevel args.

Definition Fatal (s : ptr) (args : list operand) : Go unit :=
  Sugared_log s FatalLevel args.

End zap.

(** ** [context.Context]

    A context is the chain of [WithValue] bindings, innermost first;
    [ctx.Value(key)] is the first binding whose key equals [key], and nil
    when there is none. *)
Definition Context : Type := list (any * any).

Fixpoint Value (ctx : Context) (key : any) : any :=
  match ctx with
  | [] => VNil
  | (k, v) :: parent => if decide (k = key) then v else Value parent key
  end.

(** ** Package [logger]: [logger.go] *)

(** Methods of [*CLogger].  A [CLogger] embeds a [zap.Logger] by value, so
    a [*CLogger] is a pointer into [loggers]. *)
Module CLogger.

(** [return &CLogger{*l.Logger.With(zap.Stringp(correlationIdFieldKey, &s))}]
    when [correlationId] is a string, [return l] otherwise. *)
Definition WithCorrelationId (l : ptr) (correlationId : any) : Go ptr :=
  match as_string correlationId with
  | Some s =>
      key ← get correlationIdFieldKey;
      q ← zap.Logger_With l [zap.Stringp key (Some s)];
      L ← deref_logger q;
      new_logger L
  | None => mret l
  end.

Definition WithContextCorrelationId (l : ptr) (ctx : Context) : Go ptr :=
  key ← get correlationIdContextKey;
  WithCorrelationId l (Value ctx (VString key)).

(** [return &CLogger{*l.Logger.With(args...)}]. *)
Definition With (l : ptr) (args : list zapcore.Field) : Go ptr :=
  q ← zap.Logger_With l args;
  L ← deref_logger q;
  new_logger L.

End CLogger.

(** Methods of [*CSugaredLogger].  A [CSugaredLogger] embeds a
    [zap.SugaredLogger], which holds the pointer to its base logger: a
    [*CSugaredLogger] is a pointer into [sugars]. *)
Module CSugaredLogger.

Definition WithCorrelationId (l : ptr) (correlationId : any) : Go ptr :=
  match as_string correlationId with
  | Some s =>
      key ← get correlationIdFieldKey;
      q ← zap.Sugared_With l [zap.AField (zap.Stringp key (Some s))];
      base ← deref_sugar q;
      new_sugar base
  | None => mret l
  end.

Definition WithContextCorrelationId (l : ptr) (ctx : Context) : Go ptr :=
  key ← get correlationIdContextKey;
  WithCorrelationId l (Value ctx (VString key)).

(** [return &CSugaredLogger{*l.SugaredLogger.With(args...)}]. *)
Definition With (l : ptr) (args : list zap.arg) : Go ptr :=
  q ← zap.Sugared_With l args;
  base ← deref_sugar q;
  new_sugar base.

Definition Printf (l : ptr) (format : string) (args : list any) : Go unit :=
  zap.Debugf l format args.

(** [l.Debug(args...)]. *)
Definition Print (l : ptr) (args : list any) : Go unit :=
  zap.Debug l (map Value1 args).

(** [l.Debug(args...)]. *)
Definition Println (l : ptr) (args : list any) : Go unit :=
  zap.Debug l (map Value1 args).

(** [l.Fatal(args)]: the slice goes in as one operand. *)
Definition Fatalln (l : ptr) (args : list any) : Go unit :=
  zap.Fatal l [Slice args].

End CSugaredLogger.

Definition not_initialized : any :=
  VString "logger not initialized. Call Init(ctx)".

(** [SugaredLogger()]. *)
Definition SugaredLogger : Go ptr :=
  lg ← get logger;
  match lg with
  | None => panic not_initialized
  | Some p =>
      l ← zap.Sugar p;
      base ← deref_sugar l;
      new_sugar base
  end.

(** [Logger()]. *)
Definition Logger : Go ptr :=
  lg ← get logger;
  match lg with
  | None => panic not_initialized
  | Some p => mret p
  end.

Definition SetCorrelationIdFieldKey (key : string) : Go unit :=
  if decide (key = "") then mret tt
  else modify (set_correlationIdFieldKey key).

Definition SetCorrelationIdContextKey (key : string) : Go unit :=
  if decide (key = "") then mret tt
  else modify (set_correlationIdContextKey key).

(** The [encoderConfig] each branch of [Init] assigns. *)
Definition encoderConfig (developmentMode : bool) : zapcore.EncoderConfig :=
  if developmentMode
  then {| zapcore.TimeKey := "ts";
          zapcore.LevelKey := "level";
          zapcore.NameKey := "logger";
          zapcore.CallerKey := "caller";
          zapcore.FunctionKey := "func";
          zapcore.MessageKey := "msg";
          zapcore.StacktraceKey := "stacktrace";
          zapcore.LineEnding := zapcore.DefaultLineEnding;
          zapcore.EncodeLevel := Some zapcore.LowercaseLevelEncoder;
          zapcore.EncodeTime := Some zapcore.RFC3339TimeEncoder;
          zapcore.EncodeDuration := Some zapcore.MillisDurationEncoder;
          zapcore.EncodeCaller := Some zapcore.FullCallerEncoder |}
  else {| zapcore.TimeKey := "ts";
          zapcore.LevelKey := "level";
          zapcore.NameKey := "logger";
          zapcore.CallerKey := "caller";
          zapcore.FunctionKey := zapcore.OmitKey;
          zapcore.MessageKey := "msg";
          zapcore.StacktraceKey := "stacktrace";
          zapcore.LineEnding := zapcore.DefaultLineEnding;
          zapcore.EncodeLevel := Some zapcore.LowercaseLevelEncoder;
          zapcore.EncodeTime := Some zapcore.RFC3339TimeEncoder;
          zapcore.EncodeDuration := Some zapcore.MillisDurationEncoder;
          zapcore.EncodeCaller := Some zapcore.ShortCallerEncoder |}.

(** The [zapConfig] each branch of [Init] assigns, around the level atom
    [atom] of that branch. *)
Definition zapConfig (developmentMode : bool) (atom : ptr) : zap.Config :=
  if developmentMode
  then {| zap.Level := Some atom;
          zap.Development := true;
          zap.DisableCaller := false;
          zap.DisableStacktrace := false;
          zap.Sampling := None;
          zap.Encoding := "json";
          zap.EncoderConfig := encoderConfig true;
          zap.OutputPaths := ["stdout"];
          zap.ErrorOutputPaths := ["stdout"];
          zap.InitialFields := [] |}
  else {| zap.Level := Some atom;
          zap.Development := false;
          zap.DisableCaller := false;
          zap.DisableStacktrace := false;
          zap.Sampling := Some {| zap.Initial := 100; zap.Thereafter := 100 |};
          zap.Encoding := "json";
          zap.EncoderConfig := encoderConfig false;
          zap.OutputPaths := ["stdout"];
          zap.ErrorOutputPaths := ["stdout"];
          zap.InitialFields := [] |}.

(** [go func() { mux.Handle("/loglevel", atom); http.ListenAndServe(":53835", mux) }()] *)
Definition serveLogLevel (atom : ptr) : Go unit :=
  modify (λ w, set_goroutines
                 (goroutines w ++ [ListenAndServe ":53835" "/loglevel" atom]) w).

(** [Init(ctx, enableLogLevelEndpoint, developmentMode)]. *)
Definition Init (ctx : Context) (enableLogLevelEndpoint developmentMode : bool)
  : Go unit :=
  lg ← get logger;
  match lg with
  | Some _ => mret tt
  | None =>
      modify (set_correlationIdContextKey "correlation_id");;
      modify (set_correlationIdFieldKey "correlation_id");;
      '(loggerMode, atom) ←
        (if developmentMode
         then atom ← zap.NewAtomicLevelAt zapcore.DebugLevel;
              mret (["dev"], atom)
         else atom ← zap.NewAtomicLevelAt zapcore.InfoLevel;
              mret (["prod"], atom));
      let cfg := zapConfig developmentMode atom in
      loggerMode ←
        (if enableLogLevelEndpoint
         then serveLogLevel atom;; mret (loggerMode ++ ["serveHttp"])
         else mret loggerMode);
      built ← zap.Build cfg;
      match built with
      | zap.Err err =>
          panic (VString (zap.Sprintf "logger initalization error: %s"
                            [VString err]))
      | zap.Ok l =>
          zap.Info l "Logger initialized successfully"
            [zap.Strings "logger_modes" loggerMode];;
          (if enableLogLevelEndpoint
           then zap.Info l "Logger HTTP Server active on :53835/loglevel" []
           else mret tt);;
          L ← deref_logger l;
          p ← new_logger L;
          modify (set_logger (Some p))
      end
  end.

(** ** Package [logger]: [recover.go] *)

(** [PanicLogger()], run as a deferred call.  [r] is what [recover()]
    returns there, nil when no panic is in flight, and [stack] is the text
    of [debug.Stack()]. *)
Definition PanicLogger (r : any) (stack : string) : Go unit :=
  if decide (r = VNil) then mret tt
  else
    s ← SugaredLogger;
    log ← CSugaredLogger.With s
            [zap.AValue (VString "op"); zap.AValue (VString "panic_logger")];
    zap.Fatalf log "panic: %s stack: %s" [r; VString stack].

(** ** Sequences of [With] calls

    [l.With(a1...).With(a2...)...]: each call on the handle the previous
    one returned.  The result lists every handle returned, in order. *)
Fixpoint With_seq (With : ptr → list zapcore.Field → Go ptr) (l : ptr)
    (calls : list (list zapcore.Field)) : Go (list ptr) :=
  match calls with
  | [] => mret []
  | args :: rest =>
      h ← With l args;
      hs ← With_seq With h rest;
      mret (h :: hs)
  end.

Fixpoint Sugared_With_seq (l : ptr) (calls : list (list zap.arg))
  : Go (list ptr) :=
  match calls with
  | [] => mret []
  | args :: rest =>
      h ← CSugaredLogger.With l args;
      hs ← Sugared_With_seq h rest;
      mret (h :: hs)
  end.

(** [n] calls of [Info] in a row, through the same handle and with the
    same message and fields. *)
Fixpoint Info_times (n : nat) (l : ptr) (msg : string)
    (fields : list zapcore.Field) : Go unit :=
  match n with
  | 0 => mret tt
  | S n => zap.Info l msg fields;; Info_times n l msg fields
  end.

(** ** The earlier revision of [logger.go]

    [src/logger.go] is [logger.go] before the correlation keys became
    configurable: [Init] reads its two switches from the context, and the
    correlation field is always ["correlation_id"].  The accessors are the
    same in both revisions. *)
Module Rev0.

Module CLogger.

(** [return &CLogger{*l.With(zap.Stringp("correlation_id", &s))}]. *)
Definition WithCorrelationId (l : ptr) (correlationId : any) : Go ptr :=
  match as_string correlationId with
  | Some s =>
      q ← zap.Logger_With l [zap.Stringp "correlation_id" (Some s)];
      L ← deref_logger q;
      new_logger L
  | None => mret l
  end.

End CLogger.

Module CSugaredLogger.

Definition WithCorrelationId (l : ptr) (correlationId : any) : Go ptr :=
  match as_string correlationId with
  | Some s =>
      q ← zap.Sugared_With l
            [zap.AField (zap.Stringp "correlation_id" (Some s))];
      base ← deref_sugar q;
      new_sugar base
  | None => mret l
  end.

End CSugaredLogger.

(** [v, ok := ctx.Value(key).(bool); ok && v]. *)
Definition flag (ctx : Context) (key : string) : bool :=
  match as_bool (Value ctx (VString key)) with
  | Some b => b
  | None => false
  end.

(** [Init(ctx)].  The [lsh] tested before the second record is the
    variable declared at the top of the function, which nothing assigns:
    the [if] that reads the context declares an [lsh] of its own. *)
Definition Init (ctx : Context) : Go unit :=
  lg ← get logger;
  match lg with
  | Some _ => mret tt
  | None =>
      let lsh := false in
      let devEnv := flag ctx "env_development" in
      '(loggerMode, atom) ←
        (if devEnv
         then atom ← zap.NewAtomicLevelAt zapcore.DebugLevel;
              mret (["dev"], atom)
         else atom ← zap.NewAtomicLevelAt zapcore.InfoLevel;
              mret (["prod"], atom));
      let cfg := zapConfig devEnv atom in
      loggerMode ←
        (if flag ctx "logger_serveHttp"
         then serveLogLevel atom;; mret (loggerMode ++ ["serveHttp"])
         else mret loggerMode);
      built ← zap.Build cfg;
      match built with
      | zap.Err err =>
          panic (VString (zap.Sprintf "logger initalization error: %s"
                            [VString err]))
      | zap.Ok l =>
          zap.Info l "Logger initialized successfully"
            [zap.Strings "logger_modes" loggerMode];;
          (if lsh : bool
           then zap.Info l "Logger HTTP Server active on :53835/loglevel" []
           else mret tt);;
          L ← deref_logger l;
          p ← new_logger L;
          modify (set_logger (Some p))
      end
  end.

End Rev0.

(** ** A running process

    What can happen to the state between two observations: a call into
    the package or into the zap methods the handles promote, the clock
    moving, or a request served by the level endpoint. *)
Global Instance Goroutine_eq_dec : EqDecision Goroutine.
Proof. solve_decision. Defined.

Inductive Call : Type :=
  | CallInit (ctx : Context) (enableLogLevelEndpoint developmentMode : bool)
  | CallSetCorrelationIdFieldKey (key : string)
  | CallSetCorrelationIdContextKey (key : string)
  | CallLogger
  | CallSugaredLogger
  | CallWith (l : ptr) (args : list zapcore.Field)
  | CallWithCorrelationId (l : ptr) (correlationId : any)
  | CallWithContextCorrelationId (l : ptr) (ctx : Context)
  | CallSugaredWith (l : ptr) (args : list zap.arg)
  | CallSugaredWithCorrelationId (l : ptr) (correlationId : any)
  | CallSugaredWithContextCorrelationId (l : ptr) (ctx : Context)
  | CallLog (l : ptr) (lvl : zapcore.Level) (msg : string)
      (fields : list zapcore.Field)
  | CallLogf (l : ptr) (lvl : zapcore.Level) (template : string)
      (args : list any)
  | CallPanicLogger (r : any) (stack : string)
  | Tick (dt : Z)
  | PutLogLevel (atom : ptr) (lvl : zapcore.Level).

Definition discard {A} (c : Go A) : Go unit := c ≫= λ _, mret tt.

(** A [PUT /loglevel] reaches the atom only through a listener spawned
    for it. *)
Definition serve_PutLogLevel (atom : ptr) (lvl : zapcore.Level) : Go unit :=
  λ w, if bool_decide (ListenAndServe ":53835" "/loglevel" atom ∈ goroutines w)
       then (Ret tt, set_atoms (<[atom := lvl]> (atoms w)) w)
       else (Ret tt, w).

Definition exec (c : Call) : Go unit :=
  match c with
  | CallInit ctx e d => Init ctx e d
  | CallSetCorrelationIdFieldKey key => SetCorrelationIdFieldKey key
  | CallSetCorrelationIdContextKey key => SetCorrelationIdContextKey key
  | CallLogger => discard Logger
  | CallSugaredLogger => discard SugaredLogger
  | CallWith l args => discard (CLogger.With l args)
  | CallWithCorrelationId l v => discard (CLogger.WithCorrelationId l v)
  | CallWithContextCorrelationId l ctx =>
      discard (CLogger.WithContextCorrelationId l ctx)
  | CallSugaredWith l args => discard (CSugaredLogger.With l args)
  | CallSugaredWithCorrelationId l v =>
      discard (CSugaredLogger.WithCorrelationId l v)
  | CallSugaredWithContextCorrelationId l ctx =>
      discard (CSugaredLogger.WithContextCorrelationId l ctx)
  | CallLog l lvl msg fields => zap.log l lvl msg fields
  | CallLogf l lvl template args => zap.Sugared_logf l lvl template args
  | CallPanicLogger r stack => PanicLogger r stack
  | Tick dt => modify (λ w, set_now (now w + dt)%Z w)
  | PutLogLevel atom lvl => serve_PutLogLevel atom lvl
  end.

(** The states a process goes through: from [start], by steps that do not
    terminate it. *)
Inductive reachable : World → Prop :=
  | reachable_start t0 : reachable (start t0)
  | reachable_step w c o w' :
      reachable w →
      exec c w = (o, w') →
      (∀ code, o ≠ Exits code) →
      reachable w'.

(** * Specifications *)

(** The outcome a terminal action leaves. *)
Definition after_write (a : CheckWriteAction) (msg : string) : Outcome unit :=
  match a with
  | WriteThenNoop => Ret tt
  | WriteThenPanic => Panics (VString msg)
  | WriteThenFatal => Exits 1
  end.

(** The copies of one record that reach the sinks of [L]. *)
Definition record (L : ZapLogger) (lvl : zapcore.Level) (msg : string)
    (fs : list zapcore.Field) (t : Z) : list (Sink * zapcore.Entry) :=
  map (λ s, (s, zapcore.mkEntry t lvl msg (core_fields L ++ fs))) (core_out L).

(** The counter of [(lvl, msg)] after one more record. *)
Definition bumped (counts : gmap (Z * Z) zapcore.counter)
    (lvl : zapcore.Level) (msg : string) (t : Z) : zapcore.counter :=
  zapcore.IncCheckReset
    (default (zapcore.mkCounter 0 0) (counts !! zapcore.counter_key lvl msg))
    t zap.tick.

(** The level each mode starts at. *)
Definition initialLevel (developmentMode : bool) : zapcore.Level :=
  if developmentMode then zapcore.DebugLevel else zapcore.InfoLevel.

(** The logger [Build] assembles from the configuration of each mode. *)
Definition builtLogger (developmentMode : bool) (atom counts : ptr) : ZapLogger :=
  {| core_level := atom;
     core_enc := encoderConfig developmentMode;
     core_fields := [];
     core_out := [Stdout];
     core_sampler :=
       if developmentMode then None else Some (mkSampler counts 100 100);
     errorOutput := [Stdout];
     development := developmentMode;
     addCaller := true;
     addStack :=
       Some (if developmentMode then zapcore.WarnLevel else zapcore.ErrorLevel);
     callerSkip := 0 |}.

Definition initialized_msg : string := "Logger initialized successfully".
Definition http_active_msg : string :=
  "Logger HTTP Server active on :53835/loglevel".

(** The modes the first record lists. *)
Definition loggerMode (enableLogLevelEndpoint developmentMode : bool)
  : list string :=
  [if developmentMode then "dev" else "prod"]
  ++ (if enableLogLevelEndpoint then ["serveHttp"] else []).

(** The records a first [Init] writes at instant [t]. *)
Definition init_records (e d : bool) (t : Z) : list (Sink * zapcore.Entry) :=
  (Stdout, zapcore.mkEntry t zapcore.InfoLevel initialized_msg
             [zap.Strings "logger_modes" (loggerMode e d)])
  :: (if e
      then [(Stdout, zapcore.mkEntry t zapcore.InfoLevel http_active_msg [])]
      else []).

(** What a first [Init] leaves: [w'] in terms of the state [w] it ran in. *)
Record initialized (e d : bool) (w w' : World) : Prop := {
  init_logger : logger w' = Some (S (length (loggers w)));
  init_contextKey : correlationIdContextKey w' = "correlation_id";
  init_fieldKey : correlationIdFieldKey w' = "correlation_id";
  init_loggers :
    loggers w' =
    loggers w ++ [builtLogger d (length (atoms w)) (length (samplers w));
                  builtLogger d (length (atoms w)) (length (samplers w))];
  init_sugars : sugars w' = sugars w;
  init_atoms : atoms w' = atoms w ++ [initialLevel d];
  init_samplers :
    if d then samplers w' = samplers w
    else ∃ counts, samplers w' = samplers w ++ [counts]
                   ∧ ∀ k, is_Some (counts !! k) → k.1 = 1%Z;
  init_written : written w' = written w ++ init_records e d (now w);
  init_goroutines :
    goroutines w' =
    goroutines w
    ++ (if e then [ListenAndServe ":53835" "/loglevel" (length (atoms w))]
        else []);
  init_now : now w' = now w
}.

(** Counter tables that hold Info counters only, none above [b]. *)
Definition info_below (b : Z) (counts : gmap (Z * Z) zapcore.counter) : Prop :=
  ∀ k c, counts !! k = Some c → (zapcore.c_n c ≤ b)%Z ∧ k.1 = 1%Z.

(** The Info records among those written. *)
Definition info_records (t : list (Sink * zapcore.Entry))
  : list (Sink * zapcore.Entry) :=
  filter (λ r, zapcore.e_level r.2 = zapcore.InfoLevel) t.

(** ** Well-formed states *)

(** A logger value whose pointers are live and which writes to standard
    output. *)
Definition logger_ok (w : World) (L : ZapLogger) : Prop :=
  core_level L < length (atoms w)
  ∧ core_out L = [Stdout]
  ∧ match core_sampler L with
    | None => True
    | Some s => s_counts s < length (samplers w) ∧ (0 < s_first s)%Z
    end.

(** No record of level Fatal was counted: such a record ends the process. *)
Definition no_fatal (counts : gmap (Z * Z) zapcore.counter) : Prop :=
  ∀ j, counts !! (6%Z, j) = None.

Record sound (w : World) : Prop := {
  sound_logger : ∀ p, logger w = Some p → p < length (loggers w);
  sound_loggers : ∀ p L, loggers w !! p = Some L → logger_ok w L;
  sound_sugars : ∀ s b, sugars w !! s = Some b → b < length (loggers w);
  sound_samplers : ∀ i counts, samplers w !! i = Some counts → no_fatal counts
}.

(** [hoare P c Q]: from a state in [P], if [c] returns [a] the state is in
    [Q a]; if it panics the state is still sound. *)
Definition hoare {A} (P : World → Prop) (c : Go A) (Q : A → World → Prop)
  : Prop :=
  ∀ w, P w →
    match c w with
    | (Ret a, w') => Q a w'
    | (Panics _, w') => sound w'
    | (Exits _, _) => True
    end.

(** [w'] is [w] after some records were counted and written: nothing else
    differs. *)
Record logged (w w' : World) : Prop := {
  logged_logger : logger w' = logger w;
  logged_contextKey : correlationIdContextKey w' = correlationIdContextKey w;
  logged_fieldKey : correlationIdFieldKey w' = correlationIdFieldKey w;
  logged_loggers : loggers w' = loggers w;
  logged_sugars : sugars w' = sugars w;
  logged_atoms : atoms w' = atoms w;
  logged_samplers : length (samplers w') = length (samplers w);
  logged_written : written w `prefix_of` written w';
  logged_goroutines : goroutines w' = goroutines w;
  logged_now : now w' = now w
}.

(** ** Reading a record back

    The value a reader of the JSON object finds under [key] when a key
    written twice keeps its last value. *)
Fixpoint last_value (fields : list zapcore.Field) (key : string)
  : option zapcore.FieldValue :=
  match fields with
  | [] => None
  | f :: rest =>
      match last_value rest key with
      | Some v => Some v
      | None => if decide (zapcore.Key f = key) then Some (zapcore.Val f)
                else None
      end
  end.

(** The fields the sugared [With] attaches for [args]. *)
Definition sweet (args : list zap.arg) : list zapcore.Field :=
  zap.sw_fields (zap.sweeten 0 false args).

(** Arguments [sweetenFields] has nothing to complain about. *)
Definition quiet (args : list zap.arg) : Prop :=
  zap.sw_complaints (zap.sweeten 0 false args) = []
  ∧ zap.sw_invalid (zap.sweeten 0 false args) = [].

(** [w'] is [w] with more handles allocated and, possibly, more records
    counted and written: the package variables, the existing cells, the
    level atoms, the goroutines and the clock are those of [w]. *)
Record extended (w w' : World) : Prop := {
  ext_logger : logger w' = logger w;
  ext_contextKey : correlationIdContextKey w' = correlationIdContextKey w;
  ext_fieldKey : correlationIdFieldKey w' = correlationIdFieldKey w;
  ext_loggers : loggers w `prefix_of` loggers w';
  ext_sugars : sugars w `prefix_of` sugars w';
  ext_atoms : atoms w' = atoms w;
  ext_samplers : length (samplers w') = length (samplers w);
  ext_written : written w `prefix_of` written w';
  ext_goroutines : goroutines w' = goroutines w;
  ext_now : now w' = now w
}.

(** The fields of a handle that started from [base] and went through the
    calls [added]: all of them, in the order they were attached; a reader
    finds under each key the value attached last. *)
Record accumulated (base : list zapcore.Field)
    (added : list (list zapcore.Field)) (fields : list zapcore.Field)
  : Prop := {
  acc_fields : fields = base ++ concat added;
  acc_base : ∀ f, f ∈ base → f ∈ fields;
  acc_added : ∀ args f, args ∈ added → f ∈ args → f ∈ fields;
  acc_last :
    ∀ key, last_value fields key =
           match last_value (concat added) key with
           | Some v => Some v
           | None => last_value base key
           end
}.

(** ** Example processes *)

(** A process after [Init(ctx, false, true)]: development mode. *)
Definition example_dev : World := (Init [] false true (start 0)).2.

(** A process after [Init(ctx, true, false)]: production mode with the
    level endpoint. *)
Definition example_prod : World := (Init [] true false (start 0)).2.

(** The development process after one call of [SugaredLogger()]. *)
Definition example_sugared : World := (SugaredLogger example_dev).2.

(** The production process after one call of [SugaredLogger()]. *)
Definition example_prod_sugared : World := (SugaredLogger example_prod).2.

(** ** What the calls on handles keep *)

(** Every logger value on the heap satisfies [good]. *)
Definition heap_good (good : ZapLogger → Prop) (w : World) : Prop :=
  ∀ p L, loggers w !! p = Some L → good L.

(** [w'] is [w] after calls that only allocate handles and write
    records: the package variables, the level atoms, the goroutines and
    the clock are those of [w], the new records went to sinks in
    [sink_ok], and the heap is still [good]. *)
Record kept (good : ZapLogger → Prop) (sink_ok : Sink → Prop)
    (w w' : World) : Prop := {
  kept_logger : logger w' = logger w;
  kept_contextKey : correlationIdContextKey w' = correlationIdContextKey w;
  kept_fieldKey : correlationIdFieldKey w' = correlationIdFieldKey w;
  kept_atoms : atoms w' = atoms w;
  kept_samplers : length (samplers w') = length (samplers w);
  kept_goroutines : goroutines w' = goroutines w;
  kept_now : now w' = now w;
  kept_written :
    ∃ rs, written w' = written w ++ rs ∧ ∀ r, r ∈ rs → sink_ok r.1;
  kept_heap : heap_good good w'
}.

(** [c] keeps the above from every [good] heap, and what it returns
    satisfies [Q]. *)
Definition keeps (good : ZapLogger → Prop) (sink_ok : Sink → Prop) {A}
    (c : Go A) (Q : A → Prop) : Prop :=
  ∀ w, heap_good good w →
    kept good sink_ok w (c w).2 ∧ ∀ a, (c w).1 = Ret a → Q a.

(** The calls that go through handles and accessors. *)
Definition on_handles (c : Call) : Prop :=
  match c with
  | CallInit _ _ _ | CallSetCorrelationIdFieldKey _
  | CallSetCorrelationIdContextKey _ | Tick _ | PutLogLevel _ _ => False
  | _ => True
  end.

Global Instance on_handles_dec c : Decision (on_handles c).
Proof. destruct c; apply _. Defined.

(** [L] is [B] up to its fields and its caller skip. *)
Definition same_core (B L : ZapLogger) : Prop :=
  core_level L = core_level B
  ∧ core_enc L = core_enc B
  ∧ core_out L = core_out B
  ∧ core_sampler L = core_sampler B
  ∧ errorOutput L = errorOutput B
  ∧ development L = development B
  ∧ addCaller L = addCaller B
  ∧ addStack L = addStack B.

(** The goroutine [Init] spawns in a process that had no level atom. *)
Definition listener : Goroutine := ListenAndServe ":53835" "/loglevel" 0.

(** The two shapes of a process: before [Init], nothing exists; after it,
    there is one level atom, every logger on the heap is the one [Init]
    built up to fields and caller skip, the only goroutine is the
    listener, if it was asked for, and every record went to standard
    output. *)
Inductive shape (w : World) : Prop :=
  | shape_fresh :
      logger w = None →
      loggers w = [] →
      atoms w = [] →
      samplers w = [] →
      goroutines w = [] →
      written w = [] →
      shape w
  | shape_running (p : ptr) (e d : bool) :
      logger w = Some p →
      length (atoms w) = 1 →
      length (samplers w) = (if d then 0 else 1) →
      heap_good (same_core (builtLogger d 0 0)) w →
      goroutines w = (if e then [listener] else []) →
      (e = false → atoms w = [initialLevel d]) →
      (∀ r, r ∈ written w → r.1 = Stdout) →
      shape w.

(** A process after [Init(ctx, true, true)]: development mode with the
    level endpoint. *)
Definition example_http : World := (Init [] true true (start 0)).2.

(** How many of [n] identical records of one tick the sampler of
    production mode lets through: the first hundred, then every
    hundredth. *)
Definition passed (n : nat) : nat := min n 100 + (n - 100) / 100.

(** The arguments of a sugared [With] given as keys and values,
    [With(k1, v1, k2, v2, ...)], and the fields the backend makes of
    them: [zap.Any(k, v)] for each pair, in order. *)
Definition key_values (kvs : list (string * any)) : list zap.arg :=
  flat_map (λ kv, [zap.AValue (VString kv.1); zap.AValue kv.2]) kvs.

Definition any_fields (kvs : list (string * any)) : list zapcore.Field :=
  map (λ kv, zap.Any kv.1 kv.2) kvs.

(** * Running the model *)

Lemma run_bind {A B} (c : Go A) (k : A → Go B) (w : World) :
  (c ≫= k) w = match c w with
               | (Ret a, w') => k a w'
               | (Panics v, w') => (Panics v, w')
               | (Exits n, w') => (Exits n, w')
               end.
Proof. reflexivity. Qed.

(** One step of a sequence of calls: expose the first call, and reduce it
    when it is a primitive of the monad. *)
Ltac go1 :=
  rewrite ?run_bind;
  cbn [get modify mret Go_ret go_ret panic os_Exit new_logger new_sugar
       set_logger set_correlationIdContextKey set_correlationIdFieldKey
       set_loggers set_sugars set_atoms set_samplers set_written
       set_goroutines set_now
       logger correlationIdContextKey correlationIdFieldKey loggers sugars
       atoms samplers written goroutines now].
Ltac go := repeat (progress go1).

Lemma lookup_snoc {A} (l : list A) (x : A) : (l ++ [x]) !! length l = Some x.
Proof. by rewrite list_lookup_middle. Qed.

Lemma insert_snoc {A} (l : list A) (x y : A) :
  <[length l := y]> (l ++ [x]) = l ++ [y].
Proof. rewrite insert_app_r_alt; [|lia]. by rewrite Nat.sub_diag. Qed.


Lemma deref_logger_Some p L w :
  loggers w !! p = Some L → deref_logger p w = (Ret L, w).
Proof. intros H. unfold deref_logger. by rewrite H. Qed.

Lemma deref_sugar_Some p b w :
  sugars w !! p = Some b → deref_sugar p w = (Ret b, w).
Proof. intros H. unfold deref_sugar. by rewrite H. Qed.




Section log.
Context (p : ptr) (L : ZapLogger) (lvl : zapcore.Level) (msg : string)
        (fs : list zapcore.Field) (threshold : zapcore.Level) (w : World).
Hypothesis Hp : loggers w !! p = Some L.
Hypothesis Ha : atoms w !! core_level L = Some threshold.

(** A record below the threshold: dropped, unless its level is terminal,
    and then only the terminal action is left. *)
Lemma log_disabled :
  zapcore.Enabled threshold lvl = false →
  zap.log p lvl msg fs w =
  (if bool_decide (zapcore.level_int lvl < 3)%Z then Ret tt
   else after_write (zap.terminal L lvl) msg, w).
Proof.
  intros Hen. unfold zap.log. go. rewrite (deref_logger_Some _ _ _ Hp).
  unfold zap.Logger_log. go. unfold zap.core_Enabled at 1.
  rewrite Ha, Hen. cbn [negb zapcore.level_int]. rewrite andb_true_r.
  case_bool_decide; [reflexivity|].
  go. unfold zap.core_Check. go. unfold zap.core_Enabled. rewrite Ha, Hen.
  go. by destruct (zap.terminal L lvl).
Qed.

(** An enabled record on a core without sampler: written. *)
Lemma log_unsampled :
  zapcore.Enabled threshold lvl = true →
  core_sampler L = None →
  zap.log p lvl msg fs w =
  (after_write (zap.terminal L lvl) msg,
   set_written (written w ++ record L lvl msg fs (now w)) w).
Proof.
  intros Hen Hs. unfold zap.log. go. rewrite (deref_logger_Some _ _ _ Hp).
  unfold zap.Logger_log. go. unfold zap.core_Enabled at 1.
  rewrite Ha, Hen, andb_false_r. go.
  unfold zap.core_Check. go. unfold zap.core_Enabled. rewrite Ha, Hen, Hs.
  go. unfold zap.core_Write. go. by destruct (zap.terminal L lvl).
Qed.

(** An enabled record on a sampled core: counted, then written or
    dropped on the sampler's verdict. *)
Lemma log_sampled s counts :
  zapcore.Enabled threshold lvl = true →
  core_sampler L = Some s →
  samplers w !! s_counts s = Some counts →
  let c := bumped counts lvl msg (now w) in
  let w1 := set_samplers
              (<[s_counts s := <[zapcore.counter_key lvl msg := c]> counts]>
                 (samplers w)) w in
  zap.log p lvl msg fs w =
  (after_write (zap.terminal L lvl) msg,
   if zapcore.sampled (s_first s) (s_thereafter s) (zapcore.c_n c)
   then set_written (written w ++ record L lvl msg fs (now w)) w1
   else w1).
Proof.
  intros Hen Hs Hc. unfold zap.log. go. rewrite (deref_logger_Some _ _ _ Hp).
  unfold zap.Logger_log. go. unfold zap.core_Enabled at 1.
  rewrite Ha, Hen, andb_false_r. go.
  unfold zap.core_Check. go. unfold zap.core_Enabled. rewrite Ha, Hen, Hs.
  unfold zap.sampler_Check. rewrite Hc. fold (bumped counts lvl msg (now w)).
  destruct (zapcore.sampled _ _ _); go;
    [unfold zap.core_Write; go|]; by destruct (zap.terminal L lvl).
Qed.
End log.

(** The first records of a tick pass the sampler. *)
Lemma sampled_first (first thereafter n : Z) :
  (n ≤ first)%Z → zapcore.sampled first thereafter n = true.
Proof.
  intros H. unfold zapcore.sampled. rewrite bool_decide_eq_false_2; [done|lia].
Qed.

Lemma bumped_n counts lvl msg t :
  zapcore.c_n (bumped counts lvl msg t) = 1%Z ∨
  zapcore.c_n (bumped counts lvl msg t) =
  (zapcore.c_n (default (zapcore.mkCounter 0 0)
                  (counts !! zapcore.counter_key lvl msg)) + 1)%Z.
Proof.
  unfold bumped, zapcore.IncCheckReset. case_bool_decide; cbn; auto.
Qed.


(** * [Init] *)


Lemma Build_zapConfig d a w :
  zap.Build (zapConfig d a) w =
  (Ret (zap.Ok (length (loggers w))),
   set_loggers (loggers w ++ [builtLogger d a (length (samplers w))])
     (if d then w else set_samplers (samplers w ++ [∅]) w)).
Proof. destruct d; reflexivity. Qed.





Lemma bumped_le counts lvl msg t (b : Z) :
  (0 ≤ b)%Z →
  (∀ k c, counts !! k = Some c → (zapcore.c_n c ≤ b)%Z) →
  (zapcore.c_n (bumped counts lvl msg t) ≤ b + 1)%Z.
Proof.
  intros Hb H. destruct (bumped_n counts lvl msg t) as [-> | ->]; [lia|].
  destruct (counts !! zapcore.counter_key lvl msg) as [c|] eqn:E; cbn.
  - apply H in E. lia.
  - lia.
Qed.


Lemma info_below_bumped b counts msg t :
  (0 ≤ b)%Z →
  info_below b counts →
  info_below (b + 1)
    (<[zapcore.counter_key zapcore.InfoLevel msg :=
         bumped counts zapcore.InfoLevel msg t]> counts).
Proof.
  intros Hb Hsmall k c. rewrite lookup_insert. case_decide as Hk.
  - intros [= <-]. subst k. split; [|reflexivity].
    apply bumped_le; [lia|]. intros k c Hk. by destruct (Hsmall _ _ Hk).
  - intros Hk'. apply Hsmall in Hk'. split; [lia|tauto].
Qed.

(** An Info record through the sampler of a logger whose counters are all
    below the sampler's first limit: counted and written. *)
Lemma Info_sampled_below p L t s w msg fs (b : Z) counts :
  loggers w !! p = Some L →
  atoms w !! core_level L = Some t →
  zapcore.Enabled t zapcore.InfoLevel = true →
  core_sampler L = Some s →
  samplers w !! s_counts s = Some counts →
  (0 ≤ b < s_first s)%Z →
  info_below b counts →
  zap.Info p msg fs w =
  (Ret tt,
   set_written (written w ++ record L zapcore.InfoLevel msg fs (now w))
     (set_samplers
        (<[s_counts s :=
             <[zapcore.counter_key zapcore.InfoLevel msg :=
                 bumped counts zapcore.InfoLevel msg (now w)]> counts]>
           (samplers w)) w)).
Proof.
  intros Hp Ha Hen Hs Hc Hb Hsmall.
  assert (Hle : (zapcore.c_n (bumped counts zapcore.InfoLevel msg (now w))
                 ≤ b + 1)%Z).
  { apply bumped_le; [lia|]. intros k c Hk. by destruct (Hsmall _ _ Hk). }
  unfold zap.Info.
  rewrite (log_sampled p L _ _ _ t w Hp Ha s counts Hen Hs Hc).
  cbn zeta. rewrite sampled_first; [reflexivity|lia].
Qed.

Lemma Init_again ctx e d w p :
  logger w = Some p → Init ctx e d w = (Ret tt, w).
Proof. intros H. unfold Init. go. by rewrite H. Qed.

Lemma Init_first ctx e d w :
  logger w = None →
  ∃ w', Init ctx e d w = (Ret tt, w') ∧ initialized e d w w'.
Proof.
  intros H. unfold Init. go. rewrite H. go.
  set (a := length (atoms w)). set (n := length (loggers w)).
  set (L := builtLogger d a (length (samplers w))).
  assert (Hen : zapcore.Enabled (initialLevel d) zapcore.InfoLevel = true)
    by by destruct d.
  destruct d; unfold zap.NewAtomicLevelAt; go; fold a.
  - (* development: no sampler *)
    destruct e; unfold serveLogLevel; go; rewrite Build_zapConfig;
      cbn [loggers samplers set_loggers]; fold a n L; unfold zap.Info; go.
    + erewrite (log_unsampled n L); [|apply lookup_snoc|apply lookup_snoc|done|done].
      cbn [after_write zap.terminal]. go.
      erewrite (log_unsampled n L); [|apply lookup_snoc|apply lookup_snoc|done|done].
      cbn [after_write zap.terminal]. go.
      erewrite deref_logger_Some; [|apply lookup_snoc]. go.
      eexists; split; [reflexivity|].
      split; cbn; try reflexivity.
      * by rewrite length_app, Nat.add_1_r.
      * by rewrite <-app_assoc.
      * by rewrite <-!app_assoc.
    + erewrite (log_unsampled n L); [|apply lookup_snoc|apply lookup_snoc|done|done].
      cbn [after_write zap.terminal]. go.
      erewrite deref_logger_Some; [|apply lookup_snoc]. go.
      eexists; split; [reflexivity|].
      split; cbn; try reflexivity.
      * by rewrite length_app, Nat.add_1_r.
      * by rewrite <-app_assoc.
      * by rewrite app_nil_r.
  - (* production: a sampler over a fresh counter table *)
    assert (H0 : info_below 0 ∅) by (by intros k c; rewrite lookup_empty).
    destruct e; unfold serveLogLevel; go; rewrite Build_zapConfig;
      cbn [loggers samplers set_loggers set_samplers]; fold a n L; go.
    + erewrite (Info_sampled_below n L _ _ _ _ _ 0);
        [|apply lookup_snoc|apply lookup_snoc|done|reflexivity
         |apply lookup_snoc|done|exact H0].
      go. cbn [L builtLogger core_sampler s_counts]. rewrite insert_snoc.
      erewrite (Info_sampled_below n L _ _ _ _ _ 1);
        [|apply lookup_snoc|apply lookup_snoc|done|reflexivity
         |apply lookup_snoc|done|by apply (info_below_bumped 0)].
      go. cbn [L builtLogger core_sampler s_counts]. rewrite insert_snoc.
      erewrite deref_logger_Some; [|apply lookup_snoc]. go.
      eexists; split; [reflexivity|].
      split; cbn; try reflexivity.
      * by rewrite length_app, Nat.add_1_r.
      * by rewrite <-app_assoc.
      * eexists. split; [done|]. intros k [c Hk].
        eapply (info_below_bumped 1) in Hk as [_ Hk]; [done|lia|].
        by apply (info_below_bumped 0).
      * by rewrite <-!app_assoc.
    + erewrite (Info_sampled_below n L _ _ _ _ _ 0);
        [|apply lookup_snoc|apply lookup_snoc|done|reflexivity
         |apply lookup_snoc|done|exact H0].
      go. cbn [L builtLogger core_sampler s_counts]. rewrite insert_snoc.
      erewrite deref_logger_Some; [|apply lookup_snoc]. go.
      eexists; split; [reflexivity|].
      split; cbn; try reflexivity.
      * by rewrite length_app, Nat.add_1_r.
      * by rewrite <-app_assoc.
      * eexists. split; [done|]. intros k [c Hk].
        by eapply (info_below_bumped 0) in Hk as [_ Hk].
      * by rewrite app_nil_r.
Qed.

(** * Soundness is invariant *)

Lemma hoare_bind {A B} (P : World → Prop) (c : Go A) (Q : A → World → Prop)
    (k : A → Go B) (R : B → World → Prop) :
  hoare P c Q → (∀ a, hoare (Q a) (k a) R) → hoare P (c ≫= k) R.
Proof.
  intros Hc Hk w HP. rewrite run_bind. specialize (Hc w HP).
  destruct (c w) as [[a | v | n] w']; [by apply Hk | done | done].
Qed.

Lemma hoare_ret {A} (P : World → Prop) (a : A) (Q : A → World → Prop) :
  (∀ w, P w → Q a w) → hoare P (mret a) Q.
Proof. intros H w HP. by apply H. Qed.

Lemma hoare_pre {A} (P P' : World → Prop) (c : Go A) (Q : A → World → Prop) :
  (∀ w, P w → P' w) → hoare P' c Q → hoare P c Q.
Proof. intros H Hc w HP. by apply Hc, H. Qed.

Lemma hoare_post {A} (P : World → Prop) (c : Go A) (Q Q' : A → World → Prop) :
  (∀ a w, Q a w → Q' a w) → hoare P c Q → hoare P c Q'.
Proof.
  intros H Hc w HP. specialize (Hc w HP).
  destruct (c w) as [[a | v | n] w']; [by apply H | done | done].
Qed.

Lemma hoare_get {A} (f : World → A) (P : World → Prop) :
  hoare P (get f) (λ a w, P w ∧ a = f w).
Proof. by intros w HP. Qed.

Lemma hoare_modify (f : World → World) (Q : unit → World → Prop) :
  hoare (λ w, Q tt (f w)) (modify f) Q.
Proof. by intros w HQ. Qed.

Lemma hoare_panic {A} (v : any) (Q : A → World → Prop) :
  hoare sound (panic v) Q.
Proof. by intros w Hw. Qed.

Lemma hoare_discard {A} (P : World → Prop) (c : Go A) (Q : A → World → Prop) :
  hoare P c Q → hoare P (discard c) (λ _ w, ∃ a, Q a w).
Proof.
  intros Hc. unfold discard. eapply hoare_bind; [exact Hc|].
  intros a. apply hoare_ret. eauto.
Qed.

(** ** Growing the heaps *)

Lemma logger_ok_mono w w' L :
  length (atoms w) ≤ length (atoms w') →
  length (samplers w) ≤ length (samplers w') →
  logger_ok w L → logger_ok w' L.
Proof.
  intros Ha Hs (H1 & H2 & H3). split; [lia|]. split; [done|].
  destruct (core_sampler L); [|done]. destruct H3. split; [lia|done].
Qed.

Lemma sound_new_logger w L :
  sound w → logger_ok w L → sound (set_loggers (loggers w ++ [L]) w).
Proof.
  intros [H1 H2 H3 H4] HL. split; cbn.
  - intros p Hp. apply H1 in Hp. rewrite length_app. lia.
  - intros p L' Hp. apply lookup_app_Some in Hp as [Hp | [_ Hp]].
    + by apply H2 in Hp.
    + apply list_lookup_singleton_Some in Hp as [_ <-]. done.
  - intros s b Hs. apply H3 in Hs. rewrite length_app. lia.
  - done.
Qed.

Lemma sound_new_sugar w b :
  sound w → b < length (loggers w) → sound (set_sugars (sugars w ++ [b]) w).
Proof.
  intros [H1 H2 H3 H4] Hb. split; cbn; try done.
  intros s b' Hs. apply lookup_app_Some in Hs as [Hs | [_ Hs]].
  - by apply H3 in Hs.
  - by apply list_lookup_singleton_Some in Hs as [_ <-].
Qed.

Lemma hoare_deref_logger p (P : World → Prop) :
  (∀ w, P w → sound w) →
  hoare P (deref_logger p)
    (λ L w, P w ∧ loggers w !! p = Some L ∧ logger_ok w L).
Proof.
  intros HP w Hw. unfold deref_logger.
  destruct (loggers w !! p) as [L|] eqn:E; [|by apply HP].
  split; [done|]. split; [done|]. eapply sound_loggers; eauto.
Qed.

Lemma hoare_deref_sugar p (P : World → Prop) :
  (∀ w, P w → sound w) →
  hoare P (deref_sugar p)
    (λ b w, P w ∧ sugars w !! p = Some b ∧ b < length (loggers w)).
Proof.
  intros HP w Hw. unfold deref_sugar.
  destruct (sugars w !! p) as [b|] eqn:E; [|by apply HP].
  split; [done|]. split; [done|]. eapply sound_sugars; eauto.
Qed.

Lemma hoare_new_logger L :
  hoare (λ w, sound w ∧ logger_ok w L) (new_logger L)
    (λ p w, sound w ∧ p < length (loggers w)).
Proof.
  intros w [Hw HL]. cbn. split; [by apply sound_new_logger|].
  rewrite length_app. cbn. lia.
Qed.

Lemma hoare_new_sugar b :
  hoare (λ w, sound w ∧ b < length (loggers w)) (new_sugar b)
    (λ _ w, sound w).
Proof. intros w [Hw Hb]. cbn. by apply sound_new_sugar. Qed.

Lemma logger_ok_with_fields w L fields :
  logger_ok w L → logger_ok w (zap.with_fields L fields).
Proof. done. Qed.

Lemma logger_ok_add_callerSkip w L n :
  logger_ok w L → logger_ok w (zap.add_callerSkip L n).
Proof. done. Qed.

Lemma hoare_Logger_With l fields :
  hoare (λ w, sound w ∧ l < length (loggers w)) (zap.Logger_With l fields)
    (λ q w, sound w ∧ q < length (loggers w)).
Proof.
  destruct fields as [|f fields]; [by intros w Hw|].
  unfold zap.Logger_With.
  eapply hoare_bind; [apply hoare_deref_logger; tauto|].
  intros L. cbn beta. eapply hoare_pre; [|apply hoare_new_logger].
  intros w ((Hw & _) & _ & HL). split; [done|].
  by apply logger_ok_with_fields.
Qed.

(** A [With] on a pointer that may dangle: it is only dereferenced when
    there are fields to add. *)
Lemma hoare_Logger_With_any l fields :
  hoare sound (zap.Logger_With l fields) (λ _ w, sound w).
Proof.
  destruct fields as [|f fields]; [by intros w Hw|].
  unfold zap.Logger_With.
  eapply hoare_bind; [by apply hoare_deref_logger|].
  intros L. cbn beta. eapply hoare_post; [|eapply hoare_pre; [|apply hoare_new_logger]].
  - by intros a w [Hw _].
  - intros w (Hw & _ & HL). split; [done|]. by apply logger_ok_with_fields.
Qed.

(** ** Writing records *)

Lemma logged_refl w : logged w w.
Proof. by split. Qed.

Lemma logged_trans w1 w2 w3 : logged w1 w2 → logged w2 w3 → logged w1 w3.
Proof. intros [] []. split; try congruence. by etrans. Qed.

Lemma logged_sound w w' :
  sound w → logged w w' →
  (∀ i counts, samplers w' !! i = Some counts → no_fatal counts) →
  sound w'.
Proof.
  intros [H1 H2 H3 H4] [] Hs. split.
  - intros p Hp. rewrite logged_loggers0. apply H1. congruence.
  - intros p L Hp. rewrite logged_loggers0 in Hp. apply H2 in Hp.
    eapply logger_ok_mono; [| |exact Hp]; [by rewrite logged_atoms0|lia].
  - intros s b Hs'. rewrite logged_loggers0. eapply H3. by rewrite <-logged_sugars0.
  - done.
Qed.

Lemma no_fatal_bumped counts lvl msg c :
  lvl ≠ zapcore.FatalLevel →
  no_fatal counts →
  no_fatal (<[zapcore.counter_key lvl msg := c]> counts).
Proof.
  intros Hlvl H j. rewrite lookup_insert_ne; [done|].
  unfold zapcore.counter_key. intros [= Hk _]. by destruct lvl.
Qed.

(** A record through a live logger: what the call returns, and that only
    the counters and the output moved. *)
Lemma log_run p L lvl msg fs w :
  sound w →
  loggers w !! p = Some L →
  ∃ o w',
    zap.log p lvl msg fs w = (o, w')
    ∧ logged w w'
    ∧ (o = Ret tt ∨ o = after_write (zap.terminal L lvl) msg)
    ∧ (lvl = zapcore.FatalLevel → o = Exits 1)
    ∧ (lvl ≠ zapcore.FatalLevel → sound w').
Proof.
  intros Hw Hp.
  destruct (sound_loggers w Hw p L Hp) as (Ha & Hout & Hs).
  apply lookup_lt_is_Some in Ha as [t Ha].
  destruct (zapcore.Enabled t lvl) eqn:Hen.
  - destruct (core_sampler L) as [s|] eqn:Es.
    + destruct Hs as [Hs _]. apply lookup_lt_is_Some in Hs as [counts Hc].
      rewrite (log_sampled p L lvl msg fs t w Hp Ha s counts Hen Es Hc).
      cbn zeta.
      set (w1 := set_samplers _ w).
      assert (H1 : logged w w1).
      { split; cbn; try done. by rewrite length_insert. }
      assert (H2 : lvl ≠ zapcore.FatalLevel → sound w1).
      { intros Hlvl. apply (logged_sound w); [done..|].
        cbn. intros i counts' Hi.
        apply list_lookup_insert_Some in Hi as [(_ & <- & _) | [_ Hi]].
        - apply no_fatal_bumped; [done|]. eapply sound_samplers; eauto.
        - eapply sound_samplers; eauto. }
      destruct (zapcore.sampled _ _ _).
      * eexists _, _. split; [reflexivity|].
        split; [destruct H1; split; cbn; try done; by apply prefix_app_r|].
        split; [by right|]. split; [by intros ->|].
        intros Hlvl. specialize (H2 Hlvl). destruct H2. by split.
      * eexists _, _. split; [reflexivity|].
        split; [done|]. split; [by right|].
        split; [by intros ->|done].
    + rewrite (log_unsampled p L lvl msg fs t w Hp Ha Hen Es).
      eexists _, _. split; [reflexivity|].
      split; [split; cbn; try done; by apply prefix_app_r|].
      split; [by right|].
      split; [by intros ->|]. intros _. destruct Hw. by split.
  - rewrite (log_disabled p L lvl msg fs t w Hp Ha Hen).
    eexists _, _. split; [reflexivity|].
    split; [apply logged_refl|].
    split; [case_bool_decide; auto|].
    split; [by intros ->|done].
Qed.

Lemma hoare_log p lvl msg fs (P : World → Prop) :
  (∀ w w', P w → logged w w' → sound w' → P w') →
  (∀ w, P w → sound w) →
  hoare P (zap.log p lvl msg fs) (λ _ w, P w).
Proof.
  intros Hframe HP w Hw.
  destruct (loggers w !! p) as [L|] eqn:Hp.
  - destruct (log_run p L lvl msg fs w (HP w Hw) Hp)
      as (o & w' & -> & Hl & Ho & Hfatal & Hs).
    destruct (decide (lvl = zapcore.FatalLevel)) as [Hlvl | Hlvl].
    + by rewrite (Hfatal Hlvl).
    + specialize (Hs Hlvl). destruct o; [by eapply Hframe|done|done].
  - unfold zap.log. rewrite run_bind. unfold deref_logger. rewrite Hp.
    by apply HP.
Qed.

(** The complaints of [sweetenFields] are Error records: they return. *)
Lemma complaints_run base L (cs : list (string * list zapcore.Field)) w :
  sound w →
  loggers w !! base = Some L →
  ∃ w', foldr (λ c k, zap.log base zapcore.ErrorLevel c.1 c.2 ≫= λ _, k)
          (mret tt) cs w = (Ret tt, w')
        ∧ logged w w' ∧ sound w'.
Proof.
  revert w. induction cs as [|c cs IH]; intros w Hw Hb.
  - exists w. split; [done|]. split; [apply logged_refl|done].
  - cbn [foldr]. rewrite run_bind.
    destruct (log_run base L zapcore.ErrorLevel c.1 c.2 w Hw Hb)
      as (o & w1 & -> & Hl & Ho & _ & Hs).
    specialize (Hs ltac:(done)).
    assert (o = Ret tt) as -> by (by destruct Ho).
    destruct (IH w1) as (w2 & -> & Hl2 & Hs2);
      [done|by rewrite (logged_loggers _ _ Hl)|].
    exists w2. split; [done|]. split; [by eapply logged_trans|done].
Qed.

Lemma sweetenFields_run base L args w :
  sound w →
  loggers w !! base = Some L →
  ∃ w', zap.sweetenFields base args w = (Ret (sweet args), w')
        ∧ logged w w' ∧ sound w'.
Proof.
  intros Hw Hb. unfold zap.sweetenFields. cbn zeta. rewrite run_bind.
  edestruct (complaints_run base L) as (w' & -> & Hl & Hs); [done..|].
  by exists w'.
Qed.

Lemma hoare_sweetenFields base args :
  hoare (λ w, sound w ∧ base < length (loggers w))
    (zap.sweetenFields base args)
    (λ _ w, sound w ∧ base < length (loggers w)).
Proof.
  intros w (Hw & Hb). apply lookup_lt_is_Some in Hb as [L Hb].
  destruct (sweetenFields_run base L args w Hw Hb) as (w' & -> & Hl & Hs).
  split; [done|]. rewrite (logged_loggers _ _ Hl). by eapply lookup_lt_Some.
Qed.

(** ** The calls of the package keep the state sound *)

Ltac hoare_step lem :=
  eapply hoare_bind; [eapply hoare_pre; [|lem]; try tauto|cbn beta].

Lemma hoare_Sugared_With s args :
  hoare sound (zap.Sugared_With s args) (λ _ w, sound w).
Proof.
  unfold zap.Sugared_With.
  hoare_step ltac:(by apply hoare_deref_sugar). intros base.
  hoare_step ltac:(apply (hoare_sweetenFields base args)). intros fields.
  hoare_step ltac:(apply (hoare_Logger_With base fields)). intros base'.
  apply hoare_new_sugar.
Qed.

Lemma hoare_CSugaredLogger_With l args :
  hoare sound (CSugaredLogger.With l args) (λ _ w, sound w).
Proof.
  unfold CSugaredLogger.With.
  hoare_step ltac:(apply hoare_Sugared_With). intros q.
  hoare_step ltac:(by apply hoare_deref_sugar). intros base.
  eapply hoare_pre; [|apply hoare_new_sugar]. tauto.
Qed.

Lemma hoare_CSugaredLogger_WithCorrelationId l v :
  hoare sound (CSugaredLogger.WithCorrelationId l v) (λ _ w, sound w).
Proof.
  unfold CSugaredLogger.WithCorrelationId.
  destruct (as_string v) as [s|]; [|by apply hoare_ret].
  hoare_step ltac:(apply (hoare_get correlationIdFieldKey sound)).
  intros key.
  hoare_step ltac:(apply hoare_Sugared_With). intros q.
  hoare_step ltac:(by apply hoare_deref_sugar). intros base.
  eapply hoare_pre; [|apply hoare_new_sugar]. tauto.
Qed.

Lemma hoare_CLogger_With l args :
  hoare sound (CLogger.With l args) (λ _ w, sound w).
Proof.
  unfold CLogger.With.
  hoare_step ltac:(apply hoare_Logger_With_any). intros q.
  hoare_step ltac:(by apply hoare_deref_logger). intros L.
  eapply hoare_post; [|eapply hoare_pre; [|apply hoare_new_logger]]; cbn.
  - tauto.
  - tauto.
Qed.

Lemma hoare_CLogger_WithCorrelationId l v :
  hoare sound (CLogger.WithCorrelationId l v) (λ _ w, sound w).
Proof.
  unfold CLogger.WithCorrelationId.
  destruct (as_string v) as [s|]; [|by apply hoare_ret].
  hoare_step ltac:(apply (hoare_get correlationIdFieldKey sound)).
  intros key.
  hoare_step ltac:(apply hoare_Logger_With_any). intros q.
  hoare_step ltac:(by apply hoare_deref_logger). intros L.
  eapply hoare_post; [|eapply hoare_pre; [|apply hoare_new_logger]]; cbn.
  - tauto.
  - tauto.
Qed.

Lemma hoare_SugaredLogger :
  hoare sound SugaredLogger (λ _ w, sound w).
Proof.
  unfold SugaredLogger.
  hoare_step ltac:(apply (hoare_get logger sound)). intros [p|];
    [|eapply hoare_pre; [|apply hoare_panic]; tauto].
  unfold zap.Sugar.
  hoare_step ltac:(eapply hoare_bind;
                   [apply (hoare_deref_logger p sound); tauto|]).
  { intros L. cbn beta.
    hoare_step ltac:(apply (hoare_new_logger (zap.add_callerSkip L 2))).
    intros core. apply hoare_new_sugar. }
  intros l.
  hoare_step ltac:(by apply hoare_deref_sugar). intros base.
  eapply hoare_pre; [|apply hoare_new_sugar]. tauto.
Qed.

Lemma hoare_Sugared_logf s lvl template args :
  hoare sound (zap.Sugared_logf s lvl template args) (λ _ w, sound w).
Proof.
  unfold zap.Sugared_logf.
  hoare_step ltac:(by apply hoare_deref_sugar). intros base.
  eapply hoare_pre; [|apply (hoare_log _ _ _ _ sound)]; [tauto|auto..].
Qed.

Lemma hoare_PanicLogger r stack :
  hoare sound (PanicLogger r stack) (λ _ w, sound w).
Proof.
  unfold PanicLogger. case_decide; [by apply hoare_ret|].
  hoare_step ltac:(apply hoare_SugaredLogger). intros s.
  hoare_step ltac:(apply hoare_CSugaredLogger_With). intros log.
  apply hoare_Sugared_logf.
Qed.

Lemma initialized_sound e d w w' : sound w → initialized e d w w' → sound w'.
Proof.
  intros [H1 H2 H3 H4] [].
  assert (Hok : logger_ok w'
                  (builtLogger d (length (atoms w)) (length (samplers w)))).
  { split; cbn; [rewrite init_atoms0, length_app; cbn; lia|].
    split; [done|]. destruct d; [done|].
    destruct init_samplers0 as (counts & -> & _).
    rewrite length_app. cbn. lia. }
  assert (Hla : length (atoms w) ≤ length (atoms w'))
    by (rewrite init_atoms0, length_app; lia).
  assert (Hls : length (samplers w) ≤ length (samplers w')).
  { destruct d; [by rewrite init_samplers0|].
    destruct init_samplers0 as (counts & -> & _). rewrite length_app. lia. }
  split.
  - intros p. rewrite init_logger0, init_loggers0, length_app.
    intros [= <-]. cbn. lia.
  - intros p L. rewrite init_loggers0. intros Hp.
    apply lookup_app_Some in Hp as [Hp | [_ Hp]].
    + eapply logger_ok_mono; [done..|]. by eapply H2.
    + destruct (p - length (loggers w)) as [|[|?]]; cbn in Hp;
        by simplify_eq.
  - intros s b. rewrite init_sugars0, init_loggers0, length_app.
    intros Hs. apply H3 in Hs. lia.
  - intros i counts Hi. destruct d.
    + rewrite init_samplers0 in Hi. by eapply H4.
    + destruct init_samplers0 as (counts' & Heq & Hrow). rewrite Heq in Hi.
      apply lookup_app_Some in Hi as [Hi | [_ Hi]]; [by eapply H4|].
      apply list_lookup_singleton_Some in Hi as [_ <-].
      intros j. destruct (counts' !! (6%Z, j)) eqn:E; [|done].
      by specialize (Hrow (6%Z, j) (mk_is_Some _ _ E)).
Qed.

Lemma hoare_Init ctx e d : hoare sound (Init ctx e d) (λ _ w, sound w).
Proof.
  intros w Hw. destruct (logger w) as [p|] eqn:E.
  - by rewrite (Init_again ctx e d w p E).
  - destruct (Init_first ctx e d w E) as (w' & -> & Hi).
    by eapply initialized_sound.
Qed.

Lemma sound_frame w w' :
  logger w' = logger w → loggers w' = loggers w → sugars w' = sugars w →
  length (atoms w') = length (atoms w) → samplers w' = samplers w →
  sound w → sound w'.
Proof.
  intros E1 E2 E3 E4 E5 [H1 H2 H3 H4]. split.
  - rewrite E1, E2. apply H1.
  - rewrite E2. intros p L Hp. apply H2 in Hp.
    eapply logger_ok_mono; [| |exact Hp]; [lia|by rewrite E5].
  - rewrite E2, E3. apply H3.
  - rewrite E5. apply H4.
Qed.

Lemma hoare_CLogger_WithContextCorrelationId l ctx :
  hoare sound (CLogger.WithContextCorrelationId l ctx) (λ _ w, sound w).
Proof.
  unfold CLogger.WithContextCorrelationId.
  hoare_step ltac:(apply (hoare_get correlationIdContextKey sound)).
  intros key. eapply hoare_pre; [|apply hoare_CLogger_WithCorrelationId].
  tauto.
Qed.

Lemma hoare_CSugaredLogger_WithContextCorrelationId l ctx :
  hoare sound (CSugaredLogger.WithContextCorrelationId l ctx)
    (λ _ w, sound w).
Proof.
  unfold CSugaredLogger.WithContextCorrelationId.
  hoare_step ltac:(apply (hoare_get correlationIdContextKey sound)).
  intros key.
  eapply hoare_pre; [|apply hoare_CSugaredLogger_WithCorrelationId].
  tauto.
Qed.

Theorem exec_sound c : hoare sound (exec c) (λ _ w, sound w).
Proof.
  destruct c; cbn [exec].
  - apply hoare_Init.
  - intros w Hw. unfold SetCorrelationIdFieldKey. case_decide; [done|].
    by apply (sound_frame w).
  - intros w Hw. unfold SetCorrelationIdContextKey. case_decide; [done|].
    by apply (sound_frame w).
  - intros w Hw. unfold discard, Logger. go.
    by destruct (logger w).
  - eapply hoare_post; [|apply hoare_discard, hoare_SugaredLogger].
    by intros _ w [_ ?].
  - eapply hoare_post; [|apply hoare_discard, hoare_CLogger_With].
    by intros _ w [_ ?].
  - eapply hoare_post;
      [|apply hoare_discard, hoare_CLogger_WithCorrelationId].
    by intros _ w [_ ?].
  - eapply hoare_post;
      [|apply hoare_discard, hoare_CLogger_WithContextCorrelationId].
    by intros _ w [_ ?].
  - eapply hoare_post; [|apply hoare_discard, hoare_CSugaredLogger_With].
    by intros _ w [_ ?].
  - eapply hoare_post;
      [|apply hoare_discard, hoare_CSugaredLogger_WithCorrelationId].
    by intros _ w [_ ?].
  - eapply hoare_post;
      [|apply hoare_discard, hoare_CSugaredLogger_WithContextCorrelationId].
    by intros _ w [_ ?].
  - apply (hoare_log _ _ _ _ sound); auto.
  - apply hoare_Sugared_logf.
  - apply hoare_PanicLogger.
  - intros w Hw. by apply (sound_frame w).
  - intros w Hw. unfold serve_PutLogLevel. case_bool_decide; [|done].
    apply (sound_frame w); cbn; try done. by rewrite length_insert.
Qed.

Lemma start_sound t0 : sound (start t0).
Proof. by split. Qed.

Theorem reachable_sound w : reachable w → sound w.
Proof.
  induction 1 as [t0 | w c o w' _ IH Hc Ho]; [apply start_sound|].
  pose proof (exec_sound c w IH) as H. rewrite Hc in H.
  destruct o; [done..|]. by destruct (Ho code).
Qed.

(** * Handles *)

Lemma with_fields_nil L : zap.with_fields L [] = L.
Proof. destruct L. unfold zap.with_fields. cbn. by rewrite app_nil_r. Qed.

Lemma with_fields_app L a b :
  zap.with_fields (zap.with_fields L a) b = zap.with_fields L (a ++ b).
Proof. unfold zap.with_fields. cbn. by rewrite app_assoc. Qed.

Lemma set_loggers_same w : set_loggers (loggers w ++ []) w = w.
Proof. destruct w. unfold set_loggers. cbn. by rewrite app_nil_r. Qed.

Lemma logged_extended w w' : logged w w' → extended w w'.
Proof.
  intros []. split; try done;
    [by rewrite logged_loggers0|by rewrite logged_sugars0].
Qed.

Lemma extended_refl w : extended w w.
Proof. by split. Qed.

Lemma extended_trans w1 w2 w3 :
  extended w1 w2 → extended w2 w3 → extended w1 w3.
Proof. intros [] []. split; try congruence; by etrans. Qed.

(** ** The structured handle *)

(** [With] on a live [*CLogger]: a cell that did not exist, holding the
    receiver's logger with [args] after its fields; nothing else moves. *)
Lemma CLogger_With_run l L args w :
  loggers w !! l = Some L →
  ∃ p ext,
    CLogger.With l args w = (Ret p, set_loggers (loggers w ++ ext) w)
    ∧ length (loggers w) ≤ p
    ∧ (loggers w ++ ext) !! p = Some (zap.with_fields L args).
Proof.
  intros Hl. unfold CLogger.With, zap.Logger_With.
  destruct args as [|f args].
  - go. rewrite (deref_logger_Some _ _ _ Hl). unfold new_logger. go.
    exists (length (loggers w)), [L]. split; [done|]. split; [done|].
    by rewrite with_fields_nil, lookup_snoc.
  - go. rewrite (deref_logger_Some _ _ _ Hl). go.
    erewrite deref_logger_Some; [|apply lookup_snoc]. unfold new_logger. go.
    eexists (S (length (loggers w))), [_; _].
    split; [by rewrite length_app, Nat.add_1_r, <-app_assoc|]. split; [lia|].
    rewrite lookup_app_r; [|lia].
    by replace (S (length (loggers w)) - length (loggers w)) with 1 by lia.
Qed.

Lemma elem_of_concat {A} (x : A) (ls : list (list A)) (l : list A) :
  l ∈ ls → x ∈ l → x ∈ concat ls.
Proof.
  induction ls as [|l' ls IH]; intros Hl Hx; [by apply elem_of_nil in Hl|].
  cbn. apply elem_of_app. apply elem_of_cons in Hl as [-> | Hl]; auto.
Qed.

Lemma accumulated_intro base added :
  accumulated base added (base ++ concat added).
Proof.
  split.
  - done.
  - intros f Hf. apply elem_of_app. by left.
  - intros args f Hargs Hf. apply elem_of_app. right.
    by eapply elem_of_concat.
  - intros key. induction base as [|f base IH]; cbn.
    + by destruct (last_value (concat added) key).
    + rewrite IH. by destruct (last_value (concat added) key).
Qed.

(** A sequence of [With] calls from a live [*CLogger]: every call returns
    a cell that did not exist before it, and after the last call the
    [i]-th handle still holds the receiver's logger with the fields of
    the calls up to its own. *)
Lemma With_seq_run calls : ∀ l L w,
  loggers w !! l = Some L →
  ∃ hs ext,
    With_seq CLogger.With l calls w
    = (Ret hs, set_loggers (loggers w ++ ext) w)
    ∧ length hs = length calls
    ∧ NoDup hs
    ∧ ∀ i h, hs !! i = Some h →
        length (loggers w) ≤ h
        ∧ (loggers w ++ ext) !! h
          = Some (zap.with_fields L (concat (take (S i) calls))).
Proof.
  induction calls as [|args calls IH]; intros l L w Hl.
  - exists [], []. cbn. rewrite set_loggers_same.
    split; [done|]. split; [done|]. split; [constructor|]. by intros i h.
  - cbn [With_seq]. go.
    destruct (CLogger_With_run l L args w Hl) as (h1 & ext1 & -> & Hfresh & H1).
    destruct (IH h1 (zap.with_fields L args) (set_loggers (loggers w ++ ext1) w))
      as (hs & ext2 & Hrun & Hlen & Hnd & Hhs); [done|].
    go. rewrite Hrun. go. cbn in Hhs.
    exists (h1 :: hs), (ext1 ++ ext2).
    split; [by rewrite app_assoc|]. split; [by cbn; rewrite Hlen|].
    split.
    + constructor; [|done]. intros Hin.
      apply list_elem_of_lookup in Hin as [i Hi].
      destruct (Hhs i h1 Hi) as [Hge _].
      apply lookup_lt_Some in H1. lia.
    + intros [|i] h Hi; cbn in Hi.
      * injection Hi as <-. split; [done|].
        rewrite app_assoc. cbn [take concat]. rewrite app_nil_r.
        by apply lookup_app_l_Some.
      * destruct (Hhs i h Hi) as [Hge Hh]. rewrite length_app in Hge.
        split; [lia|]. rewrite app_assoc, Hh, with_fields_app.
        done.
Qed.

(** ** The sugared handle *)

Lemma sweetenFields_quiet base args w :
  quiet args → zap.sweetenFields base args w = (Ret (sweet args), w).
Proof.
  intros [Hc Hi]. unfold zap.sweetenFields. cbn zeta. by rewrite Hc, Hi.
Qed.

(** [With] on a live [*CSugaredLogger] in a sound state. *)
Lemma CSugaredLogger_With_run l b L args w :
  sound w →
  sugars w !! l = Some b →
  loggers w !! b = Some L →
  ∃ w' b',
    CSugaredLogger.With l args w = (Ret (S (length (sugars w))), w')
    ∧ sound w'
    ∧ extended w w'
    ∧ sugars w' = sugars w ++ [b'; b']
    ∧ loggers w' !! b' = Some (zap.with_fields L (sweet args)).
Proof.
  intros Hw Hl Hb.
  pose proof (hoare_CSugaredLogger_With l args w Hw) as Hsound.
  destruct (sweetenFields_run b L args w Hw Hb) as (w1 & Hsw & Hlog & Hw1).
  pose proof (logged_loggers _ _ Hlog) as Hlg.
  pose proof (logged_sugars _ _ Hlog) as Hsg.
  pose proof (logged_extended _ _ Hlog) as Hext.
  cut (∃ w' b',
         CSugaredLogger.With l args w = (Ret (S (length (sugars w))), w')
         ∧ extended w w'
         ∧ sugars w' = sugars w ++ [b'; b']
         ∧ loggers w' !! b' = Some (zap.with_fields L (sweet args))).
  { intros (w' & b' & Hrun & ?). rewrite Hrun in Hsound. by exists w', b'. }
  unfold CSugaredLogger.With, zap.Sugared_With. go.
  rewrite (deref_sugar_Some _ _ _ Hl). go. rewrite Hsw. go.
  unfold zap.Logger_With. destruct (sweet args) as [|f fields] eqn:Efs.
  - go. unfold deref_sugar. go. rewrite Hsg, lookup_snoc. go.
    eexists _, b. split.
    { unfold new_sugar. cbn. by rewrite length_app, Nat.add_1_r. }
    split; [|split]; cbn.
    + destruct Hext. split; cbn; try done.
      rewrite <-app_assoc. by apply prefix_app_r.
    + by rewrite <-app_assoc.
    + by rewrite Hlg, with_fields_nil.
  - go. unfold deref_logger. rewrite Hlg, Hb. go.
    unfold deref_sugar. go. rewrite Hsg, lookup_snoc. go.
    eexists _, (length (loggers w)). split.
    { unfold new_sugar. cbn. by rewrite length_app, Nat.add_1_r. }
    split; [|split]; cbn.
    + destruct Hext. split; cbn; try done.
      * by apply prefix_app_r.
      * rewrite <-app_assoc. by apply prefix_app_r.
    + by rewrite Hlg, <-app_assoc.
    + by rewrite Hlg, lookup_snoc.
Qed.

Lemma Sugared_With_seq_run calls : ∀ l b L w,
  sound w →
  sugars w !! l = Some b →
  loggers w !! b = Some L →
  ∃ hs w',
    Sugared_With_seq l calls w = (Ret hs, w')
    ∧ sound w'
    ∧ extended w w'
    ∧ length hs = length calls
    ∧ NoDup hs
    ∧ ∀ i h, hs !! i = Some h →
        length (sugars w) ≤ h
        ∧ ∃ b', sugars w' !! h = Some b'
                ∧ loggers w' !! b'
                  = Some (zap.with_fields L
                            (concat (map sweet (take (S i) calls)))).
Proof.
  induction calls as [|args calls IH]; intros l b L w Hw Hl Hb.
  - exists [], w. cbn. split; [done|]. split; [done|].
    split; [apply extended_refl|]. split; [done|].
    split; [constructor|]. by intros i h.
  - cbn [Sugared_With_seq]. go.
    destruct (CSugaredLogger_With_run l b L args w Hw Hl Hb)
      as (w1 & b1 & -> & Hw1 & Hext1 & Hs1 & Hb1).
    assert (Hh1 : sugars w1 !! S (length (sugars w)) = Some b1).
    { rewrite Hs1, lookup_app_r; [|lia].
      by replace (S (length (sugars w)) - length (sugars w)) with 1 by lia. }
    destruct (IH _ _ _ w1 Hw1 Hh1 Hb1)
      as (hs & w2 & Hrun & Hw2 & Hext2 & Hlen & Hnd & Hhs).
    go. rewrite Hrun. go.
    exists (S (length (sugars w)) :: hs), w2.
    split; [done|]. split; [done|].
    split; [by eapply extended_trans|]. split; [by cbn; rewrite Hlen|].
    split.
    + constructor; [|done]. intros Hin.
      apply list_elem_of_lookup in Hin as [i Hi].
      destruct (Hhs i _ Hi) as [Hge _].
      rewrite Hs1, length_app in Hge. cbn in Hge. lia.
    + intros [|i] h Hi; cbn in Hi.
      * injection Hi as <-. split; [lia|]. exists b1.
        split; [by eapply prefix_lookup_Some, ext_sugars|].
        cbn [take map concat]. rewrite app_nil_r.
        by eapply prefix_lookup_Some, ext_loggers.
      * destruct (Hhs i h Hi) as [Hge (b' & Hh & Hb')].
        rewrite Hs1, length_app in Hge. split; [lia|].
        exists b'. split; [done|].
        by rewrite Hb', with_fields_app.
Qed.

(** ** The accessors *)

Lemma Logger_nil w : logger w = None → Logger w = (Panics not_initialized, w).
Proof. intros H. unfold Logger. go. by rewrite H. Qed.

Lemma SugaredLogger_nil w :
  logger w = None → SugaredLogger w = (Panics not_initialized, w).
Proof. intros H. unfold SugaredLogger. go. by rewrite H. Qed.

Lemma Logger_run p w : logger w = Some p → Logger w = (Ret p, w).
Proof. intros H. unfold Logger. go. by rewrite H. Qed.

(** [SugaredLogger()] once [logger] is set: a clone of the process-wide
    logger, and a fresh sugared cell over it. *)
Lemma SugaredLogger_run p L w :
  logger w = Some p →
  loggers w !! p = Some L →
  SugaredLogger w =
  (Ret (S (length (sugars w))),
   set_sugars (sugars w ++ [length (loggers w); length (loggers w)])
     (set_loggers (loggers w ++ [zap.add_callerSkip L 2]) w)).
Proof.
  intros Hp HL. unfold SugaredLogger, zap.Sugar. go. rewrite Hp. go.
  rewrite (deref_logger_Some _ _ _ HL). go.
  unfold deref_sugar. go. rewrite lookup_snoc. unfold new_sugar. go.
  by rewrite length_app, Nat.add_1_r, <-app_assoc.
Qed.

(** ** [PanicLogger] *)

Lemma Sprintf_panic r stack :
  zap.Sprintf "panic: %s stack: %s" [r; VString stack]
  = "panic: " +:+ fmt_s r +:+ " stack: " +:+ stack.
Proof.
  assert (Happ : ∀ s : string, s +:+ "" = s).
  { induction s as [|c s IH]; [done|].
    change (String c (s +:+ "") = String c s). by f_equal. }
  cbn [zap.Sprintf fmt_s]. by rewrite Happ.
Qed.

Lemma getMessagef_panic r stack :
  zap.getMessagef "panic: %s stack: %s" [r; VString stack]
  = "panic: " +:+ fmt_s r +:+ " stack: " +:+ stack.
Proof. apply Sprintf_panic. Qed.

Lemma Enabled_Fatal t : zapcore.Enabled t zapcore.FatalLevel = true.
Proof. by destruct t. Qed.

Lemma lookup_snoc2 {A} (l : list A) (x y : A) :
  (l ++ [x; y]) !! S (length l) = Some y.
Proof.
  rewrite lookup_app_r; [|lia].
  by replace (S (length l) - length l) with 1 by lia.
Qed.

(** The sugared [With] when the arguments are well formed and not empty:
    a clone of the base with the fields, and a fresh sugared cell over
    it; nothing is logged. *)
Lemma CSugaredLogger_With_quiet l b L args w :
  quiet args →
  sweet args ≠ [] →
  sugars w !! l = Some b →
  loggers w !! b = Some L →
  CSugaredLogger.With l args w =
  (Ret (S (length (sugars w))),
   set_sugars (sugars w ++ [length (loggers w); length (loggers w)])
     (set_loggers (loggers w ++ [zap.with_fields L (sweet args)]) w)).
Proof.
  intros Hq Hne Hl Hb. unfold CSugaredLogger.With, zap.Sugared_With. go.
  rewrite (deref_sugar_Some _ _ _ Hl). go.
  rewrite (sweetenFields_quiet _ _ _ Hq). go.
  unfold zap.Logger_With. destruct (sweet args) as [|f fields]; [done|].
  go. rewrite (deref_logger_Some _ _ _ Hb). go.
  unfold deref_sugar. go. rewrite lookup_snoc. unfold new_sugar. go.
  by rewrite length_app, Nat.add_1_r, <-app_assoc.
Qed.

(** A Fatal record through a live sugared handle, in a state where no
    Fatal record was counted: written once, and the process exits. *)
Lemma Fatalf_run h b L template args w :
  sugars w !! h = Some b →
  loggers w !! b = Some L →
  logger_ok w L →
  (∀ i counts, samplers w !! i = Some counts → no_fatal counts) →
  ∃ w',
    zap.Fatalf h template args w = (Exits 1, w')
    ∧ written w' =
      written w ++ [(Stdout,
                     zapcore.mkEntry (now w) zapcore.FatalLevel
                       (zap.getMessagef template args) (core_fields L))].
Proof.
  intros Hh Hb (Ha & Hout & Hs) Hnf.
  unfold zap.Fatalf, zap.Sugared_logf. go.
  rewrite (deref_sugar_Some _ _ _ Hh). go.
  apply lookup_lt_is_Some in Ha as [t Ha].
  destruct (core_sampler L) as [s|] eqn:Es.
  - destruct Hs as [Hs Hfirst]. apply lookup_lt_is_Some in Hs as [counts Hc].
    rewrite (log_sampled b L _ _ _ t w Hb Ha s counts (Enabled_Fatal t) Es Hc).
    cbn zeta.
    assert (Hn : zapcore.c_n (bumped counts zapcore.FatalLevel
                                (zap.getMessagef template args) (now w))
                 = 1%Z).
    { unfold bumped, zapcore.counter_key. cbn [zapcore.level_int].
      replace (5 - -1)%Z with 6%Z by lia.
      rewrite (Hnf _ _ Hc). cbn. unfold zapcore.IncCheckReset.
      by case_bool_decide. }
    rewrite Hn, sampled_first; [|lia].
    eexists. split; [reflexivity|]. cbn. unfold record.
    by rewrite Hout, app_nil_r.
  - rewrite (log_unsampled b L _ _ _ t w Hb Ha (Enabled_Fatal t) Es).
    eexists. split; [reflexivity|]. cbn. unfold record.
    by rewrite Hout, app_nil_r.
Qed.

(** [PanicLogger] with a panic in flight, once [Init] has run. *)
Lemma PanicLogger_run r stack p L w :
  sound w →
  logger w = Some p →
  loggers w !! p = Some L →
  r ≠ VNil →
  ∃ w',
    PanicLogger r stack w = (Exits 1, w')
    ∧ written w' =
      written w ++ [(Stdout,
                     zapcore.mkEntry (now w) zapcore.FatalLevel
                       ("panic: " +:+ fmt_s r +:+ " stack: " +:+ stack)
                       (core_fields L ++ [zap.String "op" "panic_logger"]))].
Proof.
  intros Hw Hp HL Hr. unfold PanicLogger. case_decide; [done|]. go.
  rewrite (SugaredLogger_run p L w Hp HL). go.
  set (L2 := zap.add_callerSkip L 2).
  set (w1 := set_sugars _ (set_loggers _ w)).
  rewrite (CSugaredLogger_With_quiet (S (length (sugars w)))
             (length (loggers w)) L2 _ w1);
    [|by split|done|apply lookup_snoc2|apply lookup_snoc].
  go.
  set (L3 := zap.with_fields L2 _).
  set (w2 := set_sugars _ (set_loggers _ w1)).
  destruct (Fatalf_run (S (length (sugars w1))) (length (loggers w1)) L3
              "panic: %s stack: %s" [r; VString stack] w2)
    as (w' & -> & Hwr).
  - apply lookup_snoc2.
  - apply lookup_snoc.
  - apply logger_ok_with_fields, logger_ok_add_callerSkip.
    eapply (logger_ok_mono w); [done..|]. by eapply sound_loggers.
  - cbn. by eapply sound_samplers.
  - exists w'. split; [done|]. by rewrite Hwr, getMessagef_panic.
Qed.

(** ** [WithCorrelationId] *)

(** On a string, [WithCorrelationId] is [With] of the one field that
    binds the correlation field key to it. *)
Lemma CLogger_WithCorrelationId_string l s w :
  CLogger.WithCorrelationId l (VString s) w
  = CLogger.With l [zap.String (correlationIdFieldKey w) s] w.
Proof. unfold CLogger.WithCorrelationId, CLogger.With. by go. Qed.

Lemma CSugaredLogger_WithCorrelationId_string l s w :
  CSugaredLogger.WithCorrelationId l (VString s) w
  = CSugaredLogger.With l
      [zap.AField (zap.String (correlationIdFieldKey w) s)] w.
Proof.
  unfold CSugaredLogger.WithCorrelationId, CSugaredLogger.With. by go.
Qed.

Lemma as_string_Some v s : as_string v = Some s → v = VString s.
Proof. destruct v; cbn; congruence. Qed.

(** ** Reading the context *)

(** A context none of whose bindings under [key] holds a string yields
    no string for [key]: in particular a context without the key. *)
Lemma Value_no_string ctx key :
  (∀ k v, (k, v) ∈ ctx → k = key → as_string v = None) →
  as_string (Value ctx key) = None.
Proof.
  induction ctx as [|[k v] ctx IH]; intros H; [done|].
  cbn. case_decide as Hk.
  - apply (H k v); [apply elem_of_cons; by left|done].
  - apply IH. intros k' v' Hin. apply H. apply elem_of_cons. by right.
Qed.

Lemma WithCorrelationId_no_string l v w :
  as_string v = None →
  CLogger.WithCorrelationId l v w = (Ret l, w)
  ∧ CSugaredLogger.WithCorrelationId l v w = (Ret l, w).
Proof.
  intros H. unfold CLogger.WithCorrelationId, CSugaredLogger.WithCorrelationId.
  by rewrite H.
Qed.

(** [WithCorrelationId] on a string through a live [*CLogger]. *)
Lemma CLogger_WithCorrelationId_run l L s w :
  loggers w !! l = Some L →
  ∃ p ext,
    CLogger.WithCorrelationId l (VString s) w
    = (Ret p, set_loggers (loggers w ++ ext) w)
    ∧ length (loggers w) ≤ p
    ∧ (loggers w ++ ext) !! p
      = Some (zap.with_fields L [zap.String (correlationIdFieldKey w) s]).
Proof.
  intros Hl. rewrite CLogger_WithCorrelationId_string.
  by apply CLogger_With_run.
Qed.

(** The sugared [With] without arguments: a second cell over the same
    base logger. *)
Lemma CSugaredLogger_With_nil l b w :
  sugars w !! l = Some b →
  CSugaredLogger.With l [] w =
  (Ret (S (length (sugars w))), set_sugars (sugars w ++ [b; b]) w).
Proof.
  intros Hl. unfold CSugaredLogger.With, zap.Sugared_With. go.
  rewrite (deref_sugar_Some _ _ _ Hl). go.
  rewrite (sweetenFields_quiet b [] w) by done.
  change (sweet []) with (@nil zapcore.Field). unfold zap.Logger_With. go.
  unfold deref_sugar. go. rewrite lookup_snoc. unfold new_sugar. go.
  by rewrite length_app, Nat.add_1_r, <-app_assoc.
Qed.

Lemma last_value_app xs ys key :
  last_value (xs ++ ys) key =
  match last_value ys key with
  | Some v => Some v
  | None => last_value xs key
  end.
Proof.
  induction xs as [|f xs IH]; cbn.
  - by destruct (last_value ys key).
  - rewrite IH. by destruct (last_value ys key).
Qed.

(** A formatted record through a live sugared handle whose level is not
    enabled and not terminal: dropped before anything is counted. *)
Lemma Sugared_logf_disabled s b L t lvl template args w :
  sugars w !! s = Some b →
  loggers w !! b = Some L →
  atoms w !! core_level L = Some t →
  zapcore.Enabled t lvl = false →
  (zapcore.level_int lvl < 3)%Z →
  zap.Sugared_logf s lvl template args w = (Ret tt, w).
Proof.
  intros Hs Hb Ha Hen Hlvl. unfold zap.Sugared_logf. go.
  rewrite (deref_sugar_Some _ _ _ Hs). go.
  rewrite (log_disabled b L _ _ _ t w Hb Ha Hen).
  by rewrite bool_decide_eq_true_2.
Qed.

(** ** The methods without a template *)

Lemma append_nil_r (s : string) : s +:+ "" = s.
Proof.
  induction s as [|c s IH]; [done|].
  change (String c (s +:+ "") = String c s). by f_equal.
Qed.

(** [fmt.Sprint] of strings only: the strings one after the other, with
    nothing between them. *)
Lemma doPrint_strings n prev (ss : list string) :
  doPrint n prev (map (λ s, Value1 (VString s)) ss)
  = foldr String.append "" ss.
Proof.
  revert n prev. induction ss as [|s ss IH]; intros n prev; [done|].
  cbn [map doPrint is_string fmt_v_operand fmt_v foldr].
  rewrite andb_false_r, andb_false_l, IH. done.
Qed.

Lemma getMessage_strings (ss : list string) :
  zap.getMessage (map (λ s, Value1 (VString s)) ss)
  = foldr String.append "" ss.
Proof.
  destruct ss as [|s [|s' ss]]; [done|by cbn; rewrite append_nil_r|].
  apply doPrint_strings.
Qed.

(** A Fatal record through a live logger, in a state where no Fatal
    record was counted: written once, and the process exits. *)
Lemma log_Fatal_run b L msg fs w :
  loggers w !! b = Some L →
  logger_ok w L →
  (∀ i counts, samplers w !! i = Some counts → no_fatal counts) →
  ∃ w',
    zap.log b zapcore.FatalLevel msg fs w = (Exits 1, w')
    ∧ written w' =
      written w ++ [(Stdout,
                     zapcore.mkEntry (now w) zapcore.FatalLevel msg
                       (core_fields L ++ fs))].
Proof.
  intros Hb (Ha & Hout & Hs) Hnf.
  apply lookup_lt_is_Some in Ha as [t Ha].
  destruct (core_sampler L) as [s|] eqn:Es.
  - destruct Hs as [Hs Hfirst]. apply lookup_lt_is_Some in Hs as [counts Hc].
    rewrite (log_sampled b L _ _ _ t w Hb Ha s counts (Enabled_Fatal t) Es Hc).
    cbn zeta.
    assert (Hn : zapcore.c_n (bumped counts zapcore.FatalLevel msg (now w))
                 = 1%Z).
    { unfold bumped, zapcore.counter_key. cbn [zapcore.level_int].
      replace (5 - -1)%Z with 6%Z by lia.
      rewrite (Hnf _ _ Hc). cbn. unfold zapcore.IncCheckReset.
      by case_bool_decide. }
    rewrite Hn, sampled_first; [|lia].
    eexists. split; [reflexivity|]. cbn. unfold record. by rewrite Hout.
  - rewrite (log_unsampled b L _ _ _ t w Hb Ha (Enabled_Fatal t) Es).
    eexists. split; [reflexivity|]. cbn. unfold record. by rewrite Hout.
Qed.

(** ** The sugared [With] on keys and values *)

Lemma sweeten_key_values kvs : ∀ i seenError,
  zap.sweeten i seenError (key_values kvs)
  = zap.mkSweetened (any_fields kvs) [] [].
Proof.
  induction kvs as [|[k v] kvs IH]; intros i seenError; [done|].
  cbn [key_values flat_map app fst snd any_fields map].
  fold (key_values kvs). fold (any_fields kvs).
  cbn [zap.sweeten as_string]. by rewrite IH.
Qed.

Lemma sweet_key_values kvs : sweet (key_values kvs) = any_fields kvs.
Proof. unfold sweet. by rewrite sweeten_key_values. Qed.

Lemma quiet_key_values kvs : quiet (key_values kvs).
Proof. unfold quiet. by rewrite sweeten_key_values. Qed.

(** Well-formed arguments leave no record behind. *)
Lemma CSugaredLogger_With_written l b L args w :
  quiet args →
  sugars w !! l = Some b →
  loggers w !! b = Some L →
  written (CSugaredLogger.With l args w).2 = written w.
Proof.
  intros Hq Hl Hb. destruct (decide (sweet args = [])) as [He | He].
  - unfold CSugaredLogger.With, zap.Sugared_With. go.
    rewrite (deref_sugar_Some _ _ _ Hl). go.
    rewrite (sweetenFields_quiet b args w Hq), He.
    unfold zap.Logger_With. go.
    unfold deref_sugar. go. rewrite lookup_snoc. unfold new_sugar. by go.
  - by rewrite (CSugaredLogger_With_quiet l b L args w Hq He Hl Hb).
Qed.

Lemma Sugared_With_seq_written calls : ∀ l b L w,
  sound w →
  sugars w !! l = Some b →
  loggers w !! b = Some L →
  Forall quiet calls →
  written (Sugared_With_seq l calls w).2 = written w.
Proof.
  induction calls as [|args calls IH]; intros l b L w Hw Hl Hb Hq; [done|].
  apply Forall_cons in Hq as [Hq Hqs].
  pose proof (CSugaredLogger_With_written l b L args w Hq Hl Hb) as Hwr.
  destruct (CSugaredLogger_With_run l b L args w Hw Hl Hb)
    as (w1 & b1 & Hrun & Hw1 & Hext1 & Hs1 & Hb1).
  rewrite Hrun in Hwr. cbn in Hwr.
  assert (Hh1 : sugars w1 !! S (length (sugars w)) = Some b1).
  { rewrite Hs1. apply lookup_snoc2. }
  specialize (IH _ _ _ w1 Hw1 Hh1 Hb1 Hqs).
  destruct (Sugared_With_seq_run calls _ _ _ w1 Hw1 Hh1 Hb1)
    as (hs & w2 & Hrun2 & _).
  rewrite Hrun2 in IH. cbn in IH.
  cbn [Sugared_With_seq]. go. rewrite Hrun. go. rewrite Hrun2. cbn.
  congruence.
Qed.

(** ** The sampler of production mode *)

Lemma passed_S (k : nat) :
  passed (S k)
  = passed k + (if zapcore.sampled 100 100 (Z.of_nat (S k)) then 1 else 0).
Proof.
  unfold passed, zapcore.sampled.
  rewrite (bool_decide_eq_false_2 (100 = 0)%Z) by done.
  repeat case_bool_decide; cbn [andb orb negb];
    zify; Z.div_mod_to_equations; lia.
Qed.

(** [n] more identical Info records within the tick in which [k] were
    already counted. *)
Lemma Info_times_from p L t s msg fs n : ∀ (k : nat) w counts,
  loggers w !! p = Some L →
  atoms w !! core_level L = Some t →
  zapcore.Enabled t zapcore.InfoLevel = true →
  core_sampler L = Some s →
  s_first s = 100%Z →
  s_thereafter s = 100%Z →
  core_out L = [Stdout] →
  samplers w !! s_counts s = Some counts →
  let c := default (zapcore.mkCounter 0 0)
             (counts !! zapcore.counter_key zapcore.InfoLevel msg) in
  zapcore.c_n c = Z.of_nat k →
  (k = 0 ∨ (now w < zapcore.c_resetAt c)%Z) →
  ∃ w',
    Info_times n p msg fs w = (Ret tt, w')
    ∧ written w' =
      written w
      ++ replicate (passed (k + n) - passed k)
           (Stdout, zapcore.mkEntry (now w) zapcore.InfoLevel msg
                      (core_fields L ++ fs)).
Proof.
  induction n as [|n IH]; intros k w counts Hp Ha Hen Hs Hf Ht Hout Hc c Hk Hr.
  - exists w. split; [done|]. rewrite Nat.add_0_r, Nat.sub_diag. cbn.
    by rewrite app_nil_r.
  - cbn [Info_times]. go. unfold zap.Info.
    rewrite (log_sampled p L _ _ _ t w Hp Ha s counts Hen Hs Hc). cbn zeta.
    set (c' := bumped counts zapcore.InfoLevel msg (now w)).
    assert (Hc' : zapcore.c_n c' = Z.of_nat (S k)
                  ∧ (now w < zapcore.c_resetAt c')%Z).
    { unfold c', bumped. fold c. unfold zapcore.IncCheckReset.
      case_bool_decide as Hlt; cbn.
      - split; [lia|done].
      - destruct Hr as [-> | Hr]; [|done]. split; [done|].
        unfold zap.tick. lia. }
    destruct Hc' as [Hk' Hr'].
    rewrite Hf, Ht, Hk'.
    pose proof (passed_S k) as HS.
    set (w1 := set_samplers _ w).
    assert (Hc1 : samplers w1 !! s_counts s
                  = Some (<[zapcore.counter_key zapcore.InfoLevel msg := c']>
                            counts)).
    { cbn. apply list_lookup_insert_eq. by eapply lookup_lt_Some. }
    assert (Hstep : ∀ w2,
      loggers w2 = loggers w → atoms w2 = atoms w → now w2 = now w →
      samplers w2 = samplers w1 →
      ∃ w', Info_times n p msg fs w2 = (Ret tt, w')
            ∧ written w' =
              written w2
              ++ replicate (passed (S k + n) - passed (S k))
                   (Stdout, zapcore.mkEntry (now w) zapcore.InfoLevel msg
                              (core_fields L ++ fs))).
    { intros w2 Hl2 Ha2 Hn2 Hs2.
      rewrite <-Hn2.
      apply (IH (S k) w2 (<[zapcore.counter_key zapcore.InfoLevel msg := c']>
                            counts)); try done.
      - by rewrite Hl2.
      - by rewrite Ha2.
      - by rewrite Hs2.
      - cbn. by rewrite lookup_insert_eq.
      - right. cbn. rewrite lookup_insert_eq. cbn. by rewrite Hn2. }
    assert (Hmono : passed (S k) ≤ passed (S k + n)).
    { clear. induction n as [|n IHn]; [by rewrite Nat.add_0_r|].
      rewrite Nat.add_succ_r. pose proof (passed_S (S k + n)). lia. }
    rewrite Nat.add_succ_r. change (S (k + n)) with (S k + n).
    destruct (zapcore.sampled 100 100 (Z.of_nat (S k))).
    + destruct (Hstep (set_written
                         (written w
                          ++ record L zapcore.InfoLevel msg fs (now w)) w1))
        as (w' & Hrun & Hwr); [done..|].
      cbn [after_write zap.terminal]. go.
      fold (zap.Info p msg fs). rewrite Hrun.
      exists w'. split; [done|]. rewrite Hwr.
      replace (passed (S k + n) - passed k)
        with (S (passed (S k + n) - passed (S k))) by lia.
      cbn [replicate written set_written]. unfold record.
      rewrite Hout. cbn [map]. by rewrite <-app_assoc.
    + destruct (Hstep w1) as (w' & Hrun & Hwr); [done..|].
      go. rewrite Hrun.
      exists w'. split; [done|]. rewrite Hwr. cbn [written set_samplers w1].
      by replace (passed (S k + n) - passed k)
        with (passed (S k + n) - passed (S k)) by lia.
Qed.

(** * The earlier revision *)

Lemma Rev0_Init_again ctx w p :
  logger w = Some p → Rev0.Init ctx w = (Ret tt, w).
Proof. intros H. unfold Rev0.Init. go. by rewrite H. Qed.

(** A first [Init] of the earlier revision: the same logger as the
    current one builds for the two switches read from the context, one
    record whatever the switches, and the correlation keys left alone. *)
Lemma Rev0_Init_first ctx w :
  logger w = None →
  let d := Rev0.flag ctx "env_development" in
  let e := Rev0.flag ctx "logger_serveHttp" in
  ∃ w',
    Rev0.Init ctx w = (Ret tt, w')
    ∧ logger w' = Some (S (length (loggers w)))
    ∧ correlationIdContextKey w' = correlationIdContextKey w
    ∧ correlationIdFieldKey w' = correlationIdFieldKey w
    ∧ loggers w' =
      loggers w ++ [builtLogger d (length (atoms w)) (length (samplers w));
                    builtLogger d (length (atoms w)) (length (samplers w))]
    ∧ atoms w' = atoms w ++ [initialLevel d]
    ∧ written w' =
      written w ++ [(Stdout,
                     zapcore.mkEntry (now w) zapcore.InfoLevel initialized_msg
                       [zap.Strings "logger_modes" (loggerMode e d)])]
    ∧ goroutines w' =
      goroutines w
      ++ (if e then [ListenAndServe ":53835" "/loglevel" (length (atoms w))]
          else []).
Proof.
  intros H d e. unfold Rev0.Init. go. rewrite H. cbn zeta. fold d e.
  clearbody d e. go.
  set (a := length (atoms w)). set (n := length (loggers w)).
  set (L := builtLogger d a (length (samplers w))).
  assert (Hen : zapcore.Enabled (initialLevel d) zapcore.InfoLevel = true)
    by by destruct d.
  assert (H0 : info_below 0 ∅) by (by intros k c; rewrite lookup_empty).
  destruct d; unfold zap.NewAtomicLevelAt; go; fold a;
    destruct e; unfold serveLogLevel; go; rewrite Build_zapConfig;
    cbn [loggers samplers set_loggers set_samplers]; fold a n L; go.
  1,2: unfold zap.Info; erewrite (log_unsampled n L);
    [|apply lookup_snoc|apply lookup_snoc|done|done];
    cbn [after_write zap.terminal]; go;
    (erewrite deref_logger_Some; [|apply lookup_snoc]); go;
    eexists; split; [reflexivity|]; cbn;
    rewrite ?app_nil_r, <-?app_assoc, ?length_app, ?Nat.add_1_r; done.
  1,2: erewrite (Info_sampled_below n L _ _ _ _ _ 0);
    [|apply lookup_snoc|apply lookup_snoc|done|reflexivity
     |apply lookup_snoc|done|exact H0];
    go; cbn [L builtLogger core_sampler s_counts]; rewrite insert_snoc;
    (erewrite deref_logger_Some; [|apply lookup_snoc]); go;
    eexists; split; [reflexivity|]; cbn;
    rewrite ?app_nil_r, <-?app_assoc, ?length_app, ?Nat.add_1_r; done.
Qed.

(** * What the calls on handles keep *)

Section kept.
Context (good : ZapLogger → Prop) (sink_ok : Sink → Prop).
Hypothesis good_with_fields : ∀ L fs, good L → good (zap.with_fields L fs).
Hypothesis good_add_callerSkip :
  ∀ L n, good L → good (zap.add_callerSkip L n).
Hypothesis good_out : ∀ L s, good L → s ∈ core_out L → sink_ok s.

Lemma kept_refl w : heap_good good w → kept good sink_ok w w.
Proof.
  intros H. split; try done. exists []. split; [by rewrite app_nil_r|].
  intros r Hr. by apply elem_of_nil in Hr.
Qed.

Lemma kept_trans w1 w2 w3 :
  kept good sink_ok w1 w2 → kept good sink_ok w2 w3 → kept good sink_ok w1 w3.
Proof.
  intros [? ? ? ? ? ? ? (rs1 & Hw1 & Hrs1) ?] [? ? ? ? ? ? ? (rs2 & Hw2 & Hrs2) ?].
  split; try congruence; [|done].
  exists (rs1 ++ rs2). split; [by rewrite Hw2, Hw1, app_assoc|].
  intros r Hr. apply elem_of_app in Hr as [Hr | Hr]; auto.
Qed.

Lemma keeps_bind {A B} (c : Go A) (Q : A → Prop) (k : A → Go B)
    (R : B → Prop) :
  keeps good sink_ok c Q →
  (∀ a, Q a → keeps good sink_ok (k a) R) →
  keeps good sink_ok (c ≫= k) R.
Proof.
  intros Hc Hk w Hw. rewrite run_bind. destruct (Hc w Hw) as [H1 HQ].
  destruct (c w) as [[a | v | n] w1]; cbn in *; [|by split..].
  destruct (Hk a (HQ a eq_refl) w1 (kept_heap _ _ _ _ H1)) as [H2 HR].
  split; [by eapply kept_trans|done].
Qed.

Lemma keeps_ret {A} (a : A) (Q : A → Prop) :
  Q a → keeps good sink_ok (mret a) Q.
Proof.
  intros HQ w Hw. split; [by apply kept_refl|]. by intros a' [= <-].
Qed.

Lemma keeps_weaken {A} (c : Go A) (Q Q' : A → Prop) :
  (∀ a, Q a → Q' a) → keeps good sink_ok c Q → keeps good sink_ok c Q'.
Proof. intros H Hc w Hw. destruct (Hc w Hw). split; auto. Qed.

Lemma keeps_get {A} (f : World → A) :
  keeps good sink_ok (get f) (λ _, True).
Proof. intros w Hw. split; [by apply kept_refl|done]. Qed.

Lemma keeps_panic {A} (v : any) (Q : A → Prop) :
  keeps good sink_ok (panic v) Q.
Proof. intros w Hw. split; [by apply kept_refl|done]. Qed.

Lemma keeps_deref_logger p : keeps good sink_ok (deref_logger p) good.
Proof.
  intros w Hw. unfold deref_logger.
  destruct (loggers w !! p) as [L|] eqn:E; cbn.
  - split; [by apply kept_refl|]. intros a [= <-]. by eapply Hw.
  - split; [by apply kept_refl|done].
Qed.

Lemma keeps_deref_sugar p : keeps good sink_ok (deref_sugar p) (λ _, True).
Proof.
  intros w Hw. unfold deref_sugar.
  destruct (sugars w !! p); cbn; (split; [by apply kept_refl|done]).
Qed.

Lemma keeps_new_logger L :
  good L → keeps good sink_ok (new_logger L) (λ _, True).
Proof.
  intros HL w Hw. split; [|done]. cbn. split; try done.
  - exists []. split; [by rewrite app_nil_r|].
    intros r Hr. by apply elem_of_nil in Hr.
  - intros p L' Hp. cbn in Hp.
    apply lookup_app_Some in Hp as [Hp | [_ Hp]]; [by eapply Hw|].
    by apply list_lookup_singleton_Some in Hp as [_ <-].
Qed.

Lemma keeps_new_sugar b : keeps good sink_ok (new_sugar b) (λ _, True).
Proof.
  intros w Hw. split; [|done]. cbn. split; try done.
  exists []. split; [by rewrite app_nil_r|].
  intros r Hr. by apply elem_of_nil in Hr.
Qed.

(** A record through any pointer, in any state: only the counters and
    the output move, and what is written goes to the sinks of the logger
    the pointer leads to. *)
Lemma log_kept p lvl msg fs w :
  logged w (zap.log p lvl msg fs w).2
  ∧ ∃ rs, written (zap.log p lvl msg fs w).2 = written w ++ rs
          ∧ ∀ r, r ∈ rs →
              ∃ L, loggers w !! p = Some L ∧ r.1 ∈ core_out L.
Proof.
  assert (Hsame : logged w w
                  ∧ ∃ rs, written w = written w ++ rs
                          ∧ ∀ r, r ∈ rs →
                              ∃ L, loggers w !! p = Some L ∧ r.1 ∈ core_out L).
  { split; [apply logged_refl|]. exists []. split; [by rewrite app_nil_r|].
    intros r Hr. by apply elem_of_nil in Hr. }
  destruct (loggers w !! p) as [L|] eqn:Hp; cycle 1.
  { assert (E : zap.log p lvl msg fs w = (Panics nil_dereference, w)).
    { unfold zap.log. rewrite run_bind. unfold deref_logger. by rewrite Hp. }
    by rewrite E. }
  destruct (atoms w !! core_level L) as [t|] eqn:Ha; cycle 1.
  { assert (E : zap.log p lvl msg fs w = (Panics nil_dereference, w)).
    { unfold zap.log. rewrite run_bind, (deref_logger_Some _ _ _ Hp).
      unfold zap.Logger_log. rewrite run_bind. unfold zap.core_Enabled.
      by rewrite Ha. }
    by rewrite E. }
  assert (Hrec : ∀ r, r ∈ record L lvl msg fs (now w) →
                      ∃ L', Some L = Some L' ∧ r.1 ∈ core_out L').
  { intros r Hr. exists L. split; [done|]. unfold record in Hr.
    apply list_elem_of_fmap in Hr as (s & -> & Hs). done. }
  destruct (zapcore.Enabled t lvl) eqn:Hen; cycle 1.
  { rewrite (log_disabled p L lvl msg fs t w Hp Ha Hen). done. }
  destruct (core_sampler L) as [s|] eqn:Es; cycle 1.
  { rewrite (log_unsampled p L lvl msg fs t w Hp Ha Hen Es). cbn.
    split; [split; cbn; try done; by apply prefix_app_r|].
    by exists (record L lvl msg fs (now w)). }
  destruct (samplers w !! s_counts s) as [counts|] eqn:Hc; cycle 1.
  { assert (E : zap.log p lvl msg fs w = (Panics nil_dereference, w)).
    { unfold zap.log. rewrite run_bind, (deref_logger_Some _ _ _ Hp).
      unfold zap.Logger_log. go. unfold zap.core_Enabled at 1.
      rewrite Ha, Hen, andb_false_r. go.
      unfold zap.core_Check. go. unfold zap.core_Enabled.
      rewrite Ha, Hen, Es. unfold zap.sampler_Check. by rewrite Hc. }
    by rewrite E. }
  rewrite (log_sampled p L lvl msg fs t w Hp Ha s counts Hen Es Hc).
  cbn zeta. cbn [snd].
  destruct (zapcore.sampled _ _ _).
  - split; [split; cbn; try done; [by rewrite length_insert
                                  |by apply prefix_app_r]|].
    by exists (record L lvl msg fs (now w)).
  - split; [split; cbn; try done; by rewrite length_insert|].
    exists []. split; [by rewrite app_nil_r|].
    intros r Hr. by apply elem_of_nil in Hr.
Qed.

Lemma keeps_log p lvl msg fs :
  keeps good sink_ok (zap.log p lvl msg fs) (λ _, True).
Proof.
  intros w Hw. split; [|done].
  destruct (log_kept p lvl msg fs w) as [[] (rs & Hwr & Hrs)].
  split; try done.
  - exists rs. split; [done|]. intros r Hr.
    destruct (Hrs r Hr) as (L & HL & Hin). eapply good_out; [|done].
    by eapply Hw.
  - intros q L. rewrite logged_loggers0. apply Hw.
Qed.

Ltac keeps_step lem := eapply keeps_bind; [lem|cbn beta].

Lemma keeps_Logger_With l fields :
  keeps good sink_ok (zap.Logger_With l fields) (λ _, True).
Proof.
  destruct fields as [|f fields]; [by apply keeps_ret|].
  unfold zap.Logger_With.
  keeps_step ltac:(apply keeps_deref_logger). intros L HL.
  by apply keeps_new_logger, good_with_fields.
Qed.

Lemma keeps_complaints base (cs : list (string * list zapcore.Field)) :
  keeps good sink_ok
    (foldr (λ c k, zap.log base zapcore.ErrorLevel c.1 c.2 ≫= λ _, k)
       (mret tt) cs)
    (λ _, True).
Proof.
  induction cs as [|c cs IH]; [by apply (keeps_ret tt)|].
  cbn [foldr]. keeps_step ltac:(apply keeps_log). intros _ _. exact IH.
Qed.

Lemma keeps_sweetenFields base args :
  keeps good sink_ok (zap.sweetenFields base args) (λ _, True).
Proof.
  unfold zap.sweetenFields. cbn zeta.
  keeps_step ltac:(apply keeps_complaints). intros _ _. by apply keeps_ret.
Qed.

Lemma keeps_Sugared_With s args :
  keeps good sink_ok (zap.Sugared_With s args) (λ _, True).
Proof.
  unfold zap.Sugared_With.
  keeps_step ltac:(apply keeps_deref_sugar). intros base _.
  keeps_step ltac:(apply keeps_sweetenFields). intros fields _.
  keeps_step ltac:(apply keeps_Logger_With). intros base' _.
  apply keeps_new_sugar.
Qed.

Lemma keeps_CSugaredLogger_With l args :
  keeps good sink_ok (CSugaredLogger.With l args) (λ _, True).
Proof.
  unfold CSugaredLogger.With.
  keeps_step ltac:(apply keeps_Sugared_With). intros q _.
  keeps_step ltac:(apply keeps_deref_sugar). intros base _.
  apply keeps_new_sugar.
Qed.

Lemma keeps_CSugaredLogger_WithCorrelationId l v :
  keeps good sink_ok (CSugaredLogger.WithCorrelationId l v) (λ _, True).
Proof.
  unfold CSugaredLogger.WithCorrelationId.
  destruct (as_string v) as [s|]; [|by apply keeps_ret].
  keeps_step ltac:(apply keeps_get). intros key _.
  keeps_step ltac:(apply keeps_Sugared_With). intros q _.
  keeps_step ltac:(apply keeps_deref_sugar). intros base _.
  apply keeps_new_sugar.
Qed.

Lemma keeps_CLogger_With l args :
  keeps good sink_ok (CLogger.With l args) (λ _, True).
Proof.
  unfold CLogger.With.
  keeps_step ltac:(apply keeps_Logger_With). intros q _.
  keeps_step ltac:(apply keeps_deref_logger). intros L HL.
  by apply keeps_new_logger.
Qed.

Lemma keeps_CLogger_WithCorrelationId l v :
  keeps good sink_ok (CLogger.WithCorrelationId l v) (λ _, True).
Proof.
  unfold CLogger.WithCorrelationId.
  destruct (as_string v) as [s|]; [|by apply keeps_ret].
  keeps_step ltac:(apply keeps_get). intros key _.
  keeps_step ltac:(apply keeps_Logger_With). intros q _.
  keeps_step ltac:(apply keeps_deref_logger). intros L HL.
  by apply keeps_new_logger.
Qed.

Lemma keeps_SugaredLogger : keeps good sink_ok SugaredLogger (λ _, True).
Proof.
  unfold SugaredLogger.
  keeps_step ltac:(apply keeps_get). intros [p|] _; [|apply keeps_panic].
  unfold zap.Sugar.
  keeps_step ltac:(eapply keeps_bind; [apply keeps_deref_logger|]).
  { intros L HL. cbn beta.
    keeps_step ltac:(by apply keeps_new_logger, good_add_callerSkip).
    intros core _. apply keeps_new_sugar. }
  intros l _.
  keeps_step ltac:(apply keeps_deref_sugar). intros base _.
  apply keeps_new_sugar.
Qed.

Lemma keeps_Sugared_logf s lvl template args :
  keeps good sink_ok (zap.Sugared_logf s lvl template args) (λ _, True).
Proof.
  unfold zap.Sugared_logf.
  keeps_step ltac:(apply keeps_deref_sugar). intros base _.
  apply keeps_log.
Qed.

Lemma keeps_PanicLogger r stack :
  keeps good sink_ok (PanicLogger r stack) (λ _, True).
Proof.
  unfold PanicLogger. case_decide; [by apply keeps_ret|].
  keeps_step ltac:(apply keeps_SugaredLogger). intros s _.
  keeps_step ltac:(apply keeps_CSugaredLogger_With). intros log _.
  apply keeps_Sugared_logf.
Qed.

Lemma keeps_discard {A} (c : Go A) (Q : A → Prop) :
  keeps good sink_ok c Q → keeps good sink_ok (discard c) (λ _, True).
Proof.
  intros Hc. unfold discard. keeps_step ltac:(exact Hc).
  intros a _. by apply keeps_ret.
Qed.

(** Every call on a handle or an accessor keeps the package variables,
    the level atoms, the goroutines and the clock. *)
Lemma exec_kept c w :
  on_handles c → heap_good good w → kept good sink_ok w (exec c w).2.
Proof.
  intros Hc Hw. destruct c; try done; cbn [exec].
  - eapply keeps_discard; [|done]. unfold Logger.
    keeps_step ltac:(apply keeps_get).
    intros [p|] _; [by apply (keeps_ret p (λ _, True))|apply keeps_panic].
  - by eapply keeps_discard; [apply keeps_SugaredLogger|].
  - by eapply keeps_discard; [apply keeps_CLogger_With|].
  - by eapply keeps_discard; [apply keeps_CLogger_WithCorrelationId|].
  - eapply keeps_discard; [|done]. unfold CLogger.WithContextCorrelationId.
    keeps_step ltac:(apply keeps_get). intros key _.
    apply keeps_CLogger_WithCorrelationId.
  - by eapply keeps_discard; [apply keeps_CSugaredLogger_With|].
  - by eapply keeps_discard; [apply keeps_CSugaredLogger_WithCorrelationId|].
  - eapply keeps_discard; [|done].
    unfold CSugaredLogger.WithContextCorrelationId.
    keeps_step ltac:(apply keeps_get). intros key _.
    apply keeps_CSugaredLogger_WithCorrelationId.
  - by apply keeps_log.
  - by apply keeps_Sugared_logf.
  - by apply keeps_PanicLogger.
Qed.
End kept.

(** * The shape of a process *)

Lemma same_core_refl B : same_core B B.
Proof. by repeat split. Qed.

Lemma same_core_with_fields B L fs :
  same_core B L → same_core B (zap.with_fields L fs).
Proof. done. Qed.

Lemma same_core_add_callerSkip B L n :
  same_core B L → same_core B (zap.add_callerSkip L n).
Proof. done. Qed.

Lemma same_core_out d a c L s :
  same_core (builtLogger d a c) L → s ∈ core_out L → s = Stdout.
Proof.
  intros (_ & _ & Hout & _). rewrite Hout. cbn.
  intros Hs. by apply list_elem_of_singleton in Hs.
Qed.

(** A call on a handle before [Init] changes nothing that exists. *)
Lemma exec_fresh c w :
  on_handles c →
  loggers w = [] →
  let w' := (exec c w).2 in
  logger w' = logger w ∧ loggers w' = [] ∧ atoms w' = atoms w
  ∧ length (samplers w') = length (samplers w)
  ∧ goroutines w' = goroutines w ∧ written w' = written w.
Proof.
  intros Hc Hnil w'.
  destruct (exec_kept (λ _, False) (λ _, False)) with (c := c) (w := w)
    as [K1 K2 K3 K4 K5 K6 K7 (rs & Hwr & Hrs) Hheap]; try done.
  { intros p L. by rewrite Hnil. }
  fold w' in Hheap, Hwr |- *.
  split; [done|]. split.
  { destruct (loggers w') as [|L ls] eqn:E; [done|].
    destruct (Hheap 0 L). by rewrite E. }
  do 3 (split; [done|]).
  destruct rs as [|r rs]; [by rewrite app_nil_r in Hwr|].
  destruct (Hrs r). apply elem_of_cons. by left.
Qed.

Lemma exec_shape c w : shape w → shape (exec c w).2.
Proof.
  intros Hshape.
  destruct (decide (on_handles c)) as [Hc | Hc].
  { destruct Hshape as [Hl Hls Ha Hs Hg Hw | p e d Hl Ha Hs Hheap Hg He Hw].
    - destruct (exec_fresh c w Hc Hls) as (H1 & H2 & H3 & H4 & H5 & H6).
      apply shape_fresh; try congruence.
      apply nil_length_inv. by rewrite H4, Hs.
    - destruct (exec_kept (same_core (builtLogger d 0 0)) (λ s, s = Stdout))
        with (c := c) (w := w)
        as [K1 K2 K3 K4 K5 K6 K7 (rs & Hwr & Hrs) Hheap']; try done.
      { intros L s. apply same_core_out. }
      apply (shape_running _ p e d);
        [congruence|congruence|congruence|done|congruence| |].
      + intros He'. rewrite K4. auto.
      + intros r. rewrite Hwr, elem_of_app. intros [Hr | Hr]; auto. }
  destruct c; try (by destruct Hc); cbn [exec].
  - (* Init *)
    destruct Hshape as [Hl Hls Ha Hs Hg Hw | p e d Hl Ha Hs Hheap Hg He Hw].
    + destruct (Init_first ctx enableLogLevelEndpoint developmentMode w Hl)
        as (w' & -> & Hi). cbn [snd]. destruct Hi.
      rewrite Hls, Ha, Hs, Hg, Hw in *. cbn in *.
      eapply (shape_running _ _ enableLogLevelEndpoint developmentMode).
      * done.
      * by rewrite init_atoms0.
      * destruct developmentMode; [by rewrite init_samplers0|].
        by destruct init_samplers0 as (counts & -> & _).
      * intros q L. rewrite init_loggers0. intros Hq.
        destruct q as [|[|q]]; cbn in Hq; simplify_eq;
          apply same_core_refl.
      * by destruct enableLogLevelEndpoint.
      * done.
      * intros r. rewrite init_written0. unfold init_records.
        intros Hr. destruct enableLogLevelEndpoint;
          repeat (apply elem_of_cons in Hr as [-> | Hr]; [done|]);
          by apply elem_of_nil in Hr.
    + rewrite (Init_again _ _ _ w p Hl). by eapply shape_running.
  - (* SetCorrelationIdFieldKey *)
    unfold SetCorrelationIdFieldKey. case_decide; [done|]. cbn.
    destruct Hshape; [by apply shape_fresh|by eapply shape_running].
  - (* SetCorrelationIdContextKey *)
    unfold SetCorrelationIdContextKey. case_decide; [done|]. cbn.
    destruct Hshape; [by apply shape_fresh|by eapply shape_running].
  - (* Tick *)
    cbn. destruct Hshape; [by apply shape_fresh|by eapply shape_running].
  - (* PutLogLevel *)
    unfold serve_PutLogLevel. case_bool_decide as Hin; [|done]. cbn.
    destruct Hshape as [Hl Hls Ha Hs Hg Hw | p e d Hl Ha Hs Hheap Hg He Hw].
    + rewrite Hg in Hin. by apply elem_of_nil in Hin.
    + destruct e; [|rewrite Hg in Hin; by apply elem_of_nil in Hin].
      apply (shape_running _ p true d); cbn;
        [done|by rewrite length_insert|done|done|done|discriminate|done].
Qed.

Theorem reachable_shape w : reachable w → shape w.
Proof.
  induction 1 as [t0 | w c o w' _ IH Hc _]; [by apply shape_fresh|].
  pose proof (exec_shape c w IH) as H. by rewrite Hc in H.
Qed.

(** * The claims *)

(** [Init] twice is [Init] once, whatever the arguments of each call. *)
Lemma Init_twice ctx e d ctx' e' d' w :
  (Init ctx e d ≫= λ _, Init ctx' e' d') w = Init ctx e d w.
Proof.
  rewrite run_bind. destruct (logger w) as [p|] eqn:E.
  - rewrite (Init_again ctx e d w p E). by eapply Init_again.
  - destruct (Init_first ctx e d w E) as (w' & -> & Hi).
    eapply Init_again, init_logger, Hi.
Qed.

(** C1. [Init] is idempotent: for every pair of flag values, when the
    process-wide [logger] is already set, [Init] returns at once and the
    whole state of the process is what it was: no backend is built, no
    record is written, no listener is spawned, no package variable moves. *)
Theorem C1_Init_idempotent ctx e d w p :
  logger w = Some p → Init ctx e d w = (Ret tt, w).
Proof. intros H. unfold Init. go. by rewrite H. Qed.

Lemma C1_Init_idempotent_witness :
  logger example_dev = Some 1
  ∧ Init [] true false example_dev = (Ret tt, example_dev).
Proof.
  split; [reflexivity|].
  apply (C1_Init_idempotent [] true false example_dev 1). reflexivity.
Defined.

(** C3. With [logger] nil, [Logger()] and [SugaredLogger()] panic and
    return no handle; after the [Init] that sets it, both return a live
    handle. *)
Theorem C3_accessors_need_Init ctx e d w :
  logger w = None →
  Logger w = (Panics not_initialized, w)
  ∧ SugaredLogger w = (Panics not_initialized, w)
  ∧ ∃ w', Init ctx e d w = (Ret tt, w')
          ∧ (∃ p L, Logger w' = (Ret p, w') ∧ loggers w' !! p = Some L)
          ∧ (∃ s w'' b L, SugaredLogger w' = (Ret s, w'')
                          ∧ sugars w'' !! s = Some b
                          ∧ loggers w'' !! b = Some L).
Proof.
  intros H. split; [by apply Logger_nil|]. split; [by apply SugaredLogger_nil|].
  destruct (Init_first ctx e d w H) as (w' & Hrun & Hi).
  exists w'. split; [done|].
  pose proof (init_logger _ _ _ _ Hi) as Hp.
  pose proof (init_loggers _ _ _ _ Hi) as Hls.
  assert (HL : loggers w' !! S (length (loggers w))
               = Some (builtLogger d (length (atoms w)) (length (samplers w))))
    by (rewrite Hls; apply lookup_snoc2).
  split.
  - eexists _, _. split; [by apply Logger_run|done].
  - rewrite (SugaredLogger_run _ _ w' Hp HL).
    eexists _, _, _, _. split; [reflexivity|]. cbn.
    split; [apply lookup_snoc2|apply lookup_snoc].
Qed.

Lemma C3_accessors_need_Init_witness :
  logger (start 0) = None
  ∧ Logger (start 0) = (Panics not_initialized, start 0)
  ∧ SugaredLogger (start 0) = (Panics not_initialized, start 0).
Proof.
  split; [reflexivity|].
  destruct (C3_accessors_need_Init [] false true (start 0) eq_refl)
    as (H1 & H2 & _).
  by split.
Defined.

(** C4, as the code has it.  In both modes the logger [Init] installs
    writes its records to standard output, and its error output is
    standard output as well: [OutputPaths] and [ErrorOutputPaths] are both
    ["stdout"], the encoding is JSON, and every record [Init] writes goes
    to standard output. *)
Theorem C4_sinks_are_stdout ctx e d w :
  logger w = None →
  ∃ w' p L,
    Init ctx e d w = (Ret tt, w')
    ∧ logger w' = Some p
    ∧ loggers w' !! p = Some L
    ∧ core_out L = [Stdout]
    ∧ errorOutput L = [Stdout]
    ∧ zap.Encoding (zapConfig d (core_level L)) = "json"
    ∧ zap.OutputPaths (zapConfig d (core_level L)) = ["stdout"]
    ∧ zap.ErrorOutputPaths (zapConfig d (core_level L)) = ["stdout"]
    ∧ ∀ r, r ∈ written w' → r ∈ written w ∨ r.1 = Stdout.
Proof.
  intros H. destruct (Init_first ctx e d w H) as (w' & Hrun & Hi).
  exists w', (S (length (loggers w))),
    (builtLogger d (length (atoms w)) (length (samplers w))).
  split; [done|]. split; [by destruct Hi|].
  split; [rewrite (init_loggers _ _ _ _ Hi); apply lookup_snoc2|].
  do 2 (split; [done|]). do 3 (split; [by destruct d|]).
  intros r. rewrite (init_written _ _ _ _ Hi), elem_of_app.
  intros [Hr | Hr]; [by left|right].
  unfold init_records in Hr.
  destruct e; repeat (apply elem_of_cons in Hr as [-> | Hr]; [done|]);
    by apply elem_of_nil in Hr.
Qed.

Lemma C4_sinks_are_stdout_witness :
  logger (start 0) = None
  ∧ ∃ w' p L,
      Init [] false true (start 0) = (Ret tt, w')
      ∧ logger w' = Some p
      ∧ loggers w' !! p = Some L
      ∧ core_out L = [Stdout]
      ∧ errorOutput L = [Stdout].
Proof.
  split; [reflexivity|].
  destruct (C4_sinks_are_stdout [] false true (start 0) eq_refl)
    as (w' & p & L & H1 & H2 & H3 & H4 & H5 & _).
  by exists w', p, L.
Defined.

(** C4 as stated fails: after [Init] in development mode, from the start
    of a process, the error output of the installed logger is standard
    output, not standard error. *)
Lemma C4_counterexample :
  ∃ p L,
    Init [] false true (start 0) = (Ret tt, example_dev)
    ∧ logger example_dev = Some p
    ∧ loggers example_dev !! p = Some L
    ∧ errorOutput L = [Stdout]
    ∧ errorOutput L ≠ [Stderr]
    ∧ zap.ErrorOutputPaths (zapConfig true (core_level L)) ≠ ["stderr"].
Proof.
  exists 1, (builtLogger true 0 0). by repeat split.
Qed.

(** C5. Mode selection.  In development mode the level starts at Debug,
    the encoder writes the function name under ["func"] and the full
    caller path, and there is no sampler; otherwise the level starts at
    Info, the function key is omitted, the caller path is short, and the
    sampler lets 100 records through and then one in 100. *)
Theorem C5_mode_selection ctx e d w :
  logger w = None →
  ∃ w' p L,
    Init ctx e d w = (Ret tt, w')
    ∧ logger w' = Some p
    ∧ loggers w' !! p = Some L
    ∧ atoms w' !! core_level L
      = Some (if d then zapcore.DebugLevel else zapcore.InfoLevel)
    ∧ zapcore.FunctionKey (core_enc L)
      = (if d then "func" else zapcore.OmitKey)
    ∧ zapcore.EncodeCaller (core_enc L)
      = Some (if d then zapcore.FullCallerEncoder
              else zapcore.ShortCallerEncoder)
    ∧ zap.Sampling (zapConfig d (core_level L))
      = (if d then None
         else Some {| zap.Initial := 100; zap.Thereafter := 100 |})
    ∧ (if d then core_sampler L = None
       else ∃ counts, core_sampler L = Some (mkSampler counts 100 100)
                      ∧ is_Some (samplers w' !! counts)).
Proof.
  intros H. destruct (Init_first ctx e d w H) as (w' & Hrun & Hi).
  exists w', (S (length (loggers w))),
    (builtLogger d (length (atoms w)) (length (samplers w))).
  split; [done|]. split; [by destruct Hi|].
  split; [rewrite (init_loggers _ _ _ _ Hi); apply lookup_snoc2|].
  split.
  { rewrite (init_atoms _ _ _ _ Hi). cbn. rewrite lookup_snoc.
    by destruct d. }
  do 3 (split; [by destruct d|]).
  pose proof (init_samplers _ _ _ _ Hi) as Hs.
  destruct d; [done|]. destruct Hs as (counts & Hs & _).
  eexists. split; [reflexivity|]. rewrite Hs, lookup_snoc. by eexists.
Qed.

Lemma C5_mode_selection_witness :
  logger (start 0) = None
  ∧ ∃ w' p L,
      Init [] false false (start 0) = (Ret tt, w')
      ∧ logger w' = Some p
      ∧ loggers w' !! p = Some L
      ∧ atoms w' !! core_level L = Some zapcore.InfoLevel.
Proof.
  split; [reflexivity|].
  destruct (C5_mode_selection [] false false (start 0) eq_refl)
    as (w' & p & L & H1 & H2 & H3 & H4 & _).
  by exists w', p, L.
Defined.

(** C6, as the code has it.  A first [Init] always succeeds, and before
    it returns it writes the Info record "Logger initialized
    successfully", whose field [logger_modes] lists "dev" or "prod" by the
    development flag and then "serveHttp" when the level endpoint is
    enabled; with the endpoint enabled it writes a second Info record,
    "Logger HTTP Server active on :53835/loglevel".  It writes nothing
    else. *)
Theorem C6_Init_records ctx e d w :
  logger w = None →
  ∃ w',
    Init ctx e d w = (Ret tt, w')
    ∧ written w' =
      written w
      ++ (Stdout,
          zapcore.mkEntry (now w) zapcore.InfoLevel
            "Logger initialized successfully"
            [zap.Strings "logger_modes"
               ([if d then "dev" else "prod"]
                ++ (if e then ["serveHttp"] else []))])
         :: (if e
             then [(Stdout,
                    zapcore.mkEntry (now w) zapcore.InfoLevel
                      "Logger HTTP Server active on :53835/loglevel" [])]
             else []).
Proof.
  intros H. destruct (Init_first ctx e d w H) as (w' & Hrun & Hi).
  exists w'. split; [done|]. by rewrite (init_written _ _ _ _ Hi).
Qed.

Lemma C6_Init_records_witness :
  logger (start 7) = None
  ∧ ∃ w',
      Init [] false true (start 7) = (Ret tt, w')
      ∧ written w' =
        [(Stdout,
          zapcore.mkEntry 7 zapcore.InfoLevel "Logger initialized successfully"
            [zap.Strings "logger_modes" ["dev"]])].
Proof.
  split; [reflexivity|].
  destruct (C6_Init_records [] false true (start 7) eq_refl) as (w' & H1 & H2).
  by exists w'.
Defined.

(** C6 as stated fails: with the level endpoint enabled, a successful
    [Init] writes two Info records, not one. *)
Lemma C6_counterexample :
  Init [] true false (start 0) = (Ret tt, example_prod)
  ∧ map (λ r, zapcore.e_message r.2) (info_records (written example_prod))
    = ["Logger initialized successfully";
       "Logger HTTP Server active on :53835/loglevel"]
  ∧ length (info_records (written example_prod)) ≠ 1.
Proof. by vm_compute. Qed.

(** C7. The empty string leaves the key it is given for as it was,
    whatever the two keys are; any other string replaces that key, and
    only that key. *)
Theorem C7_empty_key_ignored w key :
  key ≠ "" →
  SetCorrelationIdFieldKey "" w = (Ret tt, w)
  ∧ SetCorrelationIdContextKey "" w = (Ret tt, w)
  ∧ (∃ w', SetCorrelationIdFieldKey key w = (Ret tt, w')
           ∧ correlationIdFieldKey w' = key
           ∧ correlationIdContextKey w' = correlationIdContextKey w
           ∧ w' = set_correlationIdFieldKey key w)
  ∧ (∃ w', SetCorrelationIdContextKey key w = (Ret tt, w')
           ∧ correlationIdContextKey w' = key
           ∧ correlationIdFieldKey w' = correlationIdFieldKey w
           ∧ w' = set_correlationIdContextKey key w).
Proof.
  intros Hkey. split; [done|]. split; [done|].
  unfold SetCorrelationIdFieldKey, SetCorrelationIdContextKey.
  rewrite !decide_False by done. split; by eexists.
Qed.

Lemma C7_empty_key_ignored_witness :
  "request_id" ≠ ""
  ∧ SetCorrelationIdFieldKey "" example_dev = (Ret tt, example_dev)
  ∧ correlationIdFieldKey
      (SetCorrelationIdFieldKey "request_id" example_dev).2 = "request_id".
Proof.
  split; [done|].
  destruct (C7_empty_key_ignored example_dev "request_id" ltac:(done))
    as (H1 & _ & (w' & H2 & H3 & _) & _).
  split; [exact H1|]. by rewrite H2.
Defined.

(** C10. A first [Init] sets both correlation keys to ["correlation_id"]
    before anything else, so keys installed before it are lost; keys
    installed after it stay, because every later [Init] returns at once. *)
Theorem C10_Init_resets_keys ctx e d w k1 k2 :
  logger w = None →
  k1 ≠ "" →
  k2 ≠ "" →
  let set_keys w :=
    (SetCorrelationIdContextKey k2 (SetCorrelationIdFieldKey k1 w).2).2 in
  correlationIdFieldKey (set_keys w) = k1
  ∧ correlationIdContextKey (set_keys w) = k2
  ∧ ∃ w1,
      Init ctx e d (set_keys w) = (Ret tt, w1)
      ∧ correlationIdFieldKey w1 = "correlation_id"
      ∧ correlationIdContextKey w1 = "correlation_id"
      ∧ correlationIdFieldKey (set_keys w1) = k1
      ∧ correlationIdContextKey (set_keys w1) = k2
      ∧ ∀ ctx' e' d', Init ctx' e' d' (set_keys w1) = (Ret tt, set_keys w1).
Proof.
  intros H Hk1 Hk2 set_keys.
  assert (Hset : ∀ w0, set_keys w0
                       = set_correlationIdContextKey k2
                           (set_correlationIdFieldKey k1 w0)).
  { intros w0. unfold set_keys, SetCorrelationIdContextKey,
      SetCorrelationIdFieldKey. by rewrite !decide_False by done. }
  rewrite !Hset. split; [done|]. split; [done|].
  destruct (Init_first ctx e d
              (set_correlationIdContextKey k2 (set_correlationIdFieldKey k1 w)))
    as (w1 & Hrun & Hi); [done|].
  exists w1. split; [done|].
  split; [by destruct Hi|]. split; [by destruct Hi|].
  rewrite !Hset. split; [done|]. split; [done|].
  intros ctx' e' d'. eapply Init_again. cbn. by destruct Hi.
Qed.

Lemma C10_Init_resets_keys_witness :
  logger (start 0) = None
  ∧ "trace" ≠ ""
  ∧ "x-trace" ≠ ""
  ∧ correlationIdFieldKey
      (Init [] false true
         (SetCorrelationIdContextKey "x-trace"
            (SetCorrelationIdFieldKey "trace" (start 0)).2).2).2
    = "correlation_id".
Proof.
  split; [reflexivity|]. split; [done|]. split; [done|].
  destruct (C10_Init_resets_keys [] false true (start 0) "trace" "x-trace"
              eq_refl ltac:(done) ltac:(done))
    as (_ & _ & w1 & H1 & H2 & _).
  cbv zeta in H1. by rewrite H1.
Defined.

(** C2. [WithCorrelationId], for each kind of handle on its own.  Given a
    string, on a live structured handle it returns a cell that did not
    exist, holding the receiver's logger with the field that binds the
    correlation field key to the string added after the receiver's
    fields; the receiver and everything else in the process are as
    before, and nothing is written.  On a live sugared handle it does the
    same over a clone of the handle's base logger.  Given any other
    value, nil included, it returns the receiver and changes nothing,
    whatever the receiver is. *)
Theorem C2_WithCorrelationId w :
  (∀ s l L,
     loggers w !! l = Some L →
     let field := zapcore.mkField (correlationIdFieldKey w) (zapcore.FString s) in
     ∃ p w' L',
       CLogger.WithCorrelationId l (VString s) w = (Ret p, w')
       ∧ loggers w !! p = None
       ∧ loggers w' !! p = Some L'
       ∧ L' = zap.with_fields L [field]
       ∧ core_fields L' = core_fields L ++ [field]
       ∧ loggers w' !! l = Some L
       ∧ extended w w'
       ∧ written w' = written w)
  ∧ (∀ s ls b Ls,
       sugars w !! ls = Some b →
       loggers w !! b = Some Ls →
       let field := zapcore.mkField (correlationIdFieldKey w) (zapcore.FString s) in
       ∃ p w' b' L',
         CSugaredLogger.WithCorrelationId ls (VString s) w = (Ret p, w')
         ∧ sugars w !! p = None
         ∧ sugars w' !! p = Some b'
         ∧ loggers w' !! b' = Some L'
         ∧ L' = zap.with_fields Ls [field]
         ∧ core_fields L' = core_fields Ls ++ [field]
         ∧ sugars w' !! ls = Some b
         ∧ loggers w' !! b = Some Ls
         ∧ extended w w'
         ∧ written w' = written w)
  ∧ (∀ v l,
       as_string v = None →
       CLogger.WithCorrelationId l v w = (Ret l, w)
       ∧ CSugaredLogger.WithCorrelationId l v w = (Ret l, w)).
Proof.
  split; [|split].
  - intros s l L Hl. cbn zeta.
    rewrite CLogger_WithCorrelationId_string.
    destruct (CLogger_With_run l L [zap.String (correlationIdFieldKey w) s]
                w Hl) as (p & ext & -> & Hfresh & Hp).
    eexists p, _, _. split; [reflexivity|].
    split; [by apply lookup_ge_None|]. split; [exact Hp|].
    split; [done|]. split; [done|].
    split; [by apply lookup_app_l_Some|].
    split; [|done]. split; cbn; try done. by apply prefix_app_r.
  - intros s ls b Ls Hls Hb. cbn zeta.
    rewrite CSugaredLogger_WithCorrelationId_string.
    rewrite (CSugaredLogger_With_quiet ls b Ls _ w); [|by split|done..].
    eexists _, _, _, _. split; [reflexivity|]. cbn.
    split; [apply lookup_ge_None; lia|].
    split; [apply lookup_snoc2|]. split; [apply lookup_snoc|].
    split; [done|]. split; [done|].
    split; [by apply lookup_app_l_Some|].
    split; [by apply lookup_app_l_Some|].
    split; [|done]. split; cbn; try done; by apply prefix_app_r.
  - intros v l Ev.
    unfold CLogger.WithCorrelationId, CSugaredLogger.WithCorrelationId.
    by rewrite Ev.
Qed.

(** Right after [Init], when no sugared handle exists yet, and on a
    sugared handle once [SugaredLogger()] has been called. *)
Lemma C2_WithCorrelationId_witness :
  sugars example_dev = []
  ∧ loggers example_dev !! 1 = Some (builtLogger true 0 0)
  ∧ (∃ p w' L',
       CLogger.WithCorrelationId 1 (VString "abc-123") example_dev
       = (Ret p, w')
       ∧ loggers w' !! p = Some L'
       ∧ core_fields L' = [zap.String "correlation_id" "abc-123"])
  ∧ sugars example_sugared !! 1 = Some 2
  ∧ loggers example_sugared !! 2
    = Some (zap.add_callerSkip (builtLogger true 0 0) 2)
  ∧ (∃ p w' b' L',
       CSugaredLogger.WithCorrelationId 1 (VString "abc-123") example_sugared
       = (Ret p, w')
       ∧ sugars w' !! p = Some b'
       ∧ loggers w' !! b' = Some L'
       ∧ core_fields L' = [zap.String "correlation_id" "abc-123"])
  ∧ CLogger.WithCorrelationId 1 (VInt 7) example_dev = (Ret 1, example_dev).
Proof.
  do 2 (split; [reflexivity|]).
  split.
  { destruct (proj1 (C2_WithCorrelationId example_dev) "abc-123" 1 _ eq_refl)
      as (p & w' & L' & H1 & _ & H3 & _ & H5 & _).
    by exists p, w', L'. }
  do 2 (split; [reflexivity|]).
  split.
  { destruct (proj1 (proj2 (C2_WithCorrelationId example_sugared))
                "abc-123" 1 2 _ eq_refl eq_refl)
      as (p & w' & b' & L' & H1 & _ & H3 & H4 & _ & H6 & _).
    by exists p, w', b', L'. }
  exact (proj1 (proj2 (proj2 (C2_WithCorrelationId example_dev))
                  (VInt 7) 1 eq_refl)).
Defined.

(** C8. A sequence of [With] calls, each on the handle the one before
    returned, for each kind of handle on its own.  From a live
    structured handle, in any state: every call returns a cell that did
    not exist before the sequence, no two calls return the same one,
    every cell that existed is as it was and nothing is written.  After
    the last call the handle of the [i]-th call holds the fields of the
    first receiver followed by the fields of calls [0] to [i], in order:
    nothing attached earlier is lost, and a reader finds under a key the
    value attached last.  From a sugared handle of a running process the
    same holds for calls given as keys and values, [With(k1, v1, ...)]:
    the field attached for each pair is [zap.Any(k, v)]. *)
Theorem C8_With_accumulates w :
  (∀ l L calls,
     loggers w !! l = Some L →
     ∃ hs w',
       With_seq CLogger.With l calls w = (Ret hs, w')
       ∧ length hs = length calls
       ∧ NoDup hs
       ∧ extended w w'
       ∧ written w' = written w
       ∧ ∀ i h, hs !! i = Some h →
           loggers w !! h = None
           ∧ ∃ L', loggers w' !! h = Some L'
                   ∧ accumulated (core_fields L) (take (S i) calls)
                       (core_fields L'))
  ∧ (∀ ls b (scalls : list (list (string * any))),
       reachable w →
       sugars w !! ls = Some b →
       ∃ Ls hs w',
         loggers w !! b = Some Ls
         ∧ Sugared_With_seq ls (map key_values scalls) w = (Ret hs, w')
         ∧ length hs = length scalls
         ∧ NoDup hs
         ∧ extended w w'
         ∧ written w' = written w
         ∧ ∀ i h, hs !! i = Some h →
             sugars w !! h = None
             ∧ ∃ b' L', sugars w' !! h = Some b'
                        ∧ loggers w' !! b' = Some L'
                        ∧ accumulated (core_fields Ls)
                            (map any_fields (take (S i) scalls))
                            (core_fields L')).
Proof.
  split.
  - intros l L calls Hl.
    destruct (With_seq_run calls l L w Hl)
      as (hs & ext & Hrun & Hlen & Hnd & Hhs).
    eexists hs, _. split; [exact Hrun|]. split; [done|]. split; [done|].
    split; [split; cbn; try done; by apply prefix_app_r|].
    split; [done|].
    intros i h Hi. destruct (Hhs i h Hi) as [Hge Hh].
    split; [by apply lookup_ge_None|].
    eexists. split; [exact Hh|]. apply accumulated_intro.
  - intros ls b scalls Hw Hls. apply reachable_sound in Hw.
    pose proof (sound_sugars w Hw ls b Hls) as Hb.
    apply lookup_lt_is_Some in Hb as [Ls Hb].
    destruct (Sugared_With_seq_run (map key_values scalls) ls b Ls w Hw Hls Hb)
      as (hs & w' & Hrun & _ & Hext & Hlen & Hnd & Hhs).
    pose proof (Sugared_With_seq_written (map key_values scalls) ls b Ls w
                  Hw Hls Hb) as Hwr.
    rewrite Hrun in Hwr. cbn in Hwr.
    exists Ls, hs, w'. split; [done|]. split; [done|].
    split; [by rewrite Hlen, length_map|]. split; [done|]. split; [done|].
    split.
    { apply Hwr, Forall_forall. intros args Hin.
      apply list_elem_of_fmap in Hin as (kvs & -> & _).
      apply quiet_key_values. }
    intros i h Hi. destruct (Hhs i h Hi) as [Hge (b' & Hh & Hb')].
    split; [by apply lookup_ge_None|].
    eexists b', _. split; [done|]. split; [exact Hb'|].
    replace (map any_fields (take (S i) scalls))
      with (map sweet (take (S i) (map key_values scalls))).
    { apply accumulated_intro. }
    rewrite <-fmap_take, map_map. apply map_ext. intros kvs.
    apply sweet_key_values.
Qed.

(** C9, as the code has it.  With no panic in flight [PanicLogger] does
    nothing, in any state.  With a panic in flight, in a process where
    [Init] has run, it writes one Fatal record, whose fields are those of
    the process-wide logger followed by [op = "panic_logger"] and whose
    message carries the panic value and the stack text, and the process
    exits: the call does not return and the panic does not go on.  The
    stack text is what [debug.Stack()] returned, which is never empty.
    With a panic in flight before [Init], it panics itself with the
    message of the accessor and writes nothing. *)
Theorem C9_PanicLogger r stack w :
  PanicLogger VNil stack w = (Ret tt, w)
  ∧ (∀ p,
       reachable w →
       logger w = Some p →
       r ≠ VNil →
       stack ≠ "" →
       ∃ L w',
         loggers w !! p = Some L
         ∧ PanicLogger r stack w = (Exits 1, w')
         ∧ written w' =
           written w
           ++ [(Stdout,
                zapcore.mkEntry (now w) zapcore.FatalLevel
                  ("panic: " +:+ fmt_s r +:+ " stack: " +:+ stack)
                  (core_fields L
                   ++ [zapcore.mkField "op"
                         (zapcore.FString "panic_logger")]))])
  ∧ (logger w = None →
     r ≠ VNil →
     PanicLogger r stack w = (Panics not_initialized, w)).
Proof.
  split; [done|]. split.
  - intros p Hw Hp Hr _. apply reachable_sound in Hw.
    pose proof (sound_logger w Hw p Hp) as HL.
    apply lookup_lt_is_Some in HL as [L HL].
    destruct (PanicLogger_run r stack p L w Hw Hp HL Hr) as (w' & Hrun & Hwr).
    by exists L, w'.
  - intros H Hr. unfold PanicLogger. rewrite decide_False by done. go.
    by rewrite (SugaredLogger_nil w H).
Qed.

(** C9 as stated fails before [Init]: with a panic in flight and [logger]
    nil, [PanicLogger] writes nothing and panics itself, with the message
    of the accessor. *)
Lemma C9_counterexample :
  PanicLogger (VString "boom") "goroutine 1 [running]:" (start 0)
  = (Panics not_initialized, start 0)
  ∧ written (start 0) = [].
Proof. by split. Qed.

Lemma example_dev_reachable : reachable example_dev.
Proof.
  apply (reachable_step (start 0) (CallInit [] false true) (Ret tt));
    [apply reachable_start|reflexivity|discriminate].
Qed.

Lemma example_sugared_reachable : reachable example_sugared.
Proof.
  apply (reachable_step example_dev CallSugaredLogger (Ret tt));
    [apply example_dev_reachable|reflexivity|discriminate].
Qed.

Lemma C8_With_accumulates_witness :
  sugars example_dev = []
  ∧ loggers example_dev !! 1 = Some (builtLogger true 0 0)
  ∧ (∃ hs w',
       With_seq CLogger.With 1
         [[zap.String "op" "checkout"]; []; [zap.String "op" "pay"]]
         example_dev
       = (Ret hs, w')
       ∧ length hs = 3
       ∧ NoDup hs)
  ∧ reachable example_sugared
  ∧ sugars example_sugared !! 1 = Some 2
  ∧ (∃ hs w',
       Sugared_With_seq 1
         [[zap.AValue (VString "op"); zap.AValue (VString "checkout")];
          [zap.AValue (VString "op"); zap.AValue (VString "pay");
           zap.AValue (VString "try"); zap.AValue (VInt 2)]]
         example_sugared
       = (Ret hs, w')
       ∧ length hs = 2
       ∧ written w' = written example_sugared).
Proof.
  do 2 (split; [reflexivity|]).
  split.
  { destruct (proj1 (C8_With_accumulates example_dev) 1 _
                [[zap.String "op" "checkout"]; []; [zap.String "op" "pay"]]
                eq_refl)
      as (hs & w' & H1 & H2 & H3 & _).
    by exists hs, w'. }
  split; [apply example_sugared_reachable|]. split; [reflexivity|].
  destruct (proj2 (C8_With_accumulates example_sugared) 1 2
              [[("op", VString "checkout")];
               [("op", VString "pay"); ("try", VInt 2)]]
              example_sugared_reachable eq_refl)
    as (Ls & hs & w' & _ & H1 & H2 & _ & _ & H5 & _).
  by exists hs, w'.
Defined.

Lemma C9_PanicLogger_witness :
  reachable example_dev
  ∧ logger example_dev = Some 1
  ∧ VString "boom" ≠ VNil
  ∧ "goroutine 1 [running]:" ≠ ""
  ∧ ∃ w',
      PanicLogger (VString "boom") "goroutine 1 [running]:" example_dev
      = (Exits 1, w')
      ∧ written w' =
        written example_dev
        ++ [(Stdout,
             zapcore.mkEntry 0 zapcore.FatalLevel
               "panic: boom stack: goroutine 1 [running]:"
               [zap.String "op" "panic_logger"])].
Proof.
  split; [apply example_dev_reachable|].
  split; [reflexivity|]. split; [discriminate|]. split; [discriminate|].
  destruct (proj1 (proj2 (C9_PanicLogger (VString "boom")
                            "goroutine 1 [running]:" example_dev))
              1 example_dev_reachable eq_refl
              ltac:(discriminate) ltac:(discriminate))
    as (L & w' & H1 & H2 & H3).
  exists w'. split; [exact H2|].
  rewrite H3. by injection H1 as <-.
Defined.

(** * Further properties *)

(** X1. [WithContextCorrelationId] with a context whose value under the
    current context key is a string, for each kind of handle on its own:
    on a live structured handle, and on a live sugared handle, the result
    is that of [WithCorrelationId] on that string, a fresh cell holding
    the receiver's logger with the correlation field bound to the string;
    the receiver is as it was. *)
Theorem X1_WithContextCorrelationId_found w ctx s :
  Value ctx (VString (correlationIdContextKey w)) = VString s →
  let field := zapcore.mkField (correlationIdFieldKey w) (zapcore.FString s) in
  (∀ l L,
     loggers w !! l = Some L →
     ∃ p w',
       CLogger.WithContextCorrelationId l ctx w = (Ret p, w')
       ∧ CLogger.WithCorrelationId l (VString s) w = (Ret p, w')
       ∧ loggers w !! p = None
       ∧ loggers w' !! p = Some (zap.with_fields L [field])
       ∧ loggers w' !! l = Some L)
  ∧ (∀ ls b Ls,
       sugars w !! ls = Some b →
       loggers w !! b = Some Ls →
       ∃ p w' b',
         CSugaredLogger.WithContextCorrelationId ls ctx w = (Ret p, w')
         ∧ CSugaredLogger.WithCorrelationId ls (VString s) w = (Ret p, w')
         ∧ sugars w !! p = None
         ∧ sugars w' !! p = Some b'
         ∧ loggers w' !! b' = Some (zap.with_fields Ls [field])
         ∧ sugars w' !! ls = Some b
         ∧ loggers w' !! b = Some Ls).
Proof.
  intros Hv. cbn zeta. split.
  - intros l L Hl.
    unfold CLogger.WithContextCorrelationId. go. rewrite Hv.
    destruct (CLogger_WithCorrelationId_run l L s w Hl)
      as (p & ext & -> & Hfresh & Hp).
    eexists p, _. split; [reflexivity|]. split; [reflexivity|].
    split; [by apply lookup_ge_None|]. split; [exact Hp|].
    by apply lookup_app_l_Some.
  - intros ls b Ls Hls Hb.
    unfold CSugaredLogger.WithContextCorrelationId. go. rewrite Hv.
    rewrite CSugaredLogger_WithCorrelationId_string.
    rewrite (CSugaredLogger_With_quiet ls b Ls _ w); [|by split|done..].
    eexists _, _, _. split; [reflexivity|]. split; [reflexivity|]. cbn.
    split; [apply lookup_ge_None; lia|].
    split; [apply lookup_snoc2|]. split; [apply lookup_snoc|].
    split; by apply lookup_app_l_Some.
Qed.

Lemma X1_WithContextCorrelationId_found_witness :
  Value [(VString "user", VInt 7); (VString "correlation_id", VString "r-1")]
    (VString (correlationIdContextKey example_dev)) = VString "r-1"
  ∧ sugars example_dev = []
  ∧ loggers example_dev !! 1 = Some (builtLogger true 0 0)
  ∧ ∃ p w',
      CLogger.WithContextCorrelationId 1
        [(VString "user", VInt 7); (VString "correlation_id", VString "r-1")]
        example_dev = (Ret p, w')
      ∧ loggers w' !! p
        = Some (zap.with_fields (builtLogger true 0 0)
                  [zap.String "correlation_id" "r-1"]).
Proof.
  do 3 (split; [reflexivity|]).
  destruct (proj1 (X1_WithContextCorrelationId_found example_dev
                     [(VString "user", VInt 7);
                      (VString "correlation_id", VString "r-1")]
                     "r-1" eq_refl) 1 _ eq_refl)
    as (p & w' & H1 & _ & _ & H4 & _).
  by exists p, w'.
Defined.

(** X2. [WithContextCorrelationId] with a context that holds no string
    under the current context key (the key is absent, or bound to a value
    of another type): the receiver itself is returned and the state is
    unchanged, for any receiver. *)
Theorem X2_WithContextCorrelationId_missing w ctx l :
  (∀ k v, (k, v) ∈ ctx → k = VString (correlationIdContextKey w) →
          as_string v = None) →
  CLogger.WithContextCorrelationId l ctx w = (Ret l, w)
  ∧ CSugaredLogger.WithContextCorrelationId l ctx w = (Ret l, w).
Proof.
  intros H. apply Value_no_string in H.
  unfold CLogger.WithContextCorrelationId,
    CSugaredLogger.WithContextCorrelationId.
  go. by apply WithCorrelationId_no_string.
Qed.

Lemma X2_WithContextCorrelationId_missing_witness :
  (∀ k v, (k, v) ∈ [(VString "correlation_id", VInt 5)] →
          k = VString (correlationIdContextKey example_dev) →
          as_string v = None)
  ∧ CLogger.WithContextCorrelationId 1 [(VString "correlation_id", VInt 5)]
      example_dev = (Ret 1, example_dev).
Proof.
  assert (H : ∀ k v, (k, v) ∈ [(VString "correlation_id", VInt 5)] →
                     k = VString (correlationIdContextKey example_dev) →
                     as_string v = None).
  { intros k v Hin _. apply list_elem_of_singleton in Hin. by injection Hin as -> ->. }
  split; [exact H|].
  exact (proj1 (X2_WithContextCorrelationId_missing example_dev
                  [(VString "correlation_id", VInt 5)] 1 H)).
Defined.

(** X3. The correlation field key is read when [WithCorrelationId] is
    called, and fields already attached keep the key they were attached
    under.  Two calls in a row, with the field key set in between (the
    empty string leaving it as it was), give a handle with both fields in
    order after the receiver's; a reader finds the second value under the
    second key, and the first value under the first key when the keys
    differ. *)
Theorem X3_correlation_fields_accumulate w l L a b k :
  loggers w !! l = Some L →
  let key1 := correlationIdFieldKey w in
  let key2 := if decide (k = "") then key1 else k in
  ∃ p1 w1 p2 w2 L2,
    CLogger.WithCorrelationId l (VString a) w = (Ret p1, w1)
    ∧ CLogger.WithCorrelationId p1 (VString b)
        (SetCorrelationIdFieldKey k w1).2 = (Ret p2, w2)
    ∧ loggers w2 !! p2 = Some L2
    ∧ core_fields L2 =
      core_fields L ++ [zapcore.mkField key1 (zapcore.FString a);
                        zapcore.mkField key2 (zapcore.FString b)]
    ∧ last_value (core_fields L2) key2 = Some (zapcore.FString b)
    ∧ (key1 ≠ key2 →
       last_value (core_fields L2) key1 = Some (zapcore.FString a)).
Proof.
  intros Hl key1 key2.
  destruct (CLogger_WithCorrelationId_run l L a w Hl)
    as (p1 & ext1 & Hrun1 & _ & Hp1).
  set (w1 := set_loggers (loggers w ++ ext1) w) in *.
  set (w1' := (SetCorrelationIdFieldKey k w1).2).
  assert (Hheap : loggers w1' = loggers w ++ ext1).
  { unfold w1', SetCorrelationIdFieldKey. by case_decide. }
  assert (Hkey : correlationIdFieldKey w1' = key2).
  { unfold w1', key2, SetCorrelationIdFieldKey. by case_decide. }
  destruct (CLogger_WithCorrelationId_run p1
              (zap.with_fields L [zap.String (correlationIdFieldKey w) a])
              b w1')
    as (p2 & ext2 & Hrun2 & _ & Hp2); [by rewrite Hheap|].
  rewrite Hkey in Hp2.
  eexists p1, w1, p2, _, _. split; [exact Hrun1|]. split; [exact Hrun2|].
  split; [exact Hp2|]. fold key1. cbn [core_fields zap.with_fields].
  rewrite <-app_assoc. split; [done|]. rewrite !last_value_app. split.
  - cbn. by rewrite decide_True.
  - intros Hne. cbn. rewrite decide_False by done. by rewrite decide_True.
Qed.

Lemma X3_correlation_fields_accumulate_witness :
  loggers example_dev !! 1 = Some (builtLogger true 0 0)
  ∧ ∃ p1 w1 p2 w2 L2,
      CLogger.WithCorrelationId 1 (VString "a") example_dev = (Ret p1, w1)
      ∧ CLogger.WithCorrelationId p1 (VString "b")
          (SetCorrelationIdFieldKey "trace" w1).2 = (Ret p2, w2)
      ∧ loggers w2 !! p2 = Some L2
      ∧ core_fields L2 =
        [zap.String "correlation_id" "a"; zap.String "trace" "b"].
Proof.
  split; [reflexivity|].
  destruct (X3_correlation_fields_accumulate example_dev 1 _ "a" "b" "trace"
              eq_refl)
    as (p1 & w1 & p2 & w2 & L2 & H1 & H2 & H3 & H4 & _).
  by exists p1, w1, p2, w2, L2.
Defined.

(** X4. [Logger()] hands out the one process-wide pointer and changes
    nothing, so every call returns the same handle; [SugaredLogger()]
    builds a new handle at every call: two calls return different cells
    over different clones of the process-wide logger, each with its
    fields, and the process-wide logger stays as it was. *)
Theorem X4_accessor_handles w p L :
  logger w = Some p →
  loggers w !! p = Some L →
  Logger w = (Ret p, w)
  ∧ ∃ s1 w1 s2 w2 b1 b2,
      SugaredLogger w = (Ret s1, w1)
      ∧ SugaredLogger w1 = (Ret s2, w2)
      ∧ s1 ≠ s2
      ∧ sugars w !! s1 = None
      ∧ sugars w2 !! s1 = Some b1
      ∧ sugars w2 !! s2 = Some b2
      ∧ b1 ≠ b2
      ∧ loggers w2 !! b1 = Some (zap.add_callerSkip L 2)
      ∧ loggers w2 !! b2 = Some (zap.add_callerSkip L 2)
      ∧ core_fields (zap.add_callerSkip L 2) = core_fields L
      ∧ logger w2 = Some p
      ∧ loggers w2 !! p = Some L.
Proof.
  intros Hp HL. split; [by apply Logger_run|].
  pose proof (SugaredLogger_run p L w Hp HL) as H1.
  set (w1 := set_sugars _ (set_loggers _ w)) in H1.
  assert (HL1 : loggers w1 !! p = Some L) by (by apply lookup_app_l_Some).
  pose proof (SugaredLogger_run p L w1 Hp HL1) as H2.
  eexists _, _, _, _, (length (loggers w)), (S (length (loggers w))).
  split; [exact H1|]. split; [exact H2|]. cbn.
  rewrite !length_app. cbn. rewrite !Nat.add_1_r.
  set (n := length (loggers w)). set (m := length (sugars w)).
  assert (Hm : S (m + 2) = S (length (sugars w ++ [n; n])))
    by (rewrite length_app; cbn; lia).
  assert (Hn : S n = length (loggers w ++ [zap.add_callerSkip L 2]))
    by (rewrite length_app; cbn; lia).
  split; [lia|]. split; [apply lookup_ge_None; lia|].
  split; [apply lookup_app_l_Some, lookup_snoc2|].
  split; [rewrite Hm; apply lookup_snoc2|].
  split; [lia|].
  split; [apply lookup_app_l_Some, lookup_snoc|].
  split; [rewrite Hn; apply lookup_snoc|].
  split; [done|]. split; [done|].
  by do 2 apply lookup_app_l_Some.
Qed.

Lemma X4_accessor_handles_witness :
  logger example_dev = Some 1
  ∧ loggers example_dev !! 1 = Some (builtLogger true 0 0)
  ∧ Logger example_dev = (Ret 1, example_dev).
Proof.
  do 2 (split; [reflexivity|]).
  exact (proj1 (X4_accessor_handles example_dev 1 _ eq_refl eq_refl)).
Defined.

(** X5. [Printf] is a Debug record: through a live handle whose level
    atom stands above Debug, as it does in production mode, it returns
    with the state unchanged: nothing is written and nothing is counted
    by the sampler. *)
Theorem X5_Printf_dropped_above_Debug w l b L t format args :
  sugars w !! l = Some b →
  loggers w !! b = Some L →
  atoms w !! core_level L = Some t →
  t ≠ zapcore.DebugLevel →
  CSugaredLogger.Printf l format args w = (Ret tt, w).
Proof.
  intros Hl Hb Ha Ht. unfold CSugaredLogger.Printf, zap.Debugf.
  eapply Sugared_logf_disabled; [done..| |done]. by destruct t.
Qed.

Lemma example_prod_sugared_handle :
  sugars example_prod_sugared !! 1 = Some 2
  ∧ loggers example_prod_sugared !! 2
    = Some (zap.add_callerSkip (builtLogger false 0 0) 2)
  ∧ atoms example_prod_sugared !! 0 = Some zapcore.InfoLevel.
Proof. vm_compute. done. Qed.

Lemma X5_Printf_dropped_above_Debug_witness :
  sugars example_prod_sugared !! 1 = Some 2
  ∧ loggers example_prod_sugared !! 2
    = Some (zap.add_callerSkip (builtLogger false 0 0) 2)
  ∧ atoms example_prod_sugared !! 0 = Some zapcore.InfoLevel
  ∧ zapcore.InfoLevel ≠ zapcore.DebugLevel
  ∧ CSugaredLogger.Printf 1 "retry %s" [VInt 3] example_prod_sugared
    = (Ret tt, example_prod_sugared).
Proof.
  destruct example_prod_sugared_handle as (H1 & H2 & H3).
  do 3 (split; [assumption|]). split; [discriminate|].
  exact (X5_Printf_dropped_above_Debug example_prod_sugared 1 2 _
           zapcore.InfoLevel "retry %s" [VInt 3] H1 H2 H3 ltac:(discriminate)).
Defined.

(** X6. [Init] always returns: it never panics and never exits, in any
    state and for any arguments, and when it has returned [logger] is
    set.  The branch that panics on a build error is never taken: the two
    configurations [Init] builds from are accepted by the backend. *)
Theorem X6_Init_always_returns ctx e d w :
  ∃ w' p, Init ctx e d w = (Ret tt, w') ∧ logger w' = Some p.
Proof.
  destruct (logger w) as [p|] eqn:E.
  - exists w, p. split; [by apply (Init_again ctx e d w p)|done].
  - destruct (Init_first ctx e d w E) as (w' & Hrun & Hi).
    exists w', (S (length (loggers w))). split; [done|]. by destruct Hi.
Qed.

(** X7. [PanicLogger] before [Init]: with a panic in flight and [logger]
    nil it writes nothing and panics with the accessor's message; the
    value of the panic it recovered is gone. *)
Theorem X7_PanicLogger_before_Init r stack w :
  logger w = None →
  r ≠ VNil →
  PanicLogger r stack w = (Panics not_initialized, w).
Proof.
  intros H Hr. unfold PanicLogger. rewrite decide_False by done. go.
  by rewrite (SugaredLogger_nil w H).
Qed.

Lemma X7_PanicLogger_before_Init_witness :
  logger (start 3) = None
  ∧ VError "disk full" ≠ VNil
  ∧ PanicLogger (VError "disk full") "goroutine 7 [running]:" (start 3)
    = (Panics not_initialized, start 3).
Proof.
  split; [reflexivity|]. split; [discriminate|].
  apply (X7_PanicLogger_before_Init (VError "disk full")
           "goroutine 7 [running]:" (start 3) eq_refl).
  discriminate.
Defined.

(** X8. [With] without arguments still returns a new handle, for each
    kind of handle on its own.  On a live structured handle the new cell
    holds a copy of the receiver's logger.  On a live sugared handle the
    new cell shares the receiver's base logger: no logger is
    allocated. *)
Theorem X8_With_no_arguments w :
  (∀ l L,
     loggers w !! l = Some L →
     CLogger.With l [] w
     = (Ret (length (loggers w)), set_loggers (loggers w ++ [L]) w))
  ∧ (∀ ls b,
       sugars w !! ls = Some b →
       CSugaredLogger.With ls [] w
       = (Ret (S (length (sugars w))), set_sugars (sugars w ++ [b; b]) w)).
Proof.
  split.
  - intros l L Hl. unfold CLogger.With, zap.Logger_With. go.
    by rewrite (deref_logger_Some _ _ _ Hl).
  - intros ls b Hls. by apply CSugaredLogger_With_nil.
Qed.

Lemma X8_With_no_arguments_witness :
  sugars example_dev = []
  ∧ loggers example_dev !! 1 = Some (builtLogger true 0 0)
  ∧ CLogger.With 1 [] example_dev
    = (Ret 2, set_loggers (loggers example_dev ++ [builtLogger true 0 0])
                example_dev).
Proof.
  do 2 (split; [reflexivity|]).
  exact (proj1 (X8_With_no_arguments example_dev) 1 _ eq_refl).
Defined.

(** X9. [Print] and [Println] are the same Debug record: given strings,
    its message is the strings one after the other, with no space between
    them and no newline at the end.  Through a live handle whose level is
    Debug and whose core has no sampler, as in development mode, the
    record is written once, with the fields of the handle. *)
Theorem X9_Println_is_Print w l b L (ss : list string) :
  sugars w !! l = Some b →
  loggers w !! b = Some L →
  atoms w !! core_level L = Some zapcore.DebugLevel →
  core_sampler L = None →
  let args := map VString ss in
  let w' :=
    set_written
      (written w
       ++ map (λ s, (s, zapcore.mkEntry (now w) zapcore.DebugLevel
                          (foldr String.append "" ss) (core_fields L)))
            (core_out L)) w in
  CSugaredLogger.Println l args w = (Ret tt, w')
  ∧ CSugaredLogger.Print l args w = (Ret tt, w').
Proof.
  intros Hl Hb Ha Hs args w'.
  assert (H : zap.Debug l (map Value1 args) w = (Ret tt, w')).
  { unfold zap.Debug, zap.Sugared_log. go.
    rewrite (deref_sugar_Some _ _ _ Hl). go.
    rewrite (log_unsampled b L zapcore.DebugLevel _ _ _ w Hb Ha eq_refl Hs).
    unfold args. rewrite map_map, getMessage_strings.
    unfold w', record. by rewrite app_nil_r. }
  by split.
Qed.

Lemma X9_Println_is_Print_witness :
  sugars example_sugared !! 1 = Some 2
  ∧ loggers example_sugared !! 2
    = Some (zap.add_callerSkip (builtLogger true 0 0) 2)
  ∧ atoms example_sugared !! 0 = Some zapcore.DebugLevel
  ∧ written (CSugaredLogger.Println 1 [VString "a"; VString "b"]
               example_sugared).2
    = written example_sugared
      ++ [(Stdout, zapcore.mkEntry 0 zapcore.DebugLevel "ab" [])].
Proof.
  do 3 (split; [reflexivity|]).
  destruct (X9_Println_is_Print example_sugared 1 2 _ ["a"; "b"]
              eq_refl eq_refl eq_refl eq_refl) as [H _].
  cbv zeta in H. cbn [map] in H. by rewrite H.
Defined.

(** X10. [Fatalln] hands its arguments to [Fatal] as one slice: through a
    live handle of a running process it writes one Fatal record whose
    message is the arguments between brackets, separated by spaces, and
    the process exits with status 1. *)
Theorem X10_Fatalln_brackets w l b args :
  reachable w →
  sugars w !! l = Some b →
  ∃ L w',
    loggers w !! b = Some L
    ∧ CSugaredLogger.Fatalln l args w = (Exits 1, w')
    ∧ written w' =
      written w
      ++ [(Stdout,
           zapcore.mkEntry (now w) zapcore.FatalLevel
             ("[" +:+ String.concat " " (map fmt_v args) +:+ "]")
             (core_fields L))].
Proof.
  intros Hw Hl. apply reachable_sound in Hw.
  pose proof (sound_sugars w Hw l b Hl) as Hb.
  apply lookup_lt_is_Some in Hb as [L Hb].
  destruct (log_Fatal_run b L (zap.getMessage [Slice args]) [] w Hb)
    as (w' & Hrun & Hwr);
    [by eapply sound_loggers|by eapply sound_samplers|].
  exists L, w'. split; [done|]. split.
  - unfold CSugaredLogger.Fatalln, zap.Fatal, zap.Sugared_log. go.
    by rewrite (deref_sugar_Some _ _ _ Hl).
  - rewrite Hwr, app_nil_r. cbn [zap.getMessage Sprint doPrint is_string
                                  fmt_v_operand].
    by rewrite andb_false_l, append_nil_r.
Qed.

Lemma X10_Fatalln_brackets_witness :
  reachable example_sugared
  ∧ sugars example_sugared !! 1 = Some 2
  ∧ ∃ w',
      CSugaredLogger.Fatalln 1 [VString "down"; VBool true] example_sugared
      = (Exits 1, w')
      ∧ written w' =
        written example_sugared
        ++ [(Stdout,
             zapcore.mkEntry 0 zapcore.FatalLevel "[down true]" [])].
Proof.
  split; [apply example_sugared_reachable|]. split; [reflexivity|].
  destruct (X10_Fatalln_brackets example_sugared 1 2
              [VString "down"; VBool true]
              example_sugared_reachable eq_refl)
    as (L & w' & H1 & H2 & H3).
  exists w'. split; [exact H2|]. rewrite H3. by injection H1 as <-.
Defined.

(** X11. A first [Init] of the earlier revision reads its two switches
    from the context, lists "serveHttp" among the modes and spawns the
    listener when the switch is on, and writes the "initialized" record
    only: the record that announces the HTTP server is never written. *)
Theorem X11_Rev0_Init_one_record ctx w :
  logger w = None →
  let d := Rev0.flag ctx "env_development" in
  let e := Rev0.flag ctx "logger_serveHttp" in
  ∃ w',
    Rev0.Init ctx w = (Ret tt, w')
    ∧ written w' =
      written w
      ++ [(Stdout,
           zapcore.mkEntry (now w) zapcore.InfoLevel
             "Logger initialized successfully"
             [zap.Strings "logger_modes"
                ([if d then "dev" else "prod"]
                 ++ (if e then ["serveHttp"] else []))])]
    ∧ goroutines w' =
      goroutines w
      ++ (if e then [ListenAndServe ":53835" "/loglevel" (length (atoms w))]
          else [])
    ∧ correlationIdContextKey w' = correlationIdContextKey w
    ∧ correlationIdFieldKey w' = correlationIdFieldKey w.
Proof.
  intros H d e.
  destruct (Rev0_Init_first ctx w H)
    as (w' & Hrun & _ & Hck & Hfk & _ & _ & Hwr & Hgo).
  exists w'. by repeat split.
Qed.

Lemma X11_Rev0_Init_one_record_witness :
  logger (start 0) = None
  ∧ ∃ w',
      Rev0.Init [(VString "logger_serveHttp", VBool true)] (start 0)
      = (Ret tt, w')
      ∧ written w' =
        [(Stdout,
          zapcore.mkEntry 0 zapcore.InfoLevel "Logger initialized successfully"
            [zap.Strings "logger_modes" ["prod"; "serveHttp"]])]
      ∧ goroutines w' = [ListenAndServe ":53835" "/loglevel" 0].
Proof.
  split; [reflexivity|].
  destruct (X11_Rev0_Init_one_record
              [(VString "logger_serveHttp", VBool true)] (start 0) eq_refl)
    as (w' & H1 & H2 & H3 & _).
  by exists w'.
Defined.

(** X12. The earlier revision turns a switch on only for the boolean
    [true] under its key: a missing key, [false], or a value of another
    type, such as the string "true", leave it off.  So development mode is
    installed exactly when the context holds [true] under
    "env_development", and the listener is spawned exactly when it holds
    [true] under "logger_serveHttp". *)
Theorem X12_Rev0_Init_switches ctx w :
  logger w = None →
  ∃ w' p L,
    Rev0.Init ctx w = (Ret tt, w')
    ∧ logger w' = Some p
    ∧ loggers w' !! p = Some L
    ∧ (development L = true
       ↔ Value ctx (VString "env_development") = VBool true)
    ∧ atoms w' !! core_level L
      = Some (if development L then zapcore.DebugLevel
              else zapcore.InfoLevel)
    ∧ (goroutines w' ≠ goroutines w
       ↔ Value ctx (VString "logger_serveHttp") = VBool true).
Proof.
  intros H.
  assert (Hflag : ∀ key, Rev0.flag ctx key = true
                         ↔ Value ctx (VString key) = VBool true).
  { intros key. unfold Rev0.flag.
    destruct (Value ctx (VString key)) as [| |[]| |]; cbn; naive_solver. }
  destruct (Rev0_Init_first ctx w H)
    as (w' & Hrun & Hp & _ & _ & Hls & Hat & _ & Hgo).
  cbv zeta in *.
  exists w', (S (length (loggers w))),
    (builtLogger (Rev0.flag ctx "env_development") (length (atoms w))
       (length (samplers w))).
  split; [done|]. split; [done|].
  split; [rewrite Hls; apply lookup_snoc2|].
  split; [apply Hflag|].
  split; [rewrite Hat; cbn; by rewrite lookup_snoc|].
  rewrite <-Hflag, Hgo.
  destruct (Rev0.flag ctx "logger_serveHttp").
  - split; [done|]. intros _ Heq.
    apply (f_equal length) in Heq. rewrite length_app in Heq. cbn in Heq. lia.
  - rewrite app_nil_r. split; [done|discriminate].
Qed.

Lemma X12_Rev0_Init_switches_witness :
  logger (start 0) = None
  ∧ ∃ w' p L,
      Rev0.Init [(VString "env_development", VString "true")] (start 0)
      = (Ret tt, w')
      ∧ logger w' = Some p
      ∧ loggers w' !! p = Some L
      ∧ development L = false.
Proof.
  split; [reflexivity|].
  destruct (X12_Rev0_Init_switches
              [(VString "env_development", VString "true")] (start 0) eq_refl)
    as (w' & p & L & H1 & H2 & H3 & H4 & _).
  exists w', p, L. do 3 (split; [assumption|]).
  destruct (development L); [|reflexivity].
  pose proof (proj1 H4 eq_refl) as Hv. vm_compute in Hv. discriminate Hv.
Defined.

(** X13. With the field key at its default, [WithCorrelationId] behaves
    as in the earlier revision, where the key was fixed: both revisions
    return the same handle and leave the same state, for either handle
    type, any receiver and any value. *)
Theorem X13_WithCorrelationId_as_Rev0 w l v :
  correlationIdFieldKey w = "correlation_id" →
  CLogger.WithCorrelationId l v w = Rev0.CLogger.WithCorrelationId l v w
  ∧ CSugaredLogger.WithCorrelationId l v w
    = Rev0.CSugaredLogger.WithCorrelationId l v w.
Proof.
  intros Hk.
  unfold CLogger.WithCorrelationId, Rev0.CLogger.WithCorrelationId,
    CSugaredLogger.WithCorrelationId, Rev0.CSugaredLogger.WithCorrelationId.
  destruct (as_string v); [|done]. go. by rewrite Hk.
Qed.

Lemma X13_WithCorrelationId_as_Rev0_witness :
  correlationIdFieldKey example_dev = "correlation_id"
  ∧ CLogger.WithCorrelationId 1 (VString "r-9") example_dev
    = Rev0.CLogger.WithCorrelationId 1 (VString "r-9") example_dev.
Proof.
  split; [reflexivity|].
  exact (proj1 (X13_WithCorrelationId_as_Rev0 example_dev 1 (VString "r-9")
                  eq_refl)).
Defined.

Lemma example_http_reachable : reachable example_http.
Proof.
  apply (reachable_step (start 0) (CallInit [] true true) (Ret tt));
    [apply reachable_start|by vm_compute|discriminate].
Qed.

Lemma example_http_state :
  goroutines example_http = [ListenAndServe ":53835" "/loglevel" 0]
  ∧ loggers example_http !! 1 = Some (builtLogger true 0 0)
  ∧ written example_http
    = [(Stdout, zapcore.mkEntry 0 zapcore.InfoLevel
                  "Logger initialized successfully"
                  [zap.Strings "logger_modes" ["dev"; "serveHttp"]]);
       (Stdout, zapcore.mkEntry 0 zapcore.InfoLevel
                  "Logger HTTP Server active on :53835/loglevel" [])].
Proof. by vm_compute. Qed.

(** X14. Nothing is ever written to standard error: in every state a
    process reaches, every record written so far went to standard
    output. *)
Theorem X14_only_stdout w r :
  reachable w → r ∈ written w → r.1 = Stdout.
Proof.
  intros Hw Hr. apply reachable_shape in Hw.
  destruct Hw as [_ _ _ _ _ Hnil | p e d _ _ _ _ _ _ Hout]; [|by apply Hout].
  rewrite Hnil in Hr. by apply elem_of_nil in Hr.
Qed.

Lemma X14_only_stdout_witness :
  reachable example_http
  ∧ (Stdout, zapcore.mkEntry 0 zapcore.InfoLevel
               "Logger HTTP Server active on :53835/loglevel" [])
    ∈ written example_http
  ∧ (Stdout, zapcore.mkEntry 0 zapcore.InfoLevel
               "Logger HTTP Server active on :53835/loglevel" []).1 = Stdout.
Proof.
  split; [apply example_http_reachable|].
  assert (H : (Stdout, zapcore.mkEntry 0 zapcore.InfoLevel
                 "Logger HTTP Server active on :53835/loglevel" [])
              ∈ written example_http).
  { destruct example_http_state as (_ & _ & ->).
    apply elem_of_cons. right. apply elem_of_cons. by left. }
  split; [exact H|].
  exact (X14_only_stdout example_http _ example_http_reachable H).
Defined.

(** X15. Before [Init] nothing exists: no logger was allocated, no level
    atom, no goroutine, and nothing was written.  At any time the only
    goroutine the package has spawned is the one listener of the level
    endpoint, on ":53835" under "/loglevel": a process never has two. *)
Theorem X15_one_listener w :
  reachable w →
  (goroutines w = [] ∨ goroutines w = [ListenAndServe ":53835" "/loglevel" 0])
  ∧ (logger w = None →
     loggers w = [] ∧ atoms w = [] ∧ goroutines w = [] ∧ written w = []).
Proof.
  intros Hw. apply reachable_shape in Hw.
  destruct Hw as [Hl Hls Ha _ Hg Hwr | p e d Hl _ _ _ Hg _ _].
  - split; [by left|done].
  - split; [destruct e; auto|]. by rewrite Hl.
Qed.

Lemma X15_one_listener_witness :
  reachable example_http
  ∧ goroutines example_http = [ListenAndServe ":53835" "/loglevel" 0].
Proof.
  split; [apply example_http_reachable|].
  destruct (X15_one_listener example_http example_http_reachable)
    as [[H | H] _]; [|exact H].
  destruct example_http_state as (Hg & _). rewrite Hg in H. discriminate H.
Defined.

(** X16. Every handle a process holds is the process-wide logger up to
    its fields and its caller skip: it has the same level atom, encoder,
    output and error sinks, sampler and development flag. *)
Theorem X16_handles_share_the_core w p q L :
  reachable w →
  logger w = Some p →
  loggers w !! q = Some L →
  ∃ B, loggers w !! p = Some B ∧ same_core B L.
Proof.
  intros Hw Hp Hq. pose proof (reachable_sound w Hw) as Hs.
  apply reachable_shape in Hw.
  destruct Hw as [Hl _ _ _ _ _ | p' e d _ _ _ Hheap _ _ _]; [congruence|].
  pose proof (sound_logger w Hs p Hp) as HB.
  apply lookup_lt_is_Some in HB as [B HB].
  exists B. split; [done|].
  destruct (Hheap p B HB) as (B1 & B2 & B3 & B4 & B5 & B6 & B7 & B8).
  destruct (Hheap q L Hq) as (L1 & L2 & L3 & L4 & L5 & L6 & L7 & L8).
  repeat split; congruence.
Qed.

Lemma X16_handles_share_the_core_witness :
  reachable example_sugared
  ∧ logger example_sugared = Some 1
  ∧ loggers example_sugared !! 2
    = Some (zap.add_callerSkip (builtLogger true 0 0) 2)
  ∧ ∃ B, loggers example_sugared !! 1 = Some B
         ∧ same_core B (zap.add_callerSkip (builtLogger true 0 0) 2).
Proof.
  split; [apply example_sugared_reachable|].
  do 2 (split; [reflexivity|]).
  exact (X16_handles_share_the_core example_sugared 1 2 _
           example_sugared_reachable eq_refl eq_refl).
Defined.

(** X17. A level set through the endpoint reaches every handle at once:
    after the listener has served a [PUT] of [lvl], whatever level it is,
    every logger on the heap reads [lvl] as its threshold; a record below
    it and below DPanic is then dropped through any handle, with the
    state unchanged. *)
Theorem X17_PUT_reaches_every_handle w lvl :
  reachable w →
  goroutines w = [ListenAndServe ":53835" "/loglevel" 0] →
  ∃ w',
    serve_PutLogLevel 0 lvl w = (Ret tt, w')
    ∧ loggers w' = loggers w
    ∧ ∀ q L,
        loggers w !! q = Some L →
        atoms w' !! core_level L = Some lvl
        ∧ ∀ lvl' msg fs,
            zapcore.Enabled lvl lvl' = false →
            (zapcore.level_int lvl' < 3)%Z →
            zap.log q lvl' msg fs w' = (Ret tt, w').
Proof.
  intros Hw Hg. apply reachable_shape in Hw.
  destruct Hw as [_ _ _ _ Hg' _ | p e d _ Ha _ Hheap _ _ _]; [congruence|].
  unfold serve_PutLogLevel. rewrite Hg.
  rewrite bool_decide_eq_true_2 by (apply elem_of_cons; by left).
  eexists. split; [reflexivity|]. split; [done|].
  intros q L Hq.
  destruct (Hheap q L Hq) as (Hcore & _). cbn in Hcore.
  assert (Hat : atoms (set_atoms (<[0:=lvl]> (atoms w)) w) !! core_level L
                = Some lvl).
  { rewrite Hcore. cbn. apply list_lookup_insert_eq. lia. }
  split; [exact Hat|].
  intros lvl' msg fs Hen Hlvl.
  erewrite log_disabled; [|exact Hq|exact Hat|exact Hen].
  by rewrite bool_decide_eq_true_2.
Qed.

Lemma X17_PUT_reaches_every_handle_witness :
  reachable example_http
  ∧ goroutines example_http = [ListenAndServe ":53835" "/loglevel" 0]
  ∧ loggers example_http !! 1 = Some (builtLogger true 0 0)
  ∧ (∃ w',
       serve_PutLogLevel 0 zapcore.DebugLevel example_http = (Ret tt, w')
       ∧ atoms w' !! 0 = Some zapcore.DebugLevel)
  ∧ ∃ w',
      serve_PutLogLevel 0 zapcore.ErrorLevel example_http = (Ret tt, w')
      ∧ zap.log 1 zapcore.InfoLevel "ping" [] w' = (Ret tt, w').
Proof.
  destruct example_http_state as (Hg & Hl & _).
  split; [apply example_http_reachable|].
  do 2 (split; [assumption|]).
  split.
  { destruct (X17_PUT_reaches_every_handle example_http zapcore.DebugLevel
                example_http_reachable Hg)
      as (w' & H1 & _ & H3).
    exists w'. split; [exact H1|]. exact (proj1 (H3 1 _ Hl)). }
  destruct (X17_PUT_reaches_every_handle example_http zapcore.ErrorLevel
              example_http_reachable Hg)
    as (w' & H1 & _ & H3).
  exists w'. split; [exact H1|].
  exact (proj2 (H3 1 _ Hl) zapcore.InfoLevel "ping" [] eq_refl ltac:(done)).
Defined.

(** X18. Without the level endpoint the threshold never moves: in a
    process that has no listener, every handle reads the level its mode
    started at, Debug in development mode and Info otherwise. *)
Theorem X18_level_fixed_without_endpoint w q L :
  reachable w →
  goroutines w = [] →
  loggers w !! q = Some L →
  atoms w !! core_level L
  = Some (if development L then zapcore.DebugLevel else zapcore.InfoLevel).
Proof.
  intros Hw Hg Hq. apply reachable_shape in Hw.
  destruct Hw as [_ Hls _ _ _ _ | p e d _ _ _ Hheap Hg' He _].
  { by rewrite Hls in Hq. }
  destruct e; [by rewrite Hg in Hg'|].
  destruct (Hheap q L Hq) as (Hcore & _ & _ & _ & _ & Hdev & _).
  cbn in Hcore, Hdev. rewrite Hcore, Hdev, (He eq_refl). by destruct d.
Qed.

Lemma X18_level_fixed_without_endpoint_witness :
  reachable example_sugared
  ∧ goroutines example_sugared = []
  ∧ loggers example_sugared !! 2
    = Some (zap.add_callerSkip (builtLogger true 0 0) 2)
  ∧ atoms example_sugared !! 0 = Some zapcore.DebugLevel.
Proof.
  split; [apply example_sugared_reachable|].
  do 2 (split; [reflexivity|]).
  exact (X18_level_fixed_without_endpoint example_sugared 2 _
           example_sugared_reachable eq_refl eq_refl).
Defined.

(** X19. No handle dangles: in every state a process reaches, the
    process-wide pointer and the base of every sugared handle lead to a
    logger, and the level atom of every logger exists. *)
Theorem X19_no_dangling_handle w :
  reachable w →
  (∀ p, logger w = Some p → is_Some (loggers w !! p))
  ∧ (∀ s b, sugars w !! s = Some b → is_Some (loggers w !! b))
  ∧ (∀ q L, loggers w !! q = Some L → is_Some (atoms w !! core_level L)).
Proof.
  intros Hw. apply reachable_sound in Hw. destruct Hw as [H1 H2 H3 _].
  split; [|split].
  - intros p Hp. by apply lookup_lt_is_Some, H1.
  - intros s b Hs. apply lookup_lt_is_Some. by eapply H3.
  - intros q L Hq. apply lookup_lt_is_Some. by destruct (H2 q L Hq).
Qed.

Lemma X19_no_dangling_handle_witness :
  reachable example_sugared
  ∧ sugars example_sugared !! 1 = Some 2
  ∧ is_Some (loggers example_sugared !! 2).
Proof.
  split; [apply example_sugared_reachable|]. split; [reflexivity|].
  destruct (X19_no_dangling_handle example_sugared example_sugared_reachable)
    as (_ & H & _).
  exact (H 1 2 eq_refl).
Defined.

Lemma example_prod_reachable : reachable example_prod.
Proof.
  apply (reachable_step (start 0) (CallInit [] true false) (Ret tt));
    [apply reachable_start|by vm_compute|discriminate].
Qed.

Lemma example_prod_state :
  loggers example_prod !! 1 = Some (builtLogger false 0 0)
  ∧ atoms example_prod !! 0 = Some zapcore.InfoLevel
  ∧ samplers example_prod !! 0
    = Some (default ∅ (samplers example_prod !! 0))
  ∧ default ∅ (samplers example_prod !! 0)
    !! zapcore.counter_key zapcore.InfoLevel "request served" = None
  ∧ zapcore.counter_key zapcore.InfoLevel "req 7734"
    = zapcore.counter_key zapcore.InfoLevel "Logger initialized successfully"
  ∧ default ∅ (samplers example_prod !! 0)
    !! zapcore.counter_key zapcore.InfoLevel "req 7734"
    = Some (zapcore.mkCounter 1 1000000000)
  ∧ now example_prod = 0%Z.
Proof. by vm_compute. Qed.

(** X20. Sampling in production mode ([Sampling: Initial 100,
    Thereafter 100]).  The sampler counts records per slot: the level and
    the hash of the message modulo 4096, so that two messages can share a
    slot.  Take a handle of a production-mode process and a message whose
    slot has counted [k] records in the current tick ([k] is 0 when the
    slot holds no counter).  Of [n] more Info records with that message
    logged within the tick, those are written that bring the count of the
    slot to a number up to a hundred, and after that to every hundredth;
    the others are dropped.  Every call returns. *)
Theorem X20_production_sampling w p L t counts msg fs k n :
  reachable w →
  loggers w !! p = Some L →
  core_sampler L ≠ None →
  atoms w !! 0 = Some t →
  zapcore.Enabled t zapcore.InfoLevel = true →
  samplers w !! 0 = Some counts →
  match counts !! zapcore.counter_key zapcore.InfoLevel msg with
  | None => k = 0
  | Some c => zapcore.c_n c = Z.of_nat k ∧ (now w < zapcore.c_resetAt c)%Z
  end →
  ∃ w',
    Info_times n p msg fs w = (Ret tt, w')
    ∧ written w' =
      written w
      ++ replicate (passed (k + n) - passed k)
           (Stdout, zapcore.mkEntry (now w) zapcore.InfoLevel msg
                      (core_fields L ++ fs)).
Proof.
  intros Hw Hp Hs Ha Hen Hc Hm. apply reachable_shape in Hw.
  destruct Hw as [_ Hls _ _ _ _ | p' e d _ _ _ Hheap _ _ _].
  { by rewrite Hls in Hp. }
  destruct (Hheap p L Hp) as (Hcore & _ & Hout & Hsam & _).
  destruct d; [by rewrite Hsam in Hs|]. cbn in Hcore, Hout, Hsam.
  apply (Info_times_from p L t (mkSampler 0 100 100) msg fs n k w counts);
    try done.
  - by rewrite Hcore.
  - destruct (counts !! _) as [c|]; [by destruct Hm|by subst k].
  - destruct (counts !! _) as [c|]; [right; by destruct Hm|by left].
Qed.

(** In a production process right after [Init]: a message in a slot of
    its own, and one that shares its slot with the first record of
    [Init], of which a hundred records write ninety-nine. *)
Lemma X20_production_sampling_witness :
  reachable example_prod
  ∧ loggers example_prod !! 1 = Some (builtLogger false 0 0)
  ∧ core_sampler (builtLogger false 0 0) ≠ None
  ∧ atoms example_prod !! 0 = Some zapcore.InfoLevel
  ∧ zapcore.Enabled zapcore.InfoLevel zapcore.InfoLevel = true
  ∧ samplers example_prod !! 0
    = Some (default ∅ (samplers example_prod !! 0))
  ∧ default ∅ (samplers example_prod !! 0)
    !! zapcore.counter_key zapcore.InfoLevel "request served" = None
  ∧ (∃ w',
       Info_times 250 1 "request served" [] example_prod = (Ret tt, w')
       ∧ written w' =
         written example_prod
         ++ replicate 101
              (Stdout, zapcore.mkEntry (now example_prod) zapcore.InfoLevel
                         "request served" []))
  ∧ default ∅ (samplers example_prod !! 0)
    !! zapcore.counter_key zapcore.InfoLevel "req 7734"
    = Some (zapcore.mkCounter 1 1000000000)
  ∧ ∃ w',
      Info_times 100 1 "req 7734" [] example_prod = (Ret tt, w')
      ∧ written w' =
        written example_prod
        ++ replicate 99
             (Stdout, zapcore.mkEntry (now example_prod) zapcore.InfoLevel
                        "req 7734" []).
Proof.
  destruct example_prod_state as (H1 & H2 & H3 & H4 & _ & H6 & H7).
  split; [apply example_prod_reachable|].
  split; [exact H1|]. split; [discriminate|]. split; [exact H2|].
  split; [reflexivity|]. split; [exact H3|]. split; [exact H4|].
  split.
  { apply (X20_production_sampling example_prod 1 _ zapcore.InfoLevel _
             "request served" [] 0 250 example_prod_reachable H1
             ltac:(discriminate) H2 eq_refl H3).
    by rewrite H4. }
  split; [exact H6|].
  apply (X20_production_sampling example_prod 1 _ zapcore.InfoLevel _
           "req 7734" [] 1 100 example_prod_reachable H1
           ltac:(discriminate) H2 eq_refl H3).
  rewrite H6, H7. by split.
Defined.
